(** * Prayer Warrior API server: the participation store, the topic catalog
      and the statistics report of [server.js], embedded and verified.

    The server keeps all of its state in PostgreSQL and reaches it through
    one connection pool.  Every route handler is a sequence of
    [pool.query] calls inside a [try { ... } catch (err) { ... }].  The
    embedding follows that shape:

    - the tables are lists of rows, the columns are record fields named after
      the aliases the SQL text uses ([pr], [dp], [pt]);
    - each SQL statement of the source is one function over the database,
      which gives rows or raises the error of a violated constraint;
    - [pool.query] runs a statement in a small state-and-exception monad whose
      state also carries the faults of the connection and the console;
    - each route handler is a function from the inputs of the request to a
      response and the new state;
    - the object [categorized] of the topic route is the list of its own
      properties in the order of their creation, read with the lookup and the
      enumeration order of JavaScript objects.

    Conventions: timestamps are integers (seconds) and [NOW()] is the [now] a
    handler is called with; the [:id] route parameter is the integer it
    denotes; [device_id] of the JSON body is either absent or a string; ORDER
    BY is a stable sort.  The columns hold integers and strings without
    bound.  PostgreSQL refuses a value outside the type of its column; the
    legacy pray and complete carry that refusal for INTEGER, and wherever else
    a theorem depends on the type of a column it assumes the values within
    it. *)

From Stdlib Require Import ZArith List String Ascii Bool Lia Permutation Sorted.
Import ListNotations.
Open Scope Z_scope.

(** ** Tables *)

(** [prayer_topics (id, title, category, parent_id)]. *)
Record prayer_topic := {
  pt_id : Z;
  pt_title : string;
  pt_category : string;
  pt_parent_id : option Z
}.

(** [prayer_requests (id, topic_id, device_id, description, prayer_count,
    active_prayers, created_at, expires_at)]. *)
Record prayer_request := {
  pr_id : Z;
  pr_topic_id : Z;
  pr_device_id : option string;
  pr_description : option string;
  pr_prayer_count : Z;
  pr_active_prayers : Z;
  pr_created_at : Z;
  pr_expires_at : Z
}.

(** [device_prayers (id, device_id, prayer_request_id, joined_at,
    completed_at)], [UNIQUE(device_id, prayer_request_id)],
    [prayer_request_id REFERENCES prayer_requests(id) ON DELETE CASCADE]. *)
Record device_prayer := {
  dp_id : Z;
  dp_device_id : string;
  dp_prayer_request_id : Z;
  dp_joined_at : Z;
  dp_completed_at : option Z
}.

Record database := {
  prayer_topics : list prayer_topic;
  prayer_requests : list prayer_request;
  device_prayers : list device_prayer;
  prayer_requests_id_seq : Z;
  device_prayers_id_seq : Z
}.

(** ** SQL fragments *)

(** [SET prayer_count = prayer_count + 1]. *)
Definition set_prayer_count_incr (pr : prayer_request) : prayer_request :=
  {| pr_id := pr_id pr; pr_topic_id := pr_topic_id pr;
     pr_device_id := pr_device_id pr; pr_description := pr_description pr;
     pr_prayer_count := pr_prayer_count pr + 1;
     pr_active_prayers := pr_active_prayers pr;
     pr_created_at := pr_created_at pr; pr_expires_at := pr_expires_at pr |}.

(** [SET active_prayers = active_prayers + 1]. *)
Definition set_active_prayers_incr (pr : prayer_request) : prayer_request :=
  {| pr_id := pr_id pr; pr_topic_id := pr_topic_id pr;
     pr_device_id := pr_device_id pr; pr_description := pr_description pr;
     pr_prayer_count := pr_prayer_count pr;
     pr_active_prayers := pr_active_prayers pr + 1;
     pr_created_at := pr_created_at pr; pr_expires_at := pr_expires_at pr |}.

(** [SET prayer_count = prayer_count + 1, active_prayers = active_prayers + 1]. *)
Definition set_both_incr (pr : prayer_request) : prayer_request :=
  {| pr_id := pr_id pr; pr_topic_id := pr_topic_id pr;
     pr_device_id := pr_device_id pr; pr_description := pr_description pr;
     pr_prayer_count := pr_prayer_count pr + 1;
     pr_active_prayers := pr_active_prayers pr + 1;
     pr_created_at := pr_created_at pr; pr_expires_at := pr_expires_at pr |}.

(** [SET active_prayers = GREATEST(active_prayers - 1, 0)]. *)
Definition set_active_prayers_decr (pr : prayer_request) : prayer_request :=
  {| pr_id := pr_id pr; pr_topic_id := pr_topic_id pr;
     pr_device_id := pr_device_id pr; pr_description := pr_description pr;
     pr_prayer_count := pr_prayer_count pr;
     pr_active_prayers := Z.max (pr_active_prayers pr - 1) 0;
     pr_created_at := pr_created_at pr; pr_expires_at := pr_expires_at pr |}.

(** [SET completed_at = NOW()]. *)
Definition set_completed_at (now : Z) (dp : device_prayer) : device_prayer :=
  {| dp_id := dp_id dp; dp_device_id := dp_device_id dp;
     dp_prayer_request_id := dp_prayer_request_id dp;
     dp_joined_at := dp_joined_at dp; dp_completed_at := Some now |}.

(** [WHERE id = $1]. *)
Definition where_id (id : Z) (pr : prayer_request) : bool := pr_id pr =? id.

(** [WHERE id = $1 AND expires_at > NOW()]. *)
Definition where_id_active (now id : Z) (pr : prayer_request) : bool :=
  (pr_id pr =? id) && (now <? pr_expires_at pr).

(** A text parameter compared with a column: a NULL parameter equals nothing. *)
Definition text_eq (col : string) (param : option string) : bool :=
  match param with
  | Some s => String.eqb col s
  | None => false
  end.

(** [WHERE device_id = $1 AND prayer_request_id = $2]. *)
Definition where_device_request (device_id : option string) (id : Z)
    (dp : device_prayer) : bool :=
  text_eq (dp_device_id dp) device_id && (dp_prayer_request_id dp =? id).

(** [IS NULL]. *)
Definition is_null {A} (v : option A) : bool :=
  match v with
  | None => true
  | Some _ => false
  end.

(** [WHERE device_id = $1 AND prayer_request_id = $2 AND completed_at IS NULL]. *)
Definition where_device_request_open (device_id : option string) (id : Z)
    (dp : device_prayer) : bool :=
  where_device_request device_id id dp && is_null (dp_completed_at dp).

(** The column type INTEGER.  PostgreSQL refuses a parameter that is compared
    with an INTEGER column and lies outside INTEGER, and a new value of an
    INTEGER column that lies beyond it; the statement then changes nothing.
    The values a column of type INTEGER holds are of INTEGER, so a parameter
    that the column holds is taken. *)
Definition int4_min : Z := -2147483648.
Definition int4_max : Z := 2147483647.

Definition int4 (n : Z) : Prop := int4_min <= n <= int4_max.

Definition int4b (n : Z) : bool := (int4_min <=? n) && (n <=? int4_max).

Definition integer_param (v : Z) (column : list Z) : bool :=
  int4b v || existsb (Z.eqb v) column.

(** [prayer_count + 1] or [active_prayers + 1] is beyond INTEGER. *)
Definition at_limit (pr : prayer_request) : bool :=
  (int4_max <=? pr_prayer_count pr) || (int4_max <=? pr_active_prayers pr).

(** The column types TEXT and VARCHAR(n).  A text PostgreSQL takes, as a
    value or as a parameter, has no NUL character; a value of VARCHAR(n) has
    at most [n] characters besides.  A string of at most [n] bytes is one of
    at most [n] characters. *)
Definition text_ok (s : string) : bool :=
  negb (existsb (Ascii.eqb zero) (list_ascii_of_string s)).

Definition varchar (n : nat) (s : string) : bool :=
  (String.length s <=? n)%nat && text_ok s.

Definition text_field (v : option string) : bool :=
  match v with
  | Some s => text_ok s
  | None => true
  end.

Definition varchar_field (n : nat) (v : option string) : bool :=
  match v with
  | Some s => varchar n s
  | None => true
  end.

(** [UPDATE t SET ... WHERE p]: the rows that satisfy [p] are rewritten in
    place. *)
Definition update_where {A} (p : A -> bool) (f : A -> A) (t : list A) : list A :=
  map (fun row => if p row then f row else row) t.

(** [... RETURNING *]: the rewritten rows. *)
Definition returning {A} (p : A -> bool) (f : A -> A) (t : list A) : list A :=
  map f (filter p t).

Definition with_prayer_requests (db : database) (t : list prayer_request) : database :=
  {| prayer_topics := prayer_topics db; prayer_requests := t;
     device_prayers := device_prayers db;
     prayer_requests_id_seq := prayer_requests_id_seq db;
     device_prayers_id_seq := device_prayers_id_seq db |}.

Definition with_device_prayers (db : database) (t : list device_prayer) : database :=
  {| prayer_topics := prayer_topics db; prayer_requests := prayer_requests db;
     device_prayers := t;
     prayer_requests_id_seq := prayer_requests_id_seq db;
     device_prayers_id_seq := device_prayers_id_seq db |}.

(** ** SQL statements *)

(** What a statement gives back: its rows and the database after it, or the
    error the storage engine raises. *)
Inductive sql_result (A : Type) : Type :=
| Rows (rows : A) (db' : database)
| SqlError (message : string).
Arguments Rows {A} rows db'.
Arguments SqlError {A} message.

Definition statement (A : Type) : Type := database -> sql_result A.

(** [SELECT * FROM prayer_requests WHERE id = $1 AND expires_at > NOW()]. *)
Definition select_active_request (now id : Z) : statement (list prayer_request) :=
  fun db => Rows (filter (where_id_active now id) (prayer_requests db)) db.

(** [SELECT * FROM prayer_requests WHERE id = $1]. *)
Definition select_request (id : Z) : statement (list prayer_request) :=
  fun db => Rows (filter (where_id id) (prayer_requests db)) db.

(** [SELECT * FROM device_prayers WHERE device_id = $1 AND prayer_request_id = $2]. *)
Definition select_device_prayer (device_id : option string) (id : Z)
    : statement (list device_prayer) :=
  fun db => Rows (filter (where_device_request device_id id) (device_prayers db)) db.

(** [INSERT INTO device_prayers (device_id, prayer_request_id) VALUES ($1, $2)]:
    [id] from the sequence, [joined_at] by default the current time,
    [completed_at] NULL.  The column is NOT NULL, the pair is UNIQUE and the
    request is a foreign key. *)
Definition insert_device_prayer (now : Z) (device_id : option string) (id : Z)
    : statement unit :=
  fun db =>
    match device_id with
    | None => SqlError "null value in column device_id"
    | Some d =>
        if existsb (where_device_request device_id id) (device_prayers db)
        then SqlError "duplicate key value violates unique constraint"
        else if negb (existsb (where_id id) (prayer_requests db))
        then SqlError "violates foreign key constraint"
        else Rows tt
               {| prayer_topics := prayer_topics db;
                  prayer_requests := prayer_requests db;
                  device_prayers :=
                    device_prayers db ++
                    [{| dp_id := device_prayers_id_seq db; dp_device_id := d;
                        dp_prayer_request_id := id; dp_joined_at := now;
                        dp_completed_at := None |}];
                  prayer_requests_id_seq := prayer_requests_id_seq db;
                  device_prayers_id_seq := device_prayers_id_seq db + 1 |}
    end.

(** [UPDATE prayer_requests SET prayer_count = prayer_count + 1
     WHERE id = $1 RETURNING *]. *)
Definition update_prayer_count (id : Z) : statement (list prayer_request) :=
  fun db =>
    Rows (returning (where_id id) set_prayer_count_incr (prayer_requests db))
         (with_prayer_requests db
            (update_where (where_id id) set_prayer_count_incr (prayer_requests db))).

(** [UPDATE prayer_requests SET active_prayers = active_prayers + 1
     WHERE id = $1 AND expires_at > NOW() RETURNING *]. *)
Definition update_start_praying (now id : Z) : statement (list prayer_request) :=
  fun db =>
    Rows (returning (where_id_active now id) set_active_prayers_incr (prayer_requests db))
         (with_prayer_requests db
            (update_where (where_id_active now id) set_active_prayers_incr
               (prayer_requests db))).

(** [UPDATE prayer_requests SET prayer_count = prayer_count + 1,
     active_prayers = active_prayers + 1
     WHERE id = $1 AND expires_at > NOW() RETURNING *]: refused when [$1] is
    outside INTEGER, and when a row to rewrite has a counter at the limit of
    INTEGER. *)
Definition update_pray (now id : Z) : statement (list prayer_request) :=
  fun db =>
    if negb (integer_param id (map pr_id (prayer_requests db)))
    then SqlError "value out of range for type integer"
    else if existsb (fun pr => where_id_active now id pr && at_limit pr) (prayer_requests db)
    then SqlError "integer out of range"
    else
      Rows (returning (where_id_active now id) set_both_incr (prayer_requests db))
           (with_prayer_requests db
              (update_where (where_id_active now id) set_both_incr (prayer_requests db))).

(** [UPDATE prayer_requests SET active_prayers = GREATEST(active_prayers - 1, 0)
     WHERE id = $1 AND expires_at > NOW() RETURNING *]. *)
Definition update_stop_praying (now id : Z) : statement (list prayer_request) :=
  fun db =>
    Rows (returning (where_id_active now id) set_active_prayers_decr (prayer_requests db))
         (with_prayer_requests db
            (update_where (where_id_active now id) set_active_prayers_decr
               (prayer_requests db))).

(** [UPDATE device_prayers SET completed_at = NOW()
     WHERE device_id = $1 AND prayer_request_id = $2 AND completed_at IS NULL
     RETURNING *]: refused when [$2] is outside INTEGER. *)
Definition update_completed_at (now : Z) (device_id : option string) (id : Z)
    : statement (list device_prayer) :=
  fun db =>
    if negb (integer_param id (map dp_prayer_request_id (device_prayers db)))
    then SqlError "value out of range for type integer"
    else
      Rows (returning (where_device_request_open device_id id) (set_completed_at now)
              (device_prayers db))
           (with_device_prayers db
              (update_where (where_device_request_open device_id id)
                 (set_completed_at now) (device_prayers db))).

(** [UPDATE prayer_requests SET active_prayers = GREATEST(active_prayers - 1, 0)
     WHERE id = $1]. *)
Definition update_active_prayers_decr (id : Z) : statement unit :=
  fun db =>
    Rows tt
         (with_prayer_requests db
            (update_where (where_id id) set_active_prayers_decr (prayer_requests db))).

(** [FROM prayer_requests pr LEFT JOIN device_prayers dp
     ON pr.id = dp.prayer_request_id]: one joined row per matching link, and
    one row with a NULL link for a request without links. *)
Definition left_join_device_prayers (db : database)
    : list (prayer_request * option device_prayer) :=
  flat_map
    (fun pr =>
       match filter (fun dp => pr_id pr =? dp_prayer_request_id dp) (device_prayers db) with
       | [] => [(pr, None)]
       | dps => map (fun dp => (pr, Some dp)) dps
       end)
    (prayer_requests db).

(** [SUM(e)] under [COALESCE(..., 0)]. *)
Definition sum_of {A} (e : A -> Z) (rows : list A) : Z :=
  fold_right (fun row acc => e row + acc) 0 rows.

(** [COUNT(CASE WHEN c THEN 1 END)]. *)
Definition count_when {A} (c : A -> bool) (rows : list A) : Z :=
  Z.of_nat (List.length (filter c rows)).

(** [dp.completed_at IS NOT NULL], on a joined row. *)
Definition completed_at_not_null (row : prayer_request * option device_prayer) : bool :=
  match snd row with
  | Some dp => negb (is_null (dp_completed_at dp))
  | None => false
  end.

Record stats_row := {
  total_prayers : Z;
  active_prayers : Z;
  completed_prayers : Z
}.

(** The statistics query:
    [SELECT COALESCE(SUM(prayer_count), 0) as total_prayers,
            COALESCE(SUM(active_prayers), 0) as active_prayers,
            COALESCE(COUNT(CASE WHEN dp.completed_at IS NOT NULL THEN 1 END), 0)
              as completed_prayers
     FROM prayer_requests pr
     LEFT JOIN device_prayers dp ON pr.id = dp.prayer_request_id
     WHERE pr.expires_at > NOW()]. *)
Definition select_stats (now : Z) : statement (list stats_row) :=
  fun db =>
    let joined :=
      filter (fun row => now <? pr_expires_at (fst row)) (left_join_device_prayers db) in
    Rows [{| total_prayers := sum_of (fun row => pr_prayer_count (fst row)) joined;
             active_prayers := sum_of (fun row => pr_active_prayers (fst row)) joined;
             completed_prayers := count_when completed_at_not_null joined |}]
         db.

(** [DELETE FROM prayer_requests WHERE expires_at <= NOW()], with the cascade
    onto [device_prayers]; the result is [rowCount]. *)
Definition delete_expired (now : Z) : statement Z :=
  fun db =>
    let expired := filter (fun pr => pr_expires_at pr <=? now) (prayer_requests db) in
    Rows (Z.of_nat (List.length expired))
         {| prayer_topics := prayer_topics db;
            prayer_requests :=
              filter (fun pr => negb (pr_expires_at pr <=? now)) (prayer_requests db);
            device_prayers :=
              filter (fun dp =>
                        negb (existsb (fun pr => pr_id pr =? dp_prayer_request_id dp) expired))
                     (device_prayers db);
            prayer_requests_id_seq := prayer_requests_id_seq db;
            device_prayers_id_seq := device_prayers_id_seq db |}.

(** [UPDATE prayer_requests SET active_prayers = 0 RETURNING *]. *)
Definition set_active_prayers_zero (pr : prayer_request) : prayer_request :=
  {| pr_id := pr_id pr; pr_topic_id := pr_topic_id pr;
     pr_device_id := pr_device_id pr; pr_description := pr_description pr;
     pr_prayer_count := pr_prayer_count pr;
     pr_active_prayers := 0;
     pr_created_at := pr_created_at pr; pr_expires_at := pr_expires_at pr |}.

Definition update_reset_active_prayers : statement (list prayer_request) :=
  fun db =>
    Rows (map set_active_prayers_zero (prayer_requests db))
         (with_prayer_requests db (map set_active_prayers_zero (prayer_requests db))).

(** [INTERVAL '24 hours'], in seconds. *)
Definition interval_24_hours : Z := 86400.

(** [INSERT INTO prayer_requests (topic_id, device_id, description, created_at,
     expires_at) VALUES ($1, $2, $3, NOW(), NOW() + INTERVAL '24 hours')
     RETURNING *]: [id] from the sequence, both counters 0 by default;
    [topic_id] is NOT NULL and a foreign key. *)
Definition insert_prayer_request (now : Z) (topic_id : option Z)
    (device_id description : option string) : statement (list prayer_request) :=
  fun db =>
    match topic_id with
    | None => SqlError "null value in column topic_id"
    | Some t =>
        if negb (existsb (fun pt => pt_id pt =? t) (prayer_topics db))
        then SqlError "violates foreign key constraint"
        else
          let row :=
            {| pr_id := prayer_requests_id_seq db; pr_topic_id := t;
               pr_device_id := device_id; pr_description := description;
               pr_prayer_count := 0; pr_active_prayers := 0;
               pr_created_at := now; pr_expires_at := now + interval_24_hours |} in
          Rows [row]
               {| prayer_topics := prayer_topics db;
                  prayer_requests := prayer_requests db ++ [row];
                  device_prayers := device_prayers db;
                  prayer_requests_id_seq := prayer_requests_id_seq db + 1;
                  device_prayers_id_seq := device_prayers_id_seq db |}
    end.

(** *** The topic query *)

(** A row of the topic query: the topic's columns and [main_category]. *)
Record topic_row := {
  id : Z;
  title : string;
  category : string;
  parent_id : option Z;
  main_category : option string
}.

(** [... pt LEFT JOIN prayer_topics p ON pt.parent_id = p.id] with
    [CASE WHEN pt.parent_id IS NULL THEN pt.title ELSE p.title END
    as main_category]: the value of [main_category] on each joined row of
    [pt]. *)
Definition main_category_of (topics : list prayer_topic) (pt : prayer_topic)
    : list (option string) :=
  match pt_parent_id pt with
  | None => [Some (pt_title pt)]
  | Some parent =>
      match filter (fun p => pt_id p =? parent) topics with
      | [] => [None]
      | ps => map (fun p => Some (pt_title p)) ps
      end
  end.

(** [FROM prayer_topics pt LEFT JOIN prayer_topics p ON pt.parent_id = p.id]:
    the rows of the topic query for [pt]. *)
Definition left_join_parent (topics : list prayer_topic) (pt : prayer_topic)
    : list topic_row :=
  map (fun mc =>
         {| id := pt_id pt; title := pt_title pt; category := pt_category pt;
            parent_id := pt_parent_id pt; main_category := mc |})
      (main_category_of topics pt).

(** The three ORDER BY keys:
    [CASE WHEN pt.parent_id IS NULL THEN pt.id ELSE pt.parent_id END],
    [pt.parent_id IS NULL DESC] (true first), [pt.id]. *)
Definition order_key (topic : topic_row) : Z * Z * Z :=
  match parent_id topic with
  | None => (id topic, 0, id topic)
  | Some parent => (parent, 1, id topic)
  end.

Definition key_leb (a b : Z * Z * Z) : bool :=
  let '(a1, a2, a3) := a in
  let '(b1, b2, b3) := b in
  (a1 <? b1) || ((a1 =? b1) && ((a2 <? b2) || ((a2 =? b2) && (a3 <=? b3)))).

Definition order_leb (a b : topic_row) : bool := key_leb (order_key a) (order_key b).

(** ORDER BY as a stable insertion sort. *)
Fixpoint insert_by {A} (leb : A -> A -> bool) (x : A) (l : list A) : list A :=
  match l with
  | [] => [x]
  | y :: l' => if leb x y then x :: l else y :: insert_by leb x l'
  end.

Definition order_by {A} (leb : A -> A -> bool) (l : list A) : list A :=
  fold_right (insert_by leb) [] l.

Definition select_topics : statement (list topic_row) :=
  fun db =>
    Rows (order_by order_leb
            (flat_map (left_join_parent (prayer_topics db)) (prayer_topics db)))
         db.

(** *** The listing queries *)

(** A row of the active-requests query. *)
Record active_request_row := {
  ar_id : Z;
  ar_topic_id : Z;
  ar_device_id : option string;
  ar_description : option string;
  ar_prayer_count : Z;
  ar_active_prayers : Z;
  ar_created_at : Z;
  ar_expires_at : Z;
  ar_topic_title : string;
  ar_category : string;
  ar_main_category : option string
}.

(** [FROM prayer_requests pr JOIN prayer_topics pt ON pr.topic_id = pt.id
     LEFT JOIN prayer_topics p ON pt.parent_id = p.id
     WHERE pr.expires_at > NOW() ORDER BY pr.created_at DESC]. *)
Definition select_active_requests (now : Z) : statement (list active_request_row) :=
  fun db =>
    Rows (order_by (fun a b => ar_created_at b <=? ar_created_at a)
            (flat_map
               (fun pr =>
                  flat_map
                    (fun pt =>
                       map (fun mc =>
                              {| ar_id := pr_id pr; ar_topic_id := pr_topic_id pr;
                                 ar_device_id := pr_device_id pr;
                                 ar_description := pr_description pr;
                                 ar_prayer_count := pr_prayer_count pr;
                                 ar_active_prayers := pr_active_prayers pr;
                                 ar_created_at := pr_created_at pr;
                                 ar_expires_at := pr_expires_at pr;
                                 ar_topic_title := pt_title pt;
                                 ar_category := pt_category pt;
                                 ar_main_category := mc |})
                           (main_category_of (prayer_topics db) pt))
                    (filter (fun pt => pr_topic_id pr =? pt_id pt) (prayer_topics db)))
               (filter (fun pr => now <? pr_expires_at pr) (prayer_requests db))))
         db.

(** A row of the query for one device. *)
Record device_prayer_row := {
  dr_id : Z;
  dr_topic_id : Z;
  dr_description : option string;
  dr_prayer_count : Z;
  dr_active_prayers : Z;
  dr_created_at : Z;
  dr_expires_at : Z;
  dr_topic_title : string;
  dr_category : string;
  dr_main_category : option string;
  dr_joined_at : Z;
  dr_completed_at : option Z
}.

(** [FROM device_prayers dp JOIN prayer_requests pr ON dp.prayer_request_id = pr.id
     JOIN prayer_topics pt ON pr.topic_id = pt.id
     LEFT JOIN prayer_topics p ON pt.parent_id = p.id
     WHERE dp.device_id = $1 AND pr.expires_at > NOW()
     ORDER BY dp.joined_at DESC]. *)
Definition select_device_prayers (now : Z) (deviceId : string)
    : statement (list device_prayer_row) :=
  fun db =>
    Rows (order_by (fun a b => dr_joined_at b <=? dr_joined_at a)
            (flat_map
               (fun dp =>
                  flat_map
                    (fun pr =>
                       flat_map
                         (fun pt =>
                            map (fun mc =>
                                   {| dr_id := pr_id pr; dr_topic_id := pr_topic_id pr;
                                      dr_description := pr_description pr;
                                      dr_prayer_count := pr_prayer_count pr;
                                      dr_active_prayers := pr_active_prayers pr;
                                      dr_created_at := pr_created_at pr;
                                      dr_expires_at := pr_expires_at pr;
                                      dr_topic_title := pt_title pt;
                                      dr_category := pt_category pt;
                                      dr_main_category := mc;
                                      dr_joined_at := dp_joined_at dp;
                                      dr_completed_at := dp_completed_at dp |})
                                (main_category_of (prayer_topics db) pt))
                         (filter (fun pt => pr_topic_id pr =? pt_id pt) (prayer_topics db)))
                    (filter (fun pr => (dp_prayer_request_id dp =? pr_id pr) &&
                                       (now <? pr_expires_at pr))
                            (prayer_requests db)))
               (filter (fun dp => String.eqb (dp_device_id dp) deviceId) (device_prayers db))))
         db.

(** ** The pool, exceptions and the console *)

(** A JavaScript completion: a value, or a thrown exception. *)
Inductive completion (A : Type) : Type :=
| Normal (value : A)
| Throw (message : string).
Arguments Normal {A} value.
Arguments Throw {A} message.

(** The state a handler runs in: the database behind the pool, the faults of
    the connection (one flag per coming [pool.query], [true] when that call
    rejects before the statement runs; no flag left means no fault), and the
    lines written with [console.error]. *)
Record world := {
  db : database;
  faults : list bool;
  console : list string
}.

Definition task (A : Type) : Type := world -> completion A * world.

Definition ret {A} (a : A) : task A := fun w => (Normal a, w).

Definition bind {A B} (m : task A) (k : A -> task B) : task B :=
  fun w =>
    match m w with
    | (Normal a, w') => k a w'
    | (Throw e, w') => (Throw e, w')
    end.

Declare Scope task_scope.
Delimit Scope task_scope with task.
Notation "x <- m ;; k" := (bind m (fun x => k))
  (at level 100, m at next level, right associativity) : task_scope.
Open Scope task_scope.

(** [await pool.query(...)]. *)
Definition pool_query {A} (q : statement A) : task A :=
  fun w =>
    let run fs :=
      match q (db w) with
      | Rows rows db' => (Normal rows, {| db := db'; faults := fs; console := console w |})
      | SqlError e => (Throw e, {| db := db w; faults := fs; console := console w |})
      end in
    match faults w with
    | true :: fs =>
        (Throw "connection terminated unexpectedly",
         {| db := db w; faults := fs; console := console w |})
    | false :: fs => run fs
    | [] => run []
    end.

(** A synchronous computation that may throw. *)
Definition lift {A} (c : completion A) : task A := fun w => (c, w).

(** [console.error(line, err)]. *)
Definition console_error (line : string) : world -> world :=
  fun w => {| db := db w; faults := faults w; console := console w ++ [line] |}.

(** ** Responses *)

(** A subcategory entry [{ id, title }] and a group
    [{ id, title, subcategories }] of the topic catalog. *)
Record subcategory := {
  sub_id : Z;
  sub_title : string
}.

Record category_group := {
  group_id : Z;
  group_title : option string;
  subcategories : list subcategory
}.

(** The JSON bodies the handlers send. *)
Inductive json : Type :=
| JsonError (error : string)
| JsonMessage (message : string)
| JsonRequest (row : prayer_request)
| JsonStats (row : stats_row)
| JsonTopics (groups : list category_group)
| JsonRequests (rows : list active_request_row)
| JsonDevicePrayers (rows : list device_prayer_row)
| JsonCleanedUp (rowCount : Z)
| JsonReset (updated_count : Z)
| JsonUndefined.

Record response := {
  status : Z;
  body : json
}.

(** [res.json(x)] answers with status 200. *)
Definition res_json (b : json) : response := {| status := 200; body := b |}.

(** [res.status(n).json(x)]. *)
Definition res_status_json (n : Z) (b : json) : response := {| status := n; body := b |}.

(** [result.rows[0]] of a query over [prayer_requests], as a body. *)
Definition rows_0 (rows : list prayer_request) : json :=
  match rows with
  | row :: _ => JsonRequest row
  | [] => JsonUndefined
  end.

Definition stats_rows_0 (rows : list stats_row) : json :=
  match rows with
  | row :: _ => JsonStats row
  | [] => JsonUndefined
  end.

(** [result.rows.length === 0]. *)
Definition no_rows {A} (rows : list A) : bool :=
  match rows with
  | [] => true
  | _ :: _ => false
  end.

Definition handler : Type := world -> response * world.

(** [try { body } catch (err) { console.error(line, err); res.status(500)... }]. *)
Definition try_catch (body : task response) (line : string) (failure : json) : handler :=
  fun w =>
    match body w with
    | (Normal r, w') => (r, w')
    | (Throw err, w') =>
        (res_status_json 500 failure, console_error (line ++ " " ++ err) w')
    end.

Definition internal_server_error : json := JsonError "Internal server error".

(** [!device_id]: the field is absent, or the empty string. *)
Definition falsy (device_id : option string) : bool :=
  match device_id with
  | None => true
  | Some s => String.eqb s ""
  end.

(** ** The participation handlers *)

(** [POST /api/prayer-requests/:id/join]. *)
Definition post_join (now id : Z) (device_id : option string) : handler :=
  if falsy device_id
  then fun w => (res_status_json 400 (JsonError "Device ID is required"), w)
  else
    try_catch
      (prayerResult <- pool_query (select_active_request now id) ;;
       if no_rows prayerResult
       then ret (res_status_json 404 (JsonError "Prayer request not found or expired"))
       else
         existingJoin <- pool_query (select_device_prayer device_id id) ;;
         if no_rows existingJoin
         then
           _ <- pool_query (insert_device_prayer now device_id id) ;;
           result <- pool_query (update_prayer_count id) ;;
           ret (res_json (rows_0 result))
         else
           result <- pool_query (select_request id) ;;
           ret (res_json (rows_0 result)))
      "Error joining prayer:" internal_server_error.

(** [POST /api/prayer-requests/:id/start-praying]. *)
Definition post_start_praying (now id : Z) (device_id : option string) : handler :=
  if falsy device_id
  then fun w => (res_status_json 400 (JsonError "Device ID is required"), w)
  else
    try_catch
      (result <- pool_query (update_start_praying now id) ;;
       if no_rows result
       then ret (res_status_json 404 (JsonError "Prayer request not found or expired"))
       else ret (res_json (rows_0 result)))
      "Error starting active prayer:" internal_server_error.

(** [POST /api/prayer-requests/:id/pray], the legacy endpoint. *)
Definition post_pray (now id : Z) : handler :=
  try_catch
    (result <- pool_query (update_pray now id) ;;
     if no_rows result
     then ret (res_status_json 404 (JsonError "Prayer request not found or expired"))
     else ret (res_json (rows_0 result)))
    "Error updating prayer count:" internal_server_error.

(** [POST /api/prayer-requests/:id/stop-praying]. *)
Definition post_stop_praying (now id : Z) (device_id : option string) : handler :=
  if falsy device_id
  then fun w => (res_status_json 400 (JsonError "Device ID is required"), w)
  else
    try_catch
      (result <- pool_query (update_stop_praying now id) ;;
       if no_rows result
       then ret (res_status_json 404 (JsonError "Prayer request not found or expired"))
       else ret (res_json (rows_0 result)))
      "Error stopping active prayer:" internal_server_error.

(** [POST /api/prayer-requests/:id/complete]. *)
Definition post_complete (now id : Z) (device_id : option string) : handler :=
  if falsy device_id
  then fun w => (res_status_json 400 (JsonError "Device ID is required"), w)
  else
    try_catch
      (devicePrayerResult <- pool_query (update_completed_at now device_id id) ;;
       if no_rows devicePrayerResult
       then ret (res_status_json 404
                   (JsonError "Prayer not found for this device or already completed"))
       else
         _ <- pool_query (update_active_prayers_decr id) ;;
         ret (res_json (JsonMessage "Prayer completed successfully")))
      "Error completing prayer:" internal_server_error.

(** [DELETE /api/prayer-requests/:id/complete], the legacy endpoint. *)
Definition delete_complete (now id : Z) : handler :=
  try_catch
    (result <- pool_query (update_stop_praying now id) ;;
     if no_rows result
     then ret (res_status_json 404 (JsonError "Prayer request not found or expired"))
     else ret (res_json (JsonMessage "Prayer completed successfully")))
    "Error completing prayer:" internal_server_error.

(** [GET /api/stats]. *)
Definition get_stats (now : Z) : handler :=
  try_catch
    (result <- pool_query (select_stats now) ;;
     ret (res_json (stats_rows_0 result)))
    "Error fetching prayer stats:"
    (JsonStats {| total_prayers := 0; active_prayers := 0; completed_prayers := 0 |}).

(** [DELETE /api/cleanup-expired]; the message carries [result.rowCount]. *)
Definition delete_cleanup_expired (now : Z) : handler :=
  try_catch
    (result <- pool_query (delete_expired now) ;;
     ret (res_json (JsonCleanedUp result)))
    "Error cleaning up expired requests:" internal_server_error.

(** A nullable integer in a boolean position: NULL and 0 are falsy. *)
Definition truthy (n : option Z) : bool :=
  match n with
  | Some v => negb (v =? 0)
  | None => false
  end.

(** [POST /api/prayer-requests]; [topic_id] and [topicId] of the body are
    absent or integers. *)
Definition post_prayer_requests (now : Z) (topic_id topicId : option Z)
    (description device_id : option string) : handler :=
  let finalTopicId := if truthy topic_id then topic_id else topicId in
  if negb (truthy finalTopicId)
  then fun w => (res_status_json 400 (JsonError "Topic ID is required"), w)
  else
    try_catch
      (result <- pool_query (insert_prayer_request now finalTopicId device_id description) ;;
       ret (res_status_json 201 (rows_0 result)))
      "Error creating prayer request:" internal_server_error.

(** [GET /api/prayer-requests]. *)
Definition get_prayer_requests (now : Z) : handler :=
  try_catch
    (result <- pool_query (select_active_requests now) ;;
     ret (res_json (JsonRequests result)))
    "Error fetching prayer requests:" internal_server_error.

(** [GET /api/device/:deviceId/prayers]. *)
Definition get_device_prayers (now : Z) (deviceId : string) : handler :=
  try_catch
    (result <- pool_query (select_device_prayers now deviceId) ;;
     ret (res_json (JsonDevicePrayers result)))
    "Error fetching device prayers:" internal_server_error.

(** [POST /api/reset-active-prayers]; the body carries [result.rows.length]. *)
Definition post_reset_active_prayers : handler :=
  try_catch
    (result <- pool_query update_reset_active_prayers ;;
     ret (res_json (JsonReset (Z.of_nat (List.length result)))))
    "Error resetting active prayers:" internal_server_error.

(** ** The topic catalog *)

(** A JavaScript object used as a map from strings: its own properties in
    the order of their creation.  A lookup also sees the properties every
    object inherits from [Object.prototype]. *)
Definition object (V : Type) : Type := list (string * V).

Definition object_prototype : list string :=
  ["constructor"; "hasOwnProperty"; "isPrototypeOf"; "propertyIsEnumerable";
   "toLocaleString"; "toString"; "valueOf"; "__proto__";
   "__defineGetter__"; "__defineSetter__"; "__lookupGetter__"; "__lookupSetter__"]%string.

Definition inherited (key : string) : bool := existsb (String.eqb key) object_prototype.

Fixpoint own {V} (o : object V) (key : string) : option V :=
  match o with
  | [] => None
  | (k, v) :: o' => if String.eqb k key then Some v else own o' key
  end.

(** [o[key] = v]: an existing property keeps its place. *)
Fixpoint assign {V} (o : object V) (key : string) (v : V) : object V :=
  match o with
  | [] => [(key, v)]
  | (k, x) :: o' =>
      if String.eqb k key then (k, v) :: o' else (k, x) :: assign o' key v
  end.

(** The value of a string of decimal digits. *)
Fixpoint digits (s : string) (acc : Z) : option Z :=
  match s with
  | EmptyString => Some acc
  | String c s' =>
      let n := Z.of_nat (nat_of_ascii c) in
      if (48 <=? n) && (n <=? 57) then digits s' (10 * acc + (n - 48)) else None
  end.

(** An array index is the canonical decimal form of an integer between 0 and
    2^32 - 2. *)
Definition array_index (key : string) : option Z :=
  match key with
  | EmptyString => None
  | String c rest =>
      if Ascii.eqb c "0"%char
      then match rest with
           | EmptyString => Some 0
           | String _ _ => None
           end
      else match digits key 0 with
           | Some n => if n <=? 4294967294 then Some n else None
           | None => None
           end
  end.

(** [Object.values(o)]: the array-index keys in ascending numeric order, then
    the other keys in the order of their creation. *)
Definition object_values {V} (o : object V) : list V :=
  map snd
    (order_by (fun a b => fst a <=? fst b)
       (flat_map (fun kv => match array_index (fst kv) with
                            | Some i => [(i, snd kv)]
                            | None => []
                            end) o))
  ++ map snd (filter (fun kv => is_null (array_index (fst kv))) o).

(** A property key made of [main_category]: [null] becomes the key "null". *)
Definition property_key (mainCat : option string) : string :=
  match mainCat with
  | Some s => s
  | None => "null"
  end.

(** [topic.parent_id || topic.id]. *)
Definition parent_id_or_id (topic : topic_row) : Z :=
  match parent_id topic with
  | Some p => if p =? 0 then id topic else p
  | None => id topic
  end.

(** The body of [result.rows.forEach(topic => { ... })]. *)
Definition group_topic (categorized : object category_group) (topic : topic_row)
    : completion (object category_group) :=
  let mainCat := main_category topic in
  let key := property_key mainCat in
  let categorized :=
    match own categorized key with
    | Some _ => categorized
    | None =>
        if inherited key then categorized
        else assign categorized key
               {| group_id := parent_id_or_id topic; group_title := mainCat;
                  subcategories := [] |}
    end in
  if truthy (parent_id topic)
  then match own categorized key with
       | Some g =>
           Normal (assign categorized key
                     {| group_id := group_id g; group_title := group_title g;
                        subcategories :=
                          subcategories g ++
                          [{| sub_id := id topic; sub_title := title topic |}] |})
       | None => Throw "TypeError: Cannot read properties of undefined (reading 'push')"
       end
  else Normal categorized.

Fixpoint forEach {A S} (f : S -> A -> completion S) (rows : list A) (s : S)
    : completion S :=
  match rows with
  | [] => Normal s
  | row :: rest =>
      match f s row with
      | Normal s' => forEach f rest s'
      | Throw e => Throw e
      end
  end.

(** [GET /api/prayer-topics]. *)
Definition get_prayer_topics : handler :=
  try_catch
    (result <- pool_query select_topics ;;
     categorized <- lift (forEach group_topic result []) ;;
     ret (res_json (JsonTopics (object_values categorized))))
    "Error fetching prayer topics:" internal_server_error.

(** ** Runs *)

(** The calls a client can make on the participation store. *)
Inductive call : Type :=
| Join (id : Z) (device_id : option string)
| StartPraying (id : Z) (device_id : option string)
| StopPraying (id : Z) (device_id : option string)
| Pray (id : Z)
| Complete (id : Z) (device_id : option string).

Definition serve (now : Z) (c : call) : handler :=
  match c with
  | Join id device_id => post_join now id device_id
  | StartPraying id device_id => post_start_praying now id device_id
  | StopPraying id device_id => post_stop_praying now id device_id
  | Pray id => post_pray now id
  | Complete id device_id => post_complete now id device_id
  end.

(** A run serves timed calls one after the other. *)
Fixpoint run (calls : list (Z * call)) (w : world) : world :=
  match calls with
  | [] => w
  | (now, c) :: rest => run rest (snd (serve now c w))
  end.

Definition is_pray (c : call) : bool :=
  match c with
  | Pray _ => true
  | _ => false
  end.

(** A world whose pool has no fault ahead. *)
Definition healthy (d : database) : world := {| db := d; faults := []; console := [] |}.

(** ** Specification vocabulary *)

(** The request a client means by an id: the first row with it (the primary
    key makes it the only one). *)
Definition find_request (id : Z) (d : database) : option prayer_request :=
  find (where_id id) (prayer_requests d).

(** [count(DevicePrayerLink where request_id = id)]. *)
Definition count_links (id : Z) (d : database) : Z :=
  Z.of_nat (List.length (filter (fun dp => dp_prayer_request_id dp =? id) (device_prayers d))).

(** The counting invariant of the store. *)
Definition counts_links (d : database) : Prop :=
  Forall (fun pr => pr_prayer_count pr = count_links (pr_id pr) d) (prayer_requests d).

(** Every link references a stored request. *)
Definition foreign_keys_hold (d : database) : Prop :=
  Forall (fun dp => existsb (where_id (dp_prayer_request_id dp)) (prayer_requests d) = true)
         (device_prayers d).

Definition not_found_or_expired : response :=
  res_status_json 404 (JsonError "Prayer request not found or expired").

Definition not_found_or_completed : response :=
  res_status_json 404 (JsonError "Prayer not found for this device or already completed").

Definition device_id_required : response :=
  res_status_json 400 (JsonError "Device ID is required").

Definition zero_stats : stats_row :=
  {| total_prayers := 0; active_prayers := 0; completed_prayers := 0 |}.

(** The world after a statement ran on a healthy pool. *)
Definition after (w : world) (d : database) : world :=
  {| db := d; faults := []; console := console w |}.

(** The link INSERT writes. *)
Definition new_link (now : Z) (d : string) (id : Z) (db0 : database) : device_prayer :=
  {| dp_id := device_prayers_id_seq db0; dp_device_id := d;
     dp_prayer_request_id := id; dp_joined_at := now; dp_completed_at := None |}.

(** The database after a first join: the link is added and the request counts
    it. *)
Definition joined (now : Z) (d : string) (id : Z) (db0 : database) : database :=
  {| prayer_topics := prayer_topics db0;
     prayer_requests :=
       update_where (where_id id) set_prayer_count_incr (prayer_requests db0);
     device_prayers := device_prayers db0 ++ [new_link now d id db0];
     prayer_requests_id_seq := prayer_requests_id_seq db0;
     device_prayers_id_seq := device_prayers_id_seq db0 + 1 |}.

(** A request before and after: the same request, and a non-negative gauge
    stays non-negative. *)
Definition keeps_non_negative (pr pr' : prayer_request) : Prop :=
  pr_id pr' = pr_id pr /\ (0 <= pr_active_prayers pr -> 0 <= pr_active_prayers pr').

Definition gauge_step (d d' : database) : Prop :=
  Forall2 keeps_non_negative (prayer_requests d) (prayer_requests d').

(** A relation between the database before and after, for a statement that
    runs, for a task and for a handler. *)
Definition statement_steps (R : database -> database -> Prop) {A} (q : statement A) : Prop :=
  forall d rows d', q d = Rows rows d' -> R d d'.

Definition task_steps (R : database -> database -> Prop) {A} (m : task A) : Prop :=
  forall w, R (db w) (db (snd (m w))).

Definition handler_steps (R : database -> database -> Prop) (h : handler) : Prop :=
  forall w, R (db w) (db (snd (h w))).

(** What a task returns when nothing is thrown. *)
Definition task_returns {A} (P : A -> Prop) (m : task A) : Prop :=
  forall w a w', m w = (Normal a, w') -> P a.

Definition topic (i : Z) (t c : string) (p : option Z) : prayer_topic :=
  {| pt_id := i; pt_title := t; pt_category := c; pt_parent_id := p |}.

(** The rows [POST /api/init-database] inserts, in the order of its VALUES. *)
Definition seeded_topics : list prayer_topic :=
  [topic 1 "Job" "main" None;
   topic 16 "I just lost my job" "job" (Some 1);
   topic 17 "I need a job" "job" (Some 1);
   topic 2 "Finances" "main" None;
   topic 18 "Budget Help" "Finances" (Some 2);
   topic 19 "Work - Raise" "Finances" (Some 2);
   topic 3 "Spouse" "main" None;
   topic 4 "Spouse - Infidelity" "spouse" (Some 3);
   topic 5 "Spouse - Divorce" "spouse" (Some 3);
   topic 6 "Spouse - Death" "spouse" (Some 3);
   topic 7 "Children" "main" None;
   topic 8 "Children - Defiance" "children" (Some 7);
   topic 9 "Children - School" "children" (Some 7);
   topic 10 "Health" "main" None;
   topic 11 "Health - Spouse" "health" (Some 10);
   topic 12 "Health - Friend" "health" (Some 10);
   topic 13 "Health - Parent" "health" (Some 10);
   topic 14 "Health - Child" "health" (Some 10);
   topic 20 "Pregnancy" "health" (Some 10);
   topic 15 "Other - God will know" "main" None].

(** A database that holds topics only. *)
Definition with_topics (topics : list prayer_topic) : database :=
  {| prayer_topics := topics; prayer_requests := []; device_prayers := [];
     prayer_requests_id_seq := 1;
     device_prayers_id_seq := 1 |}.

(** The request [POST /api/prayer-requests] inserts at time 0 for topic 16 on
    the seeded database: both counters 0, expiry 24 hours later. *)
Definition fresh_row : prayer_request :=
  {| pr_id := 1; pr_topic_id := 16; pr_device_id := Some "creator"%string;
     pr_description := None; pr_prayer_count := 0; pr_active_prayers := 0;
     pr_created_at := 0; pr_expires_at := 86400 |}.

(** The store with that one live request, nobody joined yet. *)
Definition fresh_request : database :=
  {| prayer_topics := seeded_topics;
     prayer_requests := [fresh_row];
     device_prayers := [];
     prayer_requests_id_seq := 2;
     device_prayers_id_seq := 1 |}.

(** The store after device "A" joined at time 10 and held the button at time
    11: seen from any time after 86400, the request is expired while "A"
    still has an open link to it. *)
Definition expired_with_open_link : database :=
  {| prayer_topics := seeded_topics;
     prayer_requests :=
       [{| pr_id := 1; pr_topic_id := 16; pr_device_id := Some "creator"%string;
           pr_description := None; pr_prayer_count := 1; pr_active_prayers := 1;
           pr_created_at := 0; pr_expires_at := 86400 |}];
     device_prayers :=
       [{| dp_id := 1; dp_device_id := "A"; dp_prayer_request_id := 1;
           dp_joined_at := 10; dp_completed_at := None |}];
     prayer_requests_id_seq := 2;
     device_prayers_id_seq := 2 |}.

(** A live request that was prayed for 2147483647 times on the legacy route,
    and the store with it. *)
Definition counted_out_row : prayer_request :=
  {| pr_id := 1; pr_topic_id := 16; pr_device_id := Some "creator"%string;
     pr_description := None; pr_prayer_count := 2147483647;
     pr_active_prayers := 2147483647; pr_created_at := 0; pr_expires_at := 86400 |}.

Definition counted_out : database :=
  {| prayer_topics := seeded_topics;
     prayer_requests := [counted_out_row];
     device_prayers := [];
     prayer_requests_id_seq := 2;
     device_prayers_id_seq := 1 |}.

(** [active_prayers] of every request with this id can go one down within
    INTEGER: [active_prayers - 1] is computed before GREATEST floors it. *)
Definition gauge_may_drop (id : Z) (d : database) : Prop :=
  Forall (fun pr => pr_id pr = id -> int4_min < pr_active_prayers pr) (prayer_requests d).

(** Both counters of every request with this id can take [n] more within
    INTEGER. *)
Definition pray_room (n : Z) (id : Z) (d : database) : Prop :=
  Forall (fun pr => pr_id pr = id ->
                    pr_prayer_count pr + n <= int4_max /\
                    pr_active_prayers pr + n <= int4_max)
         (prayer_requests d).

(** Consecutive legacy pray calls on one request, one per time in [nows]. *)
Definition pray_calls (id : Z) (nows : list Z) : list (Z * call) :=
  map (fun now => (now, Pray id)) nows.

(** A link that is completed before is there, as it is, after. *)
Definition completion_kept (d d' : database) : Prop :=
  forall dp, In dp (device_prayers d) -> dp_completed_at dp <> None ->
             In dp (device_prayers d').

(** The routes of the participation store and of the topic catalog, other
    than the statistics. *)
Inductive endpoint : Type :=
| Participation (c : call)
| DeleteComplete (id : Z)
| CleanupExpired
| PrayerTopics
| CreateRequest (topic_id topicId : option Z) (description device_id : option string)
| ActiveRequests
| DevicePrayers (deviceId : string)
| ResetActivePrayers.

Definition route (now : Z) (e : endpoint) : handler :=
  match e with
  | Participation c => serve now c
  | DeleteComplete id => delete_complete now id
  | CleanupExpired => delete_cleanup_expired now
  | PrayerTopics => get_prayer_topics
  | CreateRequest topic_id topicId description device_id =>
      post_prayer_requests now topic_id topicId description device_id
  | ActiveRequests => get_prayer_requests now
  | DevicePrayers deviceId => get_device_prayers now deviceId
  | ResetActivePrayers => post_reset_active_prayers
  end.

(** A world whose next query is rejected by the connection. *)
Definition pool_down (d : database) : world :=
  {| db := d; faults := [true]; console := [] |}.

(** The report as the specification words it: over the live requests, the
    sum of [prayer_count], the sum of [active_prayers], and the number of
    their links with [completed_at] set. *)
Definition stats_report (now : Z) (d : database) : stats_row :=
  let live := filter (fun pr => now <? pr_expires_at pr) (prayer_requests d) in
  {| total_prayers := sum_of pr_prayer_count live;
     active_prayers := sum_of pr_active_prayers live;
     completed_prayers :=
       count_when
         (fun dp => negb (is_null (dp_completed_at dp)) &&
                    existsb (fun pr => pr_id pr =? dp_prayer_request_id dp) live)
         (device_prayers d) |}.

(** Two devices join the fresh request and one of them holds the button. *)
Definition two_devices_joined : world :=
  run [(10, Join 1 (Some "A"%string)); (11, Join 1 (Some "B"%string));
       (12, StartPraying 1 (Some "A"%string))]
      (healthy fresh_request).

(** *** The catalog as the specification words it *)

(** A main category is a topic with [parent_id = null]. *)
Definition is_main (pt : prayer_topic) : bool := is_null (pt_parent_id pt).

(** A subcategory of [main]. *)
Definition is_child_of (main pt : prayer_topic) : bool :=
  match pt_parent_id pt with
  | Some p => p =? pt_id main
  | None => false
  end.

Definition by_id (a b : prayer_topic) : bool := pt_id a <=? pt_id b.

Definition subcategory_of_topic (pt : prayer_topic) : subcategory :=
  {| sub_id := pt_id pt; sub_title := pt_title pt |}.

(** The group of a main category: its id, its title, and its subcategories
    (by ascending id). *)
Definition catalog_group (topics : list prayer_topic) (main : prayer_topic)
    : category_group :=
  {| group_id := pt_id main; group_title := Some (pt_title main);
     subcategories :=
       map subcategory_of_topic (order_by by_id (filter (is_child_of main) topics)) |}.

(** One group per main category, by ascending id of the main category. *)
Definition topic_catalog (topics : list prayer_topic) : list category_group :=
  map (catalog_group topics) (order_by by_id (filter is_main topics)).

(** What the grouping by title relies on: ids are unique and not 0 (the
    primary key of a SERIAL column), a parent is a stored main category (the
    foreign key, one level of nesting), and the titles of the main categories
    are pairwise distinct, none of them an array index or a property that
    objects inherit. *)
Record catalog_ok (topics : list prayer_topic) : Prop := {
  ids_unique : NoDup (map pt_id topics);
  ids_not_zero : Forall (fun pt => pt_id pt <> 0) topics;
  parents_are_main :
    Forall (fun pt => forall p, pt_parent_id pt = Some p ->
                      exists main, In main topics /\ pt_id main = p /\
                                   pt_parent_id main = None) topics;
  main_titles_unique : NoDup (map pt_title (filter is_main topics));
  main_titles_plain :
    Forall (fun pt => is_main pt = true ->
                      array_index (pt_title pt) = None /\
                      inherited (pt_title pt) = false) topics
}.

(** Two main categories that share a title. *)
Definition same_title_topics : list prayer_topic :=
  [{| pt_id := 1; pt_title := "Job"; pt_category := "main"; pt_parent_id := None |};
   {| pt_id := 2; pt_title := "Job"; pt_category := "main"; pt_parent_id := None |}].

(** The scenario of the specification. *)
Definition job_topics : list prayer_topic :=
  [{| pt_id := 1; pt_title := "Job"; pt_category := "main"; pt_parent_id := None |};
   {| pt_id := 16; pt_title := "I just lost my job"; pt_category := "job";
      pt_parent_id := Some 1 |}].

(** *** The sorted rows of the topic query, in closed form *)

(** The ORDER BY keys of a topic, and the first of them: the id of its main
    category. *)
Definition topic_key (pt : prayer_topic) : Z * Z * Z :=
  match pt_parent_id pt with
  | None => (pt_id pt, 0, pt_id pt)
  | Some p => (p, 1, pt_id pt)
  end.

Definition group_key (pt : prayer_topic) : Z :=
  match pt_parent_id pt with
  | None => pt_id pt
  | Some p => p
  end.

Definition topic_leb (a b : prayer_topic) : bool := key_leb (topic_key a) (topic_key b).

(** The title of the main category of a topic. *)
Definition main_title (topics : list prayer_topic) (pt : prayer_topic) : option string :=
  match pt_parent_id pt with
  | None => Some (pt_title pt)
  | Some p =>
      match filter (fun m => pt_id m =? p) topics with
      | m :: _ => Some (pt_title m)
      | [] => None
      end
  end.

Definition row_of (topics : list prayer_topic) (pt : prayer_topic) : topic_row :=
  {| id := pt_id pt; title := pt_title pt; category := pt_category pt;
     parent_id := pt_parent_id pt; main_category := main_title topics pt |}.

(** A main category followed by its subcategories. *)
Definition block (topics : list prayer_topic) (main : prayer_topic) : list prayer_topic :=
  main :: order_by by_id (filter (is_child_of main) topics).

Definition sorted_topics (topics : list prayer_topic) : list prayer_topic :=
  flat_map (block topics) (order_by by_id (filter is_main topics)).

(** How often the statistics query sees a request: once per link, and once
    when it has none. *)
Definition fan_out (d : database) (pr : prayer_request) : Z :=
  Z.max 1 (count_links (pr_id pr) d).

(** * Further properties of the server *)

(** ** Room within the column types *)

(** The ids of [n] more links are free and fit INTEGER, and [prayer_count]
    of every request with this id fits it after [n] more joins. *)
Definition join_room (n : Z) (id : Z) (d : database) : Prop :=
  int4 (device_prayers_id_seq d) /\ device_prayers_id_seq d + n <= int4_max + 1 /\
  Forall (fun dp => dp_id dp < device_prayers_id_seq d) (device_prayers d) /\
  Forall (fun pr => pr_id pr = id -> pr_prayer_count pr + n <= int4_max)
         (prayer_requests d).

(** [active_prayers] of every request with this id can go one up and one
    down within INTEGER. *)
Definition gauge_room (id : Z) (d : database) : Prop :=
  Forall (fun pr => pr_id pr = id ->
                    int4_min < pr_active_prayers pr /\ pr_active_prayers pr < int4_max)
         (prayer_requests d).

(** A text of ASCII characters: each is one byte and one UTF-16 code unit, so
    its length here is the [length] JavaScript gives it. *)
Definition plain (s : string) : bool :=
  forallb (fun c => (nat_of_ascii c <? 128)%nat) (list_ascii_of_string s).

(** ** What the participation calls leave alone *)

(** A request before and after a call: every column but the two counters is
    the same, and [prayer_count] did not go down. *)
Definition same_request_counting_up (pr pr' : prayer_request) : Prop :=
  pr_id pr' = pr_id pr /\
  pr_topic_id pr' = pr_topic_id pr /\
  pr_device_id pr' = pr_device_id pr /\
  pr_description pr' = pr_description pr /\
  pr_created_at pr' = pr_created_at pr /\
  pr_expires_at pr' = pr_expires_at pr /\
  pr_prayer_count pr <= pr_prayer_count pr'.

Definition requests_step (d d' : database) : Prop :=
  Forall2 same_request_counting_up (prayer_requests d) (prayer_requests d').

(** The pair a link is UNIQUE on. *)
Definition link_pair (dp : device_prayer) : string * Z :=
  (dp_device_id dp, dp_prayer_request_id dp).

(** [UNIQUE(device_id, prayer_request_id)]. *)
Definition links_unique (d : database) : Prop :=
  NoDup (map link_pair (device_prayers d)).

(** The primary key of [device_prayers], drawn from its sequence. *)
Definition link_ids_fresh (d : database) : Prop :=
  NoDup (map dp_id (device_prayers d)) /\
  Forall (fun dp => dp_id dp < device_prayers_id_seq d) (device_prayers d).

(** The constraints the schema puts on [device_prayers]. *)
Definition constraints_hold (d : database) : Prop :=
  links_unique d /\ foreign_keys_hold d /\ link_ids_fresh d.

(** An invariant as a relation between before and after. *)
Definition keeps (P : database -> Prop) (d d' : database) : Prop := P d -> P d'.

(** ** Joining *)

(** Join calls on one request, one per time and device. *)
Definition join_calls (id : Z) (joins : list (Z * string)) : list (Z * call) :=
  map (fun j => (fst j, Join id (Some (snd j)))) joins.

(** The devices that hold a link to a request. *)
Definition linked_devices (id : Z) (d : database) : list string :=
  map dp_device_id (filter (fun dp => dp_prayer_request_id dp =? id) (device_prayers d)).

(** How many devices of a list are met for the first time, given the ones
    seen before. *)
Fixpoint distinct_new (seen devices : list string) : nat :=
  match devices with
  | [] => 0%nat
  | s :: rest =>
      if existsb (String.eqb s) seen
      then distinct_new seen rest
      else S (distinct_new (s :: seen) rest)
  end.

(** ** Cleanup *)

(** [expires_at <= NOW()] and its contrary. *)
Definition expired (now : Z) (pr : prayer_request) : bool := pr_expires_at pr <=? now.
Definition live (now : Z) (pr : prayer_request) : bool := now <? pr_expires_at pr.

(** The database after the sweep of [DELETE /api/cleanup-expired]. *)
Definition swept (now : Z) (d : database) : database :=
  match delete_expired now d with
  | Rows _ d' => d'
  | SqlError _ => d
  end.

(** The primary key of [prayer_requests]. *)
Definition request_ids_unique (d : database) : Prop := NoDup (map pr_id (prayer_requests d)).

(** ** Creating a request *)

(** [topic_id || topicId]. *)
Definition final_topic_id (topic_id topicId : option Z) : option Z :=
  if truthy topic_id then topic_id else topicId.

(** The row [POST /api/prayer-requests] inserts. *)
Definition created_row (now t : Z) (device_id description : option string)
    (d : database) : prayer_request :=
  {| pr_id := prayer_requests_id_seq d; pr_topic_id := t;
     pr_device_id := device_id; pr_description := description;
     pr_prayer_count := 0; pr_active_prayers := 0;
     pr_created_at := now; pr_expires_at := now + interval_24_hours |}.

(** The database after it. *)
Definition created (now t : Z) (device_id description : option string)
    (d : database) : database :=
  {| prayer_topics := prayer_topics d;
     prayer_requests := prayer_requests d ++ [created_row now t device_id description d];
     device_prayers := device_prayers d;
     prayer_requests_id_seq := prayer_requests_id_seq d + 1;
     device_prayers_id_seq := device_prayers_id_seq d |}.

(** The ids of the stored requests were drawn from the sequence. *)
Definition request_ids_fresh (d : database) : Prop :=
  Forall (fun pr => pr_id pr < prayer_requests_id_seq d) (prayer_requests d).

(** The values of a new request fit their columns, and its id is free. *)
Definition fits_request (t : Z) (device_id description : option string)
    (d : database) : Prop :=
  int4 t /\ varchar_field 255 device_id = true /\ text_field description = true /\
  int4 (prayer_requests_id_seq d) /\ request_ids_fresh d.

(** ** Sessions over all the routes *)

(** The constraints of the schema on the two tables of the store. *)
Definition schema_holds (d : database) : Prop :=
  request_ids_unique d /\ request_ids_fresh d /\ constraints_hold d.

(** The schema together with the counting invariant. *)
Definition store_ok (d : database) : Prop := schema_holds d /\ counts_links d.

(** A session serves timed requests to the routes one after the other. *)
Fixpoint run_routes (requests : list (Z * endpoint)) (w : world) : world :=
  match requests with
  | [] => w
  | (now, e) :: rest => run_routes rest (snd (route now e w))
  end.

(** The legacy pray route. *)
Definition is_legacy_pray (e : endpoint) : bool :=
  match e with
  | Participation c => is_pray c
  | _ => false
  end.

(** ** Listing *)

(** The rows the active-requests query gives. *)
Definition active_rows (now : Z) (d : database) : list active_request_row :=
  match select_active_requests now d with
  | Rows rows _ => rows
  | SqlError _ => []
  end.

(** A listed row shows the columns of a stored request. *)
Definition shows (pr : prayer_request) (row : active_request_row) : Prop :=
  ar_id row = pr_id pr /\ ar_topic_id row = pr_topic_id pr /\
  ar_device_id row = pr_device_id pr /\ ar_description row = pr_description pr /\
  ar_prayer_count row = pr_prayer_count pr /\
  ar_active_prayers row = pr_active_prayers pr /\
  ar_created_at row = pr_created_at pr /\ ar_expires_at row = pr_expires_at pr.

(** [topic_id REFERENCES prayer_topics(id)]. *)
Definition topics_referenced (d : database) : Prop :=
  Forall (fun pr => existsb (fun pt => pt_id pt =? pr_topic_id pr) (prayer_topics d) = true)
         (prayer_requests d).



(** ** Statistics *)

(** [completed_at IS NOT NULL]. *)
Definition is_completed (dp : device_prayer) : bool := negb (is_null (dp_completed_at dp)).

(** ** Logging *)

(** A task that writes nothing on the console. *)
Definition task_quiet {A} (m : task A) : Prop :=
  forall w, console (snd (m w)) = console w.

(** A handler logs exactly its failures: one line with a status 500, none
    otherwise. *)
Definition logs_failures (h : handler) : Prop :=
  forall w,
    (status (fst (h w)) = 500 /\ exists line, console (snd (h w)) = console w ++ [line]) \/
    (status (fst (h w)) <> 500 /\ console (snd (h w)) = console w).

(** ** The object [categorized] *)

(** Every property of [categorized] is filed under the key of its group's
    title, keys are not repeated, and no key is an inherited property. *)
Definition well_keyed (o : object category_group) : Prop :=
  NoDup (map fst o) /\
  Forall (fun kv => fst kv = property_key (group_title (snd kv)) /\
                    inherited (fst kv) = false) o.

(** A row whose push throws: a subcategory whose main category is named like
    an inherited property. *)
Definition unpushable (topic : topic_row) : bool :=
  truthy (parent_id topic) && inherited (property_key (main_category topic)).

(** The rows of the topic query. *)
Definition topic_rows (d : database) : list topic_row :=
  match select_topics d with
  | Rows rows _ => rows
  | SqlError _ => []
  end.

(** * Devices and push notifications *)

(** The second half of [server.js] keeps the table [devices] and hands push
    messages to Firebase.  The state of the whole server adds that table, the
    Firebase client and the messages handed to it to the store.  Request
    fields that are strings in the source are absent or strings; the lines of
    [console.error] are recorded, those of [console.log] and [console.warn]
    are not. *)

From Stdlib Require Import DecimalString.

(** [devices (id, device_id, push_token, platform, last_active, created_at)],
    [device_id UNIQUE NOT NULL], [platform NOT NULL]. *)
Record device := {
  dev_id : Z;
  dev_device_id : string;
  dev_push_token : option string;
  dev_platform : string;
  dev_last_active : Z;
  dev_created_at : Z
}.

(** A value of the [data] of a message: a string, or the ISO string of a
    time. *)
Inductive data_value : Type :=
| Text (s : string)
| Time (t : Z).

(** The message [sendPushNotification] builds: [token], [notification.title],
    [notification.body], the fields of [data], and [data.timestamp]. *)
Record push_message := {
  pm_token : string;
  pm_title : string;
  pm_body : string;
  pm_data : list (string * data_value);
  pm_timestamp : Z
}.

(** All the tables behind the pool. *)
Record tables := {
  base : database;
  devices : list device;
  devices_id_seq : Z
}.

(** The server: the tables, the faults of the pool and the console as in
    [world], [firebaseAdmin] ([None] when the SDK was not initialised; else
    what [messaging().send] does with a message: [true] when it resolves,
    [false] when it rejects), and the messages handed to [send] so far. *)
Record server := {
  tables_of : tables;
  pending : list bool;
  errors : list string;
  firebaseAdmin : option (push_message -> bool);
  outbox : list push_message
}.

Inductive query_result (A : Type) : Type :=
| Found (rows : A) (t : tables)
| Failed (message : string).
Arguments Found {A} rows t.
Arguments Failed {A} message.

Definition query (A : Type) : Type := tables -> query_result A.

Definition job (A : Type) : Type := server -> completion A * server.

Definition jret {A} (a : A) : job A := fun s => (Normal a, s).

Definition jbind {A B} (m : job A) (k : A -> job B) : job B :=
  fun s =>
    match m s with
    | (Normal a, s') => k a s'
    | (Throw e, s') => (Throw e, s')
    end.

Declare Scope job_scope.
Delimit Scope job_scope with job.
Notation "x <- m ;; k" := (jbind m (fun x => k))
  (at level 100, m at next level, right associativity) : job_scope.

Definition with_tables (s : server) (t : tables) (fs : list bool) : server :=
  {| tables_of := t; pending := fs; errors := errors s;
     firebaseAdmin := firebaseAdmin s; outbox := outbox s |}.

(** [await pool.query(...)] on the whole set of tables. *)
Definition pool_query_all {A} (q : query A) : job A :=
  fun s =>
    let run fs :=
      match q (tables_of s) with
      | Found rows t => (Normal rows, with_tables s t fs)
      | Failed e => (Throw e, with_tables s (tables_of s) fs)
      end in
    match pending s with
    | true :: fs =>
        (Throw "connection terminated unexpectedly", with_tables s (tables_of s) fs)
    | false :: fs => run fs
    | [] => run []
    end.

(** The responses of these routes. *)
Record device_summary := {
  ds_device_id : string;
  ds_platform : string;
  ds_last_active : Z;
  ds_created_at : Z;
  ds_has_push_token : string
}.

Record activity_row := {
  act_prayer_id : Z;
  act_description : option string;
  act_topic_title : string;
  act_joined_at : Z;
  act_completed_at : option Z
}.

Record device_info := {
  di_device_id : string;
  di_registered : bool;
  di_registration_info : option device;
  di_total_joined_prayers : Z;
  di_completed_prayers : Z;
  di_currently_active_prayers : Z;
  di_recent_activity : list activity_row;
  di_push_notification_ready : bool;
  di_firebase_admin_available : bool
}.

Inductive notify_json : Type :=
| NError (error : string)
| NRegistered (device : option device)
| NBroadcast (message : string) (devices_notified successful_notifications : Z)
| NSkipped (message : string)
| NSent (success : bool) (message : string)
| NTest (success : bool) (message device_id platform title body : string)
        (data : list (string * data_value))
| NDevices (rows : list device_summary)
| NDeviceInfo (info : device_info).

Record notify_response := {
  n_status : Z;
  n_body : notify_json
}.

Definition route_handler : Type := server -> notify_response * server.

Definition answer (n : Z) (b : notify_json) : notify_response :=
  {| n_status := n; n_body := b |}.

(** [try { body } catch (err) { console.error(line, err); res.status(500)... }]. *)
Definition job_try_catch (body : job notify_response) (line : string) : route_handler :=
  fun s =>
    match body s with
    | (Normal r, s') => (r, s')
    | (Throw err, s') =>
        (answer 500 (NError "Internal server error"),
         {| tables_of := tables_of s'; pending := pending s';
            errors := errors s' ++ [(line ++ " " ++ err)%string];
            firebaseAdmin := firebaseAdmin s'; outbox := outbox s' |})
    end.

(** A string in a boolean position: absent and empty are falsy. *)
Definition truthy_string (v : option string) : bool := negb (falsy v).

Definition with_devices (t : tables) (ds : list device) (seq : Z) : tables :=
  {| base := base t; devices := ds; devices_id_seq := seq |}.

(** ** Registration *)

(** [INSERT INTO devices (device_id, push_token, platform, last_active)
     VALUES ($1, $2, $3, NOW())
     ON CONFLICT (device_id) DO UPDATE SET push_token = $2, platform = $3,
       last_active = NOW()
     RETURNING *]; the sequence advances on a conflict too.  The rewritten
    row is a new version of the row: a later scan of the table gives it after
    the rows that were not touched. *)
Definition upsert_device (now : Z) (device_id : option string) (push_token : option string)
    (platform : option string) : query (list device) :=
  fun t =>
    match device_id, platform with
    | Some d, Some p =>
        if existsb (fun dev => String.eqb (dev_device_id dev) d) (devices t)
        then
          let set dev :=
            {| dev_id := dev_id dev; dev_device_id := dev_device_id dev;
               dev_push_token := push_token; dev_platform := p;
               dev_last_active := now; dev_created_at := dev_created_at dev |} in
          let hit dev := String.eqb (dev_device_id dev) d in
          Found (returning hit set (devices t))
                (with_devices t
                   (filter (fun dev => negb (hit dev)) (devices t) ++
                    returning hit set (devices t))
                   (devices_id_seq t + 1))
        else
          let row :=
            {| dev_id := devices_id_seq t; dev_device_id := d;
               dev_push_token := push_token; dev_platform := p;
               dev_last_active := now; dev_created_at := now |} in
          Found [row] (with_devices t (devices t ++ [row]) (devices_id_seq t + 1))
    | _, _ => Failed "null value violates not-null constraint"
    end.

(** The values of a registration fit their columns, and the id of a new row
    is free and fits INTEGER. *)
Definition fits_device (d : string) (push_token : option string) (p : string)
    (t : tables) : Prop :=
  varchar 255 d = true /\ text_field push_token = true /\ varchar 20 p = true /\
  int4 (devices_id_seq t) /\
  Forall (fun dev => dev_id dev < devices_id_seq t) (devices t).

(** [POST /api/register-device]. *)
Definition post_register_device (now : Z) (device_id push_token platform : option string)
    : route_handler :=
  if falsy device_id || falsy platform
  then fun s => (answer 400 (NError "Device ID and platform are required"), s)
  else
    job_try_catch
      (result <- pool_query_all (upsert_device now device_id push_token platform) ;;
       jret (answer 200 (NRegistered (hd_error result))))%job
      "Error registering device:".

(** ** Sending *)

(** The line [console.error] writes when Firebase rejects a message; the
    text of Firebase's error, which follows it, is not part of the model. *)
Definition send_error_line : string := "❌ Error sending push notification:".

(** [sendPushNotification(pushToken, platform, title, body, data)]: [false]
    without a Firebase client; else the message goes to [send] and the
    result tells whether [send] resolved; a rejection is caught and written
    to the error console.  It never throws, and [platform] is not used. *)
Definition sendPushNotification (now : Z) (pushToken platform title body : string)
    (data : list (string * data_value)) : server -> bool * server :=
  fun s =>
    match firebaseAdmin s with
    | None => (false, s)
    | Some send =>
        let message :=
          {| pm_token := pushToken; pm_title := title; pm_body := body;
             pm_data := data; pm_timestamp := now |} in
        (send message,
         {| tables_of := tables_of s; pending := pending s;
            errors := if send message then errors s else errors s ++ [send_error_line];
            firebaseAdmin := firebaseAdmin s; outbox := outbox s ++ [message] |})
    end.

(** The lines that sending these messages leaves on the error console: one
    for each message Firebase rejects. *)
Definition rejections (s : server) (messages : list push_message) : list string :=
  match firebaseAdmin s with
  | None => []
  | Some send =>
      map (fun _ => send_error_line) (filter (fun m => negb (send m)) messages)
  end.

(** A row of [SELECT device_id, push_token, platform FROM devices
    WHERE push_token IS NOT NULL]. *)
Record recipient := {
  rc_device_id : string;
  rc_push_token : string;
  rc_platform : string
}.

Definition recipient_of (dev : device) : list recipient :=
  match dev_push_token dev with
  | Some token =>
      [{| rc_device_id := dev_device_id dev; rc_push_token := token;
          rc_platform := dev_platform dev |}]
  | None => []
  end.

(** [... WHERE push_token IS NOT NULL], with [AND device_id != $1] when the
    requester's device id is truthy. *)
Definition select_recipients (requesterDeviceId : option string) : query (list recipient) :=
  fun t =>
    Found
      (flat_map recipient_of
         (if truthy_string requesterDeviceId
          then filter (fun dev => negb (text_eq (dev_device_id dev) requesterDeviceId))
                      (devices t)
          else devices t))
      t.

(** [devices.map(device => sendPushNotification(...))] under
    [Promise.allSettled]: every message is handed over, in the order of the
    rows, and the results are collected. *)
Fixpoint send_all (now : Z) (title : string) (body : string)
    (data : list (string * data_value))
    (devices : list recipient) (s : server) : list bool * server :=
  match devices with
  | [] => ([], s)
  | device :: rest =>
      let (ok, s1) :=
        sendPushNotification now (rc_push_token device) (rc_platform device)
          title body data s in
      let (oks, s2) := send_all now title body data rest s1 in
      (ok :: oks, s2)
  end.

(** [results.filter(result => result.status === 'fulfilled' && result.value).length]. *)
Definition successCount (results : list bool) : Z :=
  Z.of_nat (List.length (filter (fun ok => ok) results)).

(** The body of a prayer request notification: the text is cut at 80
    characters, with an ellipsis when it was longer.  [length] and
    [substring] of JavaScript count UTF-16 code units; on a text of ASCII
    characters ([plain]) these are the characters counted here, and the
    theorems about this body are stated for such texts. *)
Definition prayer_request_body (requesterName prayerText : string) : string :=
  (requesterName ++ " is asking for prayer: " ++ substring 0 80 prayerText ++
   (if (80 <? String.length prayerText)%nat then "..." else ""))%string.

Definition lift_send {A} (f : server -> A * server) : job A :=
  fun s => let (a, s') := f s in (Normal a, s').

(** [POST /api/send-prayer-request]. *)
Definition post_send_prayer_request (now : Z)
    (requesterName prayerText requesterDeviceId : option string) : route_handler :=
  match requesterName, prayerText with
  | Some name, Some text =>
      if falsy requesterName || falsy prayerText
      then fun s => (answer 400 (NError "Requester name and prayer text are required"), s)
      else
        job_try_catch
          (devices <- pool_query_all (select_recipients requesterDeviceId) ;;
           results <- lift_send
                        (send_all now "🙏 New Prayer Request"
                           (prayer_request_body name text)
                           [("type", Text "prayer_request"); ("requesterName", Text name);
                            ("prayerText", Text text)]%string
                           devices) ;;
           jret (answer 200
                   (NBroadcast "Prayer request sent to all devices"
                      (Z.of_nat (List.length devices)) (successCount results))))%job
          "Error sending prayer request:"
  | _, _ => fun s => (answer 400 (NError "Requester name and prayer text are required"), s)
  end.

(** [POST /api/send-daily-reminder]. *)
Definition post_send_daily_reminder (now : Z) : route_handler :=
  job_try_catch
    (devices <- pool_query_all (select_recipients None) ;;
     results <- lift_send
                  (send_all now "🕐 Daily Prayer Time"
                     "Take a moment to connect with God and pray for others in your community."
                     [("type", Text "daily_reminder")]%string
                     devices) ;;
     jret (answer 200
             (NBroadcast "Daily reminder sent to all devices"
                (Z.of_nat (List.length devices)) (successCount results))))%job
    "Error sending daily reminder:".

(** A row of the query of [send-prayer-joined]: the request and, from the
    LEFT JOIN, the creator's [push_token] and [platform]. *)
Record creator_row := {
  cr_request : prayer_request;
  cr_push_token : option string;
  cr_platform : option string
}.

(** [SELECT pr.*, d.push_token, d.platform FROM prayer_requests pr
     LEFT JOIN devices d ON pr.device_id = d.device_id
     WHERE pr.id = $1 AND pr.device_id IS NOT NULL]. *)
Definition select_creator (prayer_request_id : Z) : query (list creator_row) :=
  fun t =>
    Found
      (flat_map
         (fun pr =>
            match filter (fun d => text_eq (dev_device_id d) (pr_device_id pr)) (devices t) with
            | [] => [{| cr_request := pr; cr_push_token := None; cr_platform := None |}]
            | ds => map (fun d => {| cr_request := pr; cr_push_token := dev_push_token d;
                                     cr_platform := Some (dev_platform d) |}) ds
            end)
         (filter (fun pr => (pr_id pr =? prayer_request_id) &&
                            negb (is_null (pr_device_id pr)))
                 (prayer_requests (base t))))
      t.

(** A number as JavaScript prints it. *)
Definition toString (n : Z) : string := NilZero.string_of_int (Z.to_int n).

(** The body of a prayer joined notification. *)
Definition prayer_joined_body (prayer_count : Z) : string :=
  (toString prayer_count ++ " " ++
   (if (prayer_count =? 1)%Z then "person is" else "people are") ++
   " now praying with you!")%string.

(** [POST /api/send-prayer-joined]; [prayer_request_id] of the body is absent
    or an integer. *)
Definition post_send_prayer_joined (now : Z) (prayer_request_id : option Z)
    (joiner_device_id : option string) : route_handler :=
  match prayer_request_id with
  | None => fun s => (answer 400 (NError "Prayer request ID is required"), s)
  | Some id =>
      if negb (truthy prayer_request_id)
      then fun s => (answer 400 (NError "Prayer request ID is required"), s)
      else
        job_try_catch
          (requestResult <- pool_query_all (select_creator id) ;;
           match requestResult with
           | [] => jret (answer 404 (NError "Prayer request not found or no device info"))
           | prayerRequest :: _ =>
               match cr_push_token prayerRequest with
               | None =>
                   jret (answer 200 (NSkipped "No push token available for prayer creator"))
               | Some push_token =>
                   if falsy (cr_push_token prayerRequest)
                   then jret (answer 200
                                (NSkipped "No push token available for prayer creator"))
                   else if match pr_device_id (cr_request prayerRequest), joiner_device_id with
                           | Some creator, Some joiner => String.eqb creator joiner
                           | _, _ => false
                           end
                   then jret (answer 200 (NSkipped "Not sending notification to same device"))
                   else
                     success <- lift_send
                                  (sendPushNotification now push_token
                                     match cr_platform prayerRequest with
                                     | Some p => p
                                     | None => ""
                                     end
                                     "❤️ Someone Joined Your Prayer"
                                     (prayer_joined_body
                                        (pr_prayer_count (cr_request prayerRequest)))
                                     [("type", Text "prayer_joined");
                                      ("prayer_request_id", Text (toString id));
                                      ("prayer_count",
                                       Text (toString
                                               (pr_prayer_count (cr_request prayerRequest))))
                                     ]%string) ;;
                     jret (answer 200
                             (NSent success
                                (if success then "Prayer joined notification sent"
                                 else "Failed to send notification")))
               end
           end)%job
          "Error sending prayer joined notification:"
  end.

(** [SELECT push_token, platform FROM devices WHERE device_id = $1] and
    [SELECT * FROM devices WHERE device_id = $1]. *)
Definition select_device (device_id : option string) : query (list device) :=
  fun t => Found (filter (fun dev => text_eq (dev_device_id dev) device_id) (devices t)) t.

(** [x || fallback] on a string field. *)
Definition or_default (x : option string) (fallback : string) : string :=
  match x with
  | Some s => if String.eqb s "" then fallback else s
  | None => fallback
  end.

(** [POST /api/send-test-notification]. *)
Definition post_send_test_notification (now : Z) (device_id title body : option string)
    (data : option (list (string * data_value))) : route_handler :=
  match device_id with
  | None => fun s => (answer 400 (NError "Device ID is required"), s)
  | Some id =>
      if falsy device_id
      then fun s => (answer 400 (NError "Device ID is required"), s)
      else
        job_try_catch
          (deviceResult <- pool_query_all (select_device device_id) ;;
           match deviceResult with
           | [] => jret (answer 404 (NError "Device not found"))
           | device :: _ =>
               match dev_push_token device with
               | None => jret (answer 400 (NError "Device has no push token registered"))
               | Some push_token =>
                   if falsy (dev_push_token device)
                   then jret (answer 400 (NError "Device has no push token registered"))
                   else
                     fun s =>
                       match firebaseAdmin s with
                       | None =>
                           jret (answer 503 (NError "Firebase Admin SDK not available")) s
                       | Some _ =>
                           let testTitle := or_default title "🧪 Test Notification" in
                           let testBody :=
                             or_default body
                               "This is a test notification from Prayer Warriors app!" in
                           let testData :=
                             match data with
                             | Some d => d
                             | None => [("type", Text "test");
                                        ("test_timestamp", Time now)]%string
                             end in
                           (success <- lift_send
                                         (sendPushNotification now push_token
                                            (dev_platform device) testTitle testBody testData) ;;
                            jret (answer 200
                                    (NTest success
                                       (if success then "Test notification sent successfully"
                                        else "Failed to send test notification")
                                       id (dev_platform device) testTitle testBody testData)))%job
                             s
                       end
               end
           end)%job
          "Error sending test notification:"
  end.

(** ** Diagnostics *)

(** [SELECT device_id, platform, last_active, created_at,
     CASE WHEN push_token IS NOT NULL THEN 'yes' ELSE 'no' END as has_push_token
     FROM devices ORDER BY last_active DESC]. *)
Definition select_devices : query (list device_summary) :=
  fun t =>
    Found
      (order_by (fun a b => ds_last_active b <=? ds_last_active a)
         (map (fun dev =>
                 {| ds_device_id := dev_device_id dev; ds_platform := dev_platform dev;
                    ds_last_active := dev_last_active dev;
                    ds_created_at := dev_created_at dev;
                    ds_has_push_token :=
                      if is_null (dev_push_token dev) then "no" else "yes" |})
              (devices t)))
      t.

(** [GET /api/devices]. *)
Definition get_devices : route_handler :=
  job_try_catch
    (result <- pool_query_all select_devices ;;
     jret (answer 200 (NDevices result)))%job
    "Error fetching devices:".

(** [SELECT COUNT( * ) as joined_prayers,
     COUNT(CASE WHEN completed_at IS NOT NULL THEN 1 END) as completed_prayers,
     COUNT(CASE WHEN completed_at IS NULL THEN 1 END) as active_prayers
     FROM device_prayers WHERE device_id = $1]. *)
Definition select_prayer_stats (deviceId : string) : query (Z * Z * Z) :=
  fun t =>
    let mine :=
      filter (fun dp => String.eqb (dp_device_id dp) deviceId) (device_prayers (base t)) in
    Found (Z.of_nat (List.length mine),
           count_when (fun dp => negb (is_null (dp_completed_at dp))) mine,
           count_when (fun dp => is_null (dp_completed_at dp)) mine)
          t.

(** [... FROM device_prayers dp JOIN prayer_requests pr ON dp.prayer_request_id = pr.id
     JOIN prayer_topics pt ON pr.topic_id = pt.id WHERE dp.device_id = $1
     ORDER BY dp.joined_at DESC LIMIT 5]. *)
Definition select_recent_activity (deviceId : string) : query (list activity_row) :=
  fun t =>
    Found
      (firstn 5
         (order_by (fun a b => act_joined_at b <=? act_joined_at a)
            (flat_map
               (fun dp =>
                  flat_map
                    (fun pr =>
                       map (fun pt =>
                              {| act_prayer_id := pr_id pr;
                                 act_description := pr_description pr;
                                 act_topic_title := pt_title pt;
                                 act_joined_at := dp_joined_at dp;
                                 act_completed_at := dp_completed_at dp |})
                           (filter (fun pt => pr_topic_id pr =? pt_id pt)
                                   (prayer_topics (base t))))
                    (filter (fun pr => dp_prayer_request_id dp =? pr_id pr)
                            (prayer_requests (base t))))
               (filter (fun dp => String.eqb (dp_device_id dp) deviceId)
                       (device_prayers (base t))))))
      t.

(** [GET /api/device/:deviceId/info]. *)
Definition get_device_info (deviceId : string) : route_handler :=
  job_try_catch
    (deviceResult <- pool_query_all (select_device (Some deviceId)) ;;
     prayerStats <- pool_query_all (select_prayer_stats deviceId) ;;
     recentActivity <- pool_query_all (select_recent_activity deviceId) ;;
     fun s =>
       let device := hd_error deviceResult in
       let '(joined_prayers, completed_prayers, active_prayers) := prayerStats in
       jret (answer 200
               (NDeviceInfo
                  {| di_device_id := deviceId;
                     di_registered := negb (is_null device);
                     di_registration_info := device;
                     di_total_joined_prayers := joined_prayers;
                     di_completed_prayers := completed_prayers;
                     di_currently_active_prayers := active_prayers;
                     di_recent_activity := recentActivity;
                     di_push_notification_ready :=
                       match device with
                       | Some dev => truthy_string (dev_push_token dev)
                       | None => false
                       end;
                     di_firebase_admin_available := negb (is_null (firebaseAdmin s)) |}))
            s)%job
    "Error fetching device info:".

(** ** The store inside the server *)

(** The store as the participation handlers see it, and a handler of the
    store run on the server. *)
Definition world_of (s : server) : world :=
  {| db := base (tables_of s); faults := pending s; console := errors s |}.

Definition on_store (h : handler) : server -> response * server :=
  fun s =>
    let (r, w) := h (world_of s) in
    (r, {| tables_of :=
             {| base := db w; devices := devices (tables_of s);
                devices_id_seq := devices_id_seq (tables_of s) |};
           pending := faults w; errors := console w;
           firebaseAdmin := firebaseAdmin s; outbox := outbox s |}).

(** [UNIQUE] on [devices.device_id]. *)
Definition devices_unique (t : tables) : Prop := NoDup (map dev_device_id (devices t)).

(** ** Vocabulary for the sending routes *)

(** The devices a broadcast goes to. *)
Definition recipients (requesterDeviceId : option string) (t : tables) : list recipient :=
  match select_recipients requesterDeviceId t with
  | Found rows _ => rows
  | Failed _ => []
  end.

(** A device a prayer request is addressed to: it has a push token, and it is
    not the requester's when the requester's device id is given. *)
Definition addressed (requesterDeviceId : option string) (dev : device) : bool :=
  negb (is_null (dev_push_token dev)) &&
  negb (truthy_string requesterDeviceId && text_eq (dev_device_id dev) requesterDeviceId).

(** The message of a broadcast for one recipient. *)
Definition broadcast_message (now : Z) (title body : string)
    (data : list (string * data_value)) (rc : recipient) : push_message :=
  {| pm_token := rc_push_token rc; pm_title := title; pm_body := body;
     pm_data := data; pm_timestamp := now |}.

(** What a broadcast hands to Firebase, and how many sends resolve. *)
Definition handed_over (s : server) (messages : list push_message) : list push_message :=
  match firebaseAdmin s with
  | None => []
  | Some _ => messages
  end.

Definition resolved (s : server) (messages : list push_message) : Z :=
  match firebaseAdmin s with
  | None => 0
  | Some send => Z.of_nat (List.length (filter send messages))
  end.

(** The message of [send-prayer-joined] for a request and its creator's token. *)
Definition joined_message (now : Z) (pr : prayer_request) (token : string) : push_message :=
  {| pm_token := token;
     pm_title := "❤️ Someone Joined Your Prayer";
     pm_body := prayer_joined_body (pr_prayer_count pr);
     pm_data := [("type", Text "prayer_joined");
                 ("prayer_request_id", Text (toString (pr_id pr)));
                 ("prayer_count", Text (toString (pr_prayer_count pr)))]%string;
     pm_timestamp := now |}.

(** The creator of a request is a registered device with this push token. *)
Definition creator_token (t : tables) (pr : prayer_request) (dev : device)
    (token : string) : Prop :=
  In pr (prayer_requests (base t)) /\ In dev (devices t) /\
  pr_device_id pr = Some (dev_device_id dev) /\
  dev_push_token dev = Some token /\ token <> ""%string.

(** ** The routes of the notification part *)

Inductive push_endpoint : Type :=
| RegisterDevice (device_id push_token platform : option string)
| SendPrayerRequest (requesterName prayerText requesterDeviceId : option string)
| SendPrayerJoined (prayer_request_id : option Z) (joiner_device_id : option string)
| SendDailyReminder
| SendTestNotification (device_id title body : option string)
    (data : option (list (string * data_value)))
| Devices
| DeviceInfo (deviceId : string).

Definition push_route (now : Z) (e : push_endpoint) : route_handler :=
  match e with
  | RegisterDevice device_id push_token platform =>
      post_register_device now device_id push_token platform
  | SendPrayerRequest requesterName prayerText requesterDeviceId =>
      post_send_prayer_request now requesterName prayerText requesterDeviceId
  | SendPrayerJoined prayer_request_id joiner_device_id =>
      post_send_prayer_joined now prayer_request_id joiner_device_id
  | SendDailyReminder => post_send_daily_reminder now
  | SendTestNotification device_id title body data =>
      post_send_test_notification now device_id title body data
  | Devices => get_devices
  | DeviceInfo deviceId => get_device_info deviceId
  end.

Definition registers (e : push_endpoint) : bool :=
  match e with
  | RegisterDevice _ _ _ => true
  | _ => false
  end.

(** What every route of this part respects, whatever the pool does: the
    prayer tables are left alone, and so is [devices] unless the route
    registers; a 500 goes with one line on the console and nothing sent, any
    other answer with one line for each message Firebase rejected. *)
Definition respectful (e : push_endpoint) (h : route_handler) : Prop :=
  forall s,
    let r := fst (h s) in
    let s' := snd (h s) in
    base (tables_of s') = base (tables_of s) /\
    (registers e = false -> tables_of s' = tables_of s) /\
    firebaseAdmin s' = firebaseAdmin s /\
    (n_status r = 500 ->
     outbox s' = outbox s /\ exists line, errors s' = errors s ++ [line]) /\
    (n_status r <> 500 ->
     exists sent, outbox s' = outbox s ++ sent /\
                  errors s' = errors s ++ rejections s sent) /\
    (exists sent, outbox s' = outbox s ++ sent).


(** The row of a device as [GET /api/devices] shows it. *)
Definition summary (dev : device) : device_summary :=
  {| ds_device_id := dev_device_id dev; ds_platform := dev_platform dev;
     ds_last_active := dev_last_active dev; ds_created_at := dev_created_at dev;
     ds_has_push_token := if is_null (dev_push_token dev) then "no" else "yes" |}.



(** * Seeding the topics *)

(** [INSERT INTO prayer_topics (id, title, category, parent_id) VALUES ...
     ON CONFLICT (id) DO NOTHING]: the rows are tried one after the other, a
    row whose [id] is taken is skipped.  Every [parent_id] of [VALUES] is an
    [id] of [VALUES], so the foreign key on [parent_id] holds at the end of
    the statement whatever the table held. *)
Definition on_conflict_do_nothing (values table : list prayer_topic) : list prayer_topic :=
  fold_left
    (fun table row =>
       if existsb (fun pt => pt_id pt =? pt_id row) table then table else table ++ [row])
    values table.

(** The statement of [POST /api/init-database] that writes rows. *)
Definition insert_seeded_topics (d : database) : database :=
  {| prayer_topics := on_conflict_do_nothing seeded_topics (prayer_topics d);
     prayer_requests := prayer_requests d;
     device_prayers := device_prayers d;
     prayer_requests_id_seq := prayer_requests_id_seq d;
     device_prayers_id_seq := device_prayers_id_seq d |}.

(** The rows of [VALUES] whose id is free in a table. *)
Definition missing_from (table : list prayer_topic) : list prayer_topic :=
  filter (fun row => negb (existsb (fun pt => pt_id pt =? pt_id row) table)) seeded_topics.

(** * A join and its notification *)

(** A device already has a link to a request. *)
Definition has_link (device_id : string) (id : Z) (d : database) : bool :=
  existsb (where_device_request (Some device_id) id) (device_prayers d).

(** The client's sequence: join a request, then ask for the notification. *)
Definition join_and_notify (now now' : Z) (id : Z) (joiner : string) (s : server) : server :=
  snd (post_send_prayer_joined now' (Some id) (Some joiner)
         (snd (on_store (post_join now id (Some joiner)) s))).

(** A query that writes nothing and cannot fail. *)
Definition reads {A} (q : query A) : Prop :=
  forall t, exists rows, q t = Found rows t.

(** * Scenarios *)

(** A session on the store: a request is created, joined, prayed for on the
    legacy route, and swept after its expiry. *)
Definition a_session : list (Z * endpoint) :=
  [(0, CreateRequest (Some 16) None None (Some "creator"%string));
   (10, Participation (Join 1 (Some "A"%string)));
   (11, Participation (Pray 1));
   (90000, CleanupExpired)].

(** The same without the legacy route: the device starts and completes. *)
Definition a_counting_session : list (Z * endpoint) :=
  [(0, CreateRequest (Some 16) None None (Some "creator"%string));
   (10, Participation (Join 1 (Some "A"%string)));
   (11, Participation (StartPraying 1 (Some "A"%string)));
   (12, Participation (Complete 1 (Some "A"%string)));
   (90000, CleanupExpired)].

(** A catalog whose main category is named like a method every object
    inherits. *)
Definition inherited_title_topics : list prayer_topic :=
  [topic 1 "toString" "main" None; topic 2 "Budget Help" "toString" (Some 1)].

(** The request of [two_devices_joined] as stored there. *)
Definition joined_row : prayer_request :=
  {| pr_id := 1; pr_topic_id := 16; pr_device_id := Some "creator"%string;
     pr_description := None; pr_prayer_count := 2; pr_active_prayers := 1;
     pr_created_at := 0; pr_expires_at := 86400 |}.

(** Three registered devices: the creator of the request and "A" with a push
    token, "B" without. *)
Definition creator_device : device :=
  {| dev_id := 1; dev_device_id := "creator"; dev_push_token := Some "token-c"%string;
     dev_platform := "ios"; dev_last_active := 5; dev_created_at := 1 |}.

Definition three_devices : list device :=
  [creator_device;
   {| dev_id := 2; dev_device_id := "A"; dev_push_token := Some "token-a"%string;
      dev_platform := "android"; dev_last_active := 7; dev_created_at := 2 |};
   {| dev_id := 3; dev_device_id := "B"; dev_push_token := None;
      dev_platform := "android"; dev_last_active := 6; dev_created_at := 3 |}].

(** A Firebase that delivers to the creator's token and rejects the others. *)
Definition delivers_to_creator (m : push_message) : bool :=
  String.eqb (pm_token m) "token-c".

(** The server with the store of [two_devices_joined], these devices, a
    healthy pool and Firebase initialised. *)
Definition push_ready : server :=
  {| tables_of := {| base := db two_devices_joined; devices := three_devices;
                     devices_id_seq := 4 |};
     pending := []; errors := [];
     firebaseAdmin := Some delivers_to_creator;
     outbox := [] |}.
(** ** Lists under UPDATE *)

Section UpdateWhere.
Context {A : Type}.
Variables (p : A -> bool) (f : A -> A).

Lemma update_where_none (t : list A) :
  filter p t = [] -> update_where p f t = t.
Proof.
  induction t as [|x t IH]; simpl; [reflexivity|].
  destruct (p x) eqn:E; [discriminate|].
  intros H. now rewrite IH.
Qed.

Lemma no_rows_returning (t : list A) :
  no_rows (returning p f t) = no_rows (filter p t).
Proof. unfold returning. now destruct (filter p t). Qed.

Lemma no_rows_nil (t : list A) : no_rows t = true <-> t = [].
Proof. destruct t; simpl; split; congruence. Qed.

Lemma update_where_length (t : list A) :
  List.length (update_where p f t) = List.length t.
Proof. apply length_map. Qed.

(** A test [q] that [f] does not disturb selects the same rows after the
    update. *)
Lemma filter_update_where (q : A -> bool) (t : list A) :
  (forall x, q (f x) = q x) ->
  filter q (update_where p f t) = update_where p f (filter q t).
Proof.
  intros Hq. induction t as [|x t IH]; simpl; [reflexivity|].
  destruct (p x) eqn:E.
  - rewrite Hq. destruct (q x); simpl; rewrite ?E, IH; reflexivity.
  - destruct (q x); simpl; rewrite ?E, IH; reflexivity.
Qed.

Lemma find_update_where (q : A -> bool) (t : list A) :
  (forall x, q (f x) = q x) ->
  find q (update_where p f t) =
  option_map (fun x => if p x then f x else x) (find q t).
Proof.
  intros Hq. induction t as [|x t IH]; simpl; [reflexivity|].
  destruct (p x) eqn:E.
  - rewrite Hq. destruct (q x); simpl; [now rewrite E | exact IH].
  - destruct (q x); simpl; [now rewrite E | exact IH].
Qed.

Lemma filter_nil_existsb (t : list A) :
  filter p t = [] <-> existsb p t = false.
Proof.
  induction t as [|x t IH]; simpl; [tauto|].
  destruct (p x); simpl; [split; discriminate | exact IH].
Qed.
End UpdateWhere.

Lemma where_id_set (f : prayer_request -> prayer_request) id :
  (forall pr, pr_id (f pr) = pr_id pr) -> forall pr, where_id id (f pr) = where_id id pr.
Proof. intros H pr. unfold where_id. now rewrite H. Qed.

(** ** The pool without faults *)

Lemma world_eta (w : world) :
  {| db := db w; faults := faults w; console := console w |} = w.
Proof. now destruct w. Qed.

Lemma with_prayer_requests_same d : with_prayer_requests d (prayer_requests d) = d.
Proof. now destruct d. Qed.

Lemma with_device_prayers_same d : with_device_prayers d (device_prayers d) = d.
Proof. now destruct d. Qed.

Lemma pool_query_healthy {A} (q : statement A) (w : world) :
  faults w = [] ->
  pool_query q w =
  match q (db w) with
  | Rows rows db' => (Normal rows, {| db := db'; faults := []; console := console w |})
  | SqlError e => (Throw e, w)
  end.
Proof.
  intros H. unfold pool_query. rewrite H.
  destruct (q (db w)); [reflexivity|].
  now rewrite <- H, world_eta.
Qed.

Lemma pool_query_fault {A} (q : statement A) (w : world) fs :
  faults w = true :: fs ->
  pool_query q w =
  (Throw "connection terminated unexpectedly",
   {| db := db w; faults := fs; console := console w |}).
Proof. intros H. unfold pool_query. now rewrite H. Qed.

Lemma after_same w : faults w = [] -> after w (db w) = w.
Proof. intros H. unfold after. now rewrite <- H, world_eta. Qed.

Ltac run_healthy H :=
  unfold try_catch, bind, ret;
  repeat (rewrite pool_query_healthy by (simpl; first [exact H | reflexivity]); simpl).

(** An UPDATE ... RETURNING handler that answers 404 on no row: the shape of
    start-praying, stop-praying and the legacy pray. *)
Lemma int4_int4b n : int4 n <-> int4b n = true.
Proof. unfold int4, int4b. rewrite andb_true_iff, !Z.leb_le. tauto. Qed.

Lemma integer_param_int4 v column : int4 v -> integer_param v column = true.
Proof. intros H. apply int4_int4b in H. unfold integer_param. now rewrite H. Qed.

Lemma no_row_at_limit {A} (p q : A -> bool) (t : list A) :
  filter p t = [] -> existsb (fun x => p x && q x) t = false.
Proof.
  intros H. destruct (existsb _ t) eqn:E; [|reflexivity].
  apply existsb_exists in E. destruct E as (x & Hin & Hx).
  apply andb_true_iff in Hx.
  assert (Hf : In x (filter p t)) by (apply filter_In; tauto).
  rewrite H in Hf. contradiction.
Qed.

Lemma integer_param_held v (column : list Z) : In v column -> integer_param v column = true.
Proof.
  intros H. unfold integer_param. apply orb_true_iff. right.
  apply existsb_exists. exists v. split; [exact H | apply Z.eqb_refl].
Qed.

Lemma post_pray_healthy now id w :
  faults w = [] ->
  integer_param id (map pr_id (prayer_requests (db w))) = true ->
  existsb (fun pr => where_id_active now id pr && at_limit pr) (prayer_requests (db w)) =
    false ->
  post_pray now id w =
  if no_rows (filter (where_id_active now id) (prayer_requests (db w)))
  then (not_found_or_expired, w)
  else (res_json (rows_0 (returning (where_id_active now id) set_both_incr
                            (prayer_requests (db w)))),
        after w (with_prayer_requests (db w)
                   (update_where (where_id_active now id) set_both_incr
                      (prayer_requests (db w))))).
Proof.
  intros H Hid Hroom. unfold post_pray. unfold try_catch, bind, ret.
  rewrite pool_query_healthy by exact H. unfold update_pray.
  rewrite Hid, Hroom. cbn [negb]. cbv beta iota.
  rewrite no_rows_returning.
  destruct (no_rows _) eqn:E; [|reflexivity].
  apply no_rows_nil in E. rewrite update_where_none by exact E.
  now rewrite with_prayer_requests_same, <- H, world_eta.
Qed.

Lemma post_start_praying_healthy now id device_id w :
  faults w = [] -> falsy device_id = false ->
  post_start_praying now id device_id w =
  if no_rows (filter (where_id_active now id) (prayer_requests (db w)))
  then (not_found_or_expired, w)
  else (res_json (rows_0 (returning (where_id_active now id) set_active_prayers_incr
                            (prayer_requests (db w)))),
        after w (with_prayer_requests (db w)
                   (update_where (where_id_active now id) set_active_prayers_incr
                      (prayer_requests (db w))))).
Proof.
  intros H Hd. unfold post_start_praying. rewrite Hd. run_healthy H.
  rewrite no_rows_returning.
  destruct (no_rows _) eqn:E; [|reflexivity].
  apply no_rows_nil in E. rewrite update_where_none by exact E.
  now rewrite with_prayer_requests_same, <- H, world_eta.
Qed.

Lemma post_stop_praying_healthy now id device_id w :
  faults w = [] -> falsy device_id = false ->
  post_stop_praying now id device_id w =
  if no_rows (filter (where_id_active now id) (prayer_requests (db w)))
  then (not_found_or_expired, w)
  else (res_json (rows_0 (returning (where_id_active now id) set_active_prayers_decr
                            (prayer_requests (db w)))),
        after w (with_prayer_requests (db w)
                   (update_where (where_id_active now id) set_active_prayers_decr
                      (prayer_requests (db w))))).
Proof.
  intros H Hd. unfold post_stop_praying. rewrite Hd. run_healthy H.
  rewrite no_rows_returning.
  destruct (no_rows _) eqn:E; [|reflexivity].
  apply no_rows_nil in E. rewrite update_where_none by exact E.
  now rewrite with_prayer_requests_same, <- H, world_eta.
Qed.

Lemma post_complete_healthy now id device_id w :
  faults w = [] -> falsy device_id = false ->
  integer_param id (map dp_prayer_request_id (device_prayers (db w))) = true ->
  post_complete now id device_id w =
  if no_rows (filter (where_device_request_open device_id id) (device_prayers (db w)))
  then (not_found_or_completed, w)
  else (res_json (JsonMessage "Prayer completed successfully"),
        after w
          {| prayer_topics := prayer_topics (db w);
             prayer_requests :=
               update_where (where_id id) set_active_prayers_decr (prayer_requests (db w));
             device_prayers :=
               update_where (where_device_request_open device_id id)
                 (set_completed_at now) (device_prayers (db w));
             prayer_requests_id_seq := prayer_requests_id_seq (db w);
             device_prayers_id_seq := device_prayers_id_seq (db w) |}).
Proof.
  intros H Hd Hid. unfold post_complete. rewrite Hd. unfold try_catch, bind, ret.
  rewrite pool_query_healthy by exact H. unfold update_completed_at.
  rewrite Hid. cbn [negb]. cbv beta iota.
  rewrite no_rows_returning.
  destruct (no_rows _) eqn:E; simpl.
  - apply no_rows_nil in E. rewrite update_where_none by exact E.
    now rewrite with_device_prayers_same, <- H, world_eta.
  - run_healthy H. reflexivity.
Qed.

Lemma post_complete_out_of_range now id device_id w :
  faults w = [] -> falsy device_id = false ->
  integer_param id (map dp_prayer_request_id (device_prayers (db w))) = false ->
  post_complete now id device_id w =
  (res_status_json 500 internal_server_error,
   console_error "Error completing prayer: value out of range for type integer" w).
Proof.
  intros H Hd Hid. unfold post_complete. rewrite Hd. unfold try_catch, bind, ret.
  rewrite pool_query_healthy by exact H. unfold update_completed_at.
  rewrite Hid. reflexivity.
Qed.

Lemma post_pray_out_of_range now id w :
  faults w = [] ->
  integer_param id (map pr_id (prayer_requests (db w))) = false ->
  post_pray now id w =
  (res_status_json 500 internal_server_error,
   console_error "Error updating prayer count: value out of range for type integer" w).
Proof.
  intros H Hid. unfold post_pray, try_catch, bind, ret.
  rewrite pool_query_healthy by exact H. unfold update_pray.
  rewrite Hid. reflexivity.
Qed.

Lemma post_pray_at_limit now id w :
  faults w = [] ->
  integer_param id (map pr_id (prayer_requests (db w))) = true ->
  existsb (fun pr => where_id_active now id pr && at_limit pr) (prayer_requests (db w)) =
    true ->
  post_pray now id w =
  (res_status_json 500 internal_server_error,
   console_error "Error updating prayer count: integer out of range" w).
Proof.
  intros H Hid Hl. unfold post_pray, try_catch, bind, ret.
  rewrite pool_query_healthy by exact H. unfold update_pray.
  rewrite Hid, Hl. reflexivity.
Qed.

Lemma link_holds_request_id device_id id (t : list device_prayer) :
  existsb (where_device_request device_id id) t = true ->
  integer_param id (map dp_prayer_request_id t) = true.
Proof.
  intros H. apply existsb_exists in H. destruct H as (dp & Hin & Hdp).
  apply integer_param_held. apply in_map_iff. exists dp. split; [|exact Hin].
  unfold where_device_request in Hdp. apply andb_true_iff in Hdp.
  now apply Z.eqb_eq.
Qed.

Lemma open_link_holds_request_id device_id id (t : list device_prayer) :
  existsb (where_device_request_open device_id id) t = true ->
  integer_param id (map dp_prayer_request_id t) = true.
Proof.
  intros H. apply (link_holds_request_id device_id).
  apply existsb_exists in H. destruct H as (dp & Hin & Hdp).
  apply existsb_exists. exists dp. split; [exact Hin|].
  unfold where_device_request_open in Hdp. now apply andb_true_iff in Hdp.
Qed.

Lemma request_holds_id id d pr :
  find_request id d = Some pr -> integer_param id (map pr_id (prayer_requests d)) = true.
Proof.
  intros H. apply integer_param_held. unfold find_request in H.
  apply find_some in H. destruct H as [Hin Hid]. apply in_map_iff.
  exists pr. split; [|exact Hin]. unfold where_id in Hid. now apply Z.eqb_eq.
Qed.

Lemma active_request_exists now id (t : list prayer_request) :
  no_rows (filter (where_id_active now id) t) = false ->
  existsb (where_id id) t = true.
Proof.
  induction t as [|pr t IH]; simpl; [discriminate|].
  unfold where_id_active at 1. unfold where_id at 1.
  destruct (pr_id pr =? id); simpl; [reflexivity|exact IH].
Qed.

Lemma post_join_healthy now id d w :
  faults w = [] -> falsy (Some d) = false ->
  post_join now id (Some d) w =
  if no_rows (filter (where_id_active now id) (prayer_requests (db w)))
  then (not_found_or_expired, w)
  else if no_rows (filter (where_device_request (Some d) id) (device_prayers (db w)))
  then (res_json (rows_0 (returning (where_id id) set_prayer_count_incr
                            (prayer_requests (db w)))),
        after w (joined now d id (db w)))
  else (res_json (rows_0 (filter (where_id id) (prayer_requests (db w)))), w).
Proof.
  intros H Hd. unfold post_join. rewrite Hd. run_healthy H.
  destruct (no_rows (filter (where_id_active _ _) _)) eqn:E; simpl.
  - now rewrite <- H, world_eta.
  - run_healthy H.
    destruct (no_rows (filter (where_device_request _ _) _)) eqn:E2; simpl.
    + run_healthy H. unfold insert_device_prayer. simpl.
      apply no_rows_nil, filter_nil_existsb in E2. rewrite E2.
      rewrite (active_request_exists _ _ _ E). simpl.
      run_healthy H. reflexivity.
    + run_healthy H. now rewrite <- H, world_eta.
Qed.

(** ** Properties that hold whatever the pool does *)

(** A relation between the database before and after, kept by every
    statement that runs, is kept by a whole handler: a query that rejects
    leaves the database as it was. *)
Section Steps.
Variable R : database -> database -> Prop.
Hypothesis R_refl : forall d, R d d.
Hypothesis R_trans : forall a b c, R a b -> R b c -> R a c.

Lemma ret_steps {A} (a : A) : task_steps R (ret a).
Proof. intros w. apply R_refl. Qed.

Lemma lift_steps {A} (c : completion A) : task_steps R (lift c).
Proof. intros w. apply R_refl. Qed.

Lemma bind_steps {A B} (m : task A) (k : A -> task B) :
  task_steps R m -> (forall a, task_steps R (k a)) -> task_steps R (bind m k).
Proof.
  intros Hm Hk w. unfold bind. specialize (Hm w).
  destruct (m w) as [[a|e] w']; simpl in *; [|exact Hm].
  eapply R_trans; [exact Hm | apply Hk].
Qed.

Lemma pool_query_steps {A} (q : statement A) :
  statement_steps R q -> task_steps R (pool_query q).
Proof.
  intros Hq w. unfold pool_query.
  destruct (faults w) as [|[|] fs]; simpl; try apply R_refl;
    destruct (q (db w)) eqn:E; simpl; try apply R_refl; eapply Hq; exact E.
Qed.

Lemma if_steps {A} (b : bool) (m1 m2 : task A) :
  task_steps R m1 -> task_steps R m2 -> task_steps R (if b then m1 else m2).
Proof. now destruct b. Qed.

Lemma try_catch_steps (body : task response) line failure :
  task_steps R body -> handler_steps R (try_catch body line failure).
Proof.
  intros Hb w. unfold try_catch. specialize (Hb w).
  destruct (body w) as [[r|e] w']; simpl in *; exact Hb.
Qed.

Lemma validation_steps (b : bool) (r : response) (h : handler) :
  handler_steps R h -> handler_steps R (if b then fun w => (r, w) else h).
Proof. destruct b; [intros _ w; apply R_refl | trivial]. Qed.
End Steps.

(** What a handler answers when nothing is thrown. *)
Section Returns.
Variable Q : response -> Prop.

Lemma ret_returns {A} (P : A -> Prop) (a : A) : P a -> task_returns P (ret a).
Proof. intros Ha w a' w' E. inversion E. now subst. Qed.

Lemma bind_returns {A B} (P : B -> Prop) (m : task A) (k : A -> task B) :
  (forall a, task_returns P (k a)) -> task_returns P (bind m k).
Proof.
  intros Hk w b w' E. unfold bind in E.
  destruct (m w) as [[a|e] w1]; [|discriminate].
  eapply Hk; exact E.
Qed.

Lemma if_returns {A} (P : A -> Prop) (b : bool) (m1 m2 : task A) :
  task_returns P m1 -> task_returns P m2 -> task_returns P (if b then m1 else m2).
Proof. now destruct b. Qed.

(** A handler answers what its body returns, or the failure of its catch
    block with status 500. *)
Lemma try_catch_answers (body : task response) line failure w :
  task_returns Q body ->
  Q (fst (try_catch body line failure w)) \/
  fst (try_catch body line failure w) = res_status_json 500 failure.
Proof.
  intros Hb. unfold try_catch.
  destruct (body w) as [[r|e] w'] eqn:E; simpl; [left|right; reflexivity].
  eapply Hb; exact E.
Qed.
End Returns.

(** ** The gauge [active_prayers] *)

Lemma Forall2_same {A} (R : A -> A -> Prop) (l : list A) :
  (forall x, R x x) -> Forall2 R l l.
Proof. intros H. induction l; constructor; auto. Qed.

Lemma Forall2_chain {A} (R : A -> A -> Prop) :
  (forall x y z, R x y -> R y z -> R x z) ->
  forall l1 l2 l3, Forall2 R l1 l2 -> Forall2 R l2 l3 -> Forall2 R l1 l3.
Proof.
  intros HR l1 l2 l3 H12. revert l3.
  induction H12; intros l3 H23; inversion H23; subst; constructor; eauto.
Qed.

Lemma Forall2_update_where {A} (R : A -> A -> Prop) p f (l : list A) :
  (forall x, R x x) -> (forall x, R x (f x)) -> Forall2 R l (update_where p f l).
Proof.
  intros Hr Hf. induction l as [|x l IH]; simpl; constructor; [|exact IH].
  destruct (p x); auto.
Qed.

Lemma keeps_non_negative_refl pr : keeps_non_negative pr pr.
Proof. split; auto. Qed.

Lemma keeps_non_negative_trans a b c :
  keeps_non_negative a b -> keeps_non_negative b c -> keeps_non_negative a c.
Proof. intros [E1 H1] [E2 H2]. split; [congruence | auto]. Qed.

Lemma gauge_step_refl d : gauge_step d d.
Proof. apply Forall2_same, keeps_non_negative_refl. Qed.

Lemma gauge_step_trans a b c : gauge_step a b -> gauge_step b c -> gauge_step a c.
Proof. apply Forall2_chain, keeps_non_negative_trans. Qed.

Lemma gauge_update p f d :
  (forall pr, keeps_non_negative pr (f pr)) ->
  gauge_step d (with_prayer_requests d (update_where p f (prayer_requests d))).
Proof.
  intros Hf. apply Forall2_update_where; [apply keeps_non_negative_refl | exact Hf].
Qed.

Lemma keeps_decr pr : keeps_non_negative pr (set_active_prayers_decr pr).
Proof. split; simpl; [reflexivity | lia]. Qed.

Lemma keeps_incr pr : keeps_non_negative pr (set_active_prayers_incr pr).
Proof. split; simpl; [reflexivity | lia]. Qed.

Lemma keeps_both pr : keeps_non_negative pr (set_both_incr pr).
Proof. split; simpl; [reflexivity | lia]. Qed.

Lemma keeps_count pr : keeps_non_negative pr (set_prayer_count_incr pr).
Proof. split; simpl; [reflexivity | lia]. Qed.

Ltac statement_steps_by refl upd :=
  let d := fresh "d" in let rows := fresh "rows" in
  let d' := fresh "d'" in let E := fresh "E" in
  intros d rows d' E; cbv delta [select_active_request select_request select_device_prayer
    insert_device_prayer update_prayer_count update_start_praying update_pray
    update_stop_praying update_completed_at update_active_prayers_decr] in E;
  cbv beta in E;
  repeat match type of E with
         | context [match ?x with _ => _ end] => destruct x; try discriminate
         | context [if ?x then _ else _] => destruct x; try discriminate
         end;
  inversion E; subst; first [apply refl | upd].

Ltac handler_steps_by refl trans stmt :=
  repeat first
    [ apply validation_steps; [exact refl|]
    | apply try_catch_steps
    | apply bind_steps; [exact trans| |intro]
    | apply if_steps
    | apply ret_steps; exact refl
    | apply pool_query_steps; [exact refl|]; stmt ].

Ltac gauge_statement :=
  statement_steps_by gauge_step_refl
    ltac:(first [ apply gauge_update; first [exact keeps_decr | exact keeps_incr
                                            | exact keeps_both | exact keeps_count]
                | apply Forall2_same, keeps_non_negative_refl ]).

Lemma serve_gauge now c : handler_steps gauge_step (serve now c).
Proof.
  destruct c; simpl;
    [unfold post_join | unfold post_start_praying | unfold post_stop_praying
    | unfold post_pray | unfold post_complete];
    handler_steps_by gauge_step_refl gauge_step_trans gauge_statement.
Qed.

Lemma run_steps (R : database -> database -> Prop) :
  (forall d, R d d) -> (forall a b c, R a b -> R b c -> R a c) ->
  (forall now c, handler_steps R (serve now c)) ->
  forall calls w, R (db w) (db (run calls w)).
Proof.
  intros Hr Ht Hs calls. induction calls as [|[now c] rest IH]; intros w; simpl.
  - apply Hr.
  - eapply Ht; [apply Hs | apply IH].
Qed.

Lemma find_request_id id d pr : find_request id d = Some pr -> pr_id pr = id.
Proof.
  unfold find_request. intros H. apply find_some in H. destruct H as [_ H].
  unfold where_id in H. lia.
Qed.

Lemma find_request_live now id d pr :
  find_request id d = Some pr -> now < pr_expires_at pr ->
  where_id_active now id pr = true.
Proof.
  intros H Hl. unfold where_id_active. rewrite (find_request_id _ _ _ H).
  rewrite Z.eqb_refl. simpl. lia.
Qed.

Lemma find_request_live_rows now id d pr :
  find_request id d = Some pr -> now < pr_expires_at pr ->
  exists rest, filter (where_id_active now id) (prayer_requests d) = pr :: rest.
Proof.
  unfold find_request. induction (prayer_requests d) as [|x t IH]; simpl; [discriminate|].
  unfold where_id_active at 1. unfold where_id at 1.
  destruct (pr_id x =? id) eqn:E; simpl.
  - intros H Hl. inversion H; subst x.
    replace (now <? pr_expires_at pr) with true by lia. eauto.
  - exact IH.
Qed.

Lemma find_request_updated p f id d pr :
  (forall x, pr_id (f x) = pr_id x) ->
  find_request id d = Some pr -> p pr = true ->
  find_request id (with_prayer_requests d (update_where p f (prayer_requests d))) =
  Some (f pr).
Proof.
  intros Hf H Hp. unfold find_request in *. simpl.
  rewrite find_update_where by (apply where_id_set, Hf).
  rewrite H. simpl. now rewrite Hp.
Qed.

(** C7: along any run of calls, on any pool, every request whose
    [active_prayers] is non-negative keeps it non-negative; on a live request
    stop-praying leaves [max(active_prayers - 1, 0)], and so does complete for
    a device with an open link. *)
Theorem active_prayers_never_negative :
  forall calls w,
    Forall2 keeps_non_negative (prayer_requests (db w)) (prayer_requests (db (run calls w)))
    /\ (forall now id device_id pr,
          faults w = [] -> falsy device_id = false ->
          find_request id (db w) = Some pr -> now < pr_expires_at pr ->
          option_map pr_active_prayers
            (find_request id (db (snd (post_stop_praying now id device_id w)))) =
          Some (Z.max (pr_active_prayers pr - 1) 0))
    /\ (forall now id device_id pr,
          faults w = [] -> falsy device_id = false ->
          find_request id (db w) = Some pr ->
          existsb (where_device_request_open device_id id) (device_prayers (db w)) = true ->
          option_map pr_active_prayers
            (find_request id (db (snd (post_complete now id device_id w)))) =
          Some (Z.max (pr_active_prayers pr - 1) 0)).
Proof.
  intros calls w. split; [|split].
  - exact (run_steps gauge_step gauge_step_refl gauge_step_trans serve_gauge calls w).
  - intros now id device_id pr Hw Hd Hf Hl.
    rewrite post_stop_praying_healthy by assumption.
    destruct (find_request_live_rows _ _ _ _ Hf Hl) as [rest E]. rewrite E. simpl.
    rewrite (find_request_updated (where_id_active now id) set_active_prayers_decr
               _ _ _ (fun _ => eq_refl) Hf (find_request_live _ _ _ _ Hf Hl)).
    reflexivity.
  - intros now id device_id pr Hw Hd Hf Ho.
    rewrite post_complete_healthy
      by (try assumption; exact (open_link_holds_request_id device_id id _ Ho)).
    destruct (no_rows _) eqn:E.
    + apply no_rows_nil, filter_nil_existsb in E. congruence.
    + simpl. change (option_map pr_active_prayers
        (find_request id (with_prayer_requests (db w)
           (update_where (where_id id) set_active_prayers_decr (prayer_requests (db w)))))
        = Some (Z.max (pr_active_prayers pr - 1) 0)).
      rewrite (find_request_updated (where_id id) set_active_prayers_decr
                 _ _ _ (fun _ => eq_refl) Hf).
      * reflexivity.
      * unfold where_id. rewrite (find_request_id _ _ _ Hf). apply Z.eqb_refl.
Qed.

(** ** The legacy pray *)

Lemma pray_room_no_limit n now id d :
  1 <= n -> pray_room n id d ->
  existsb (fun pr => where_id_active now id pr && at_limit pr) (prayer_requests d) = false.
Proof.
  intros Hn Hroom. unfold pray_room in Hroom.
  destruct (existsb _ _) eqn:E; [|reflexivity].
  apply existsb_exists in E. destruct E as (pr & Hin & Hpr).
  apply andb_true_iff in Hpr. destruct Hpr as [Hw Hl].
  rewrite Forall_forall in Hroom. specialize (Hroom pr Hin).
  unfold where_id_active in Hw. apply andb_true_iff in Hw. destruct Hw as [Hid _].
  apply Z.eqb_eq in Hid. destruct (Hroom Hid) as [Hc Ha].
  unfold at_limit, int4_max in *. apply orb_true_iff in Hl. lia.
Qed.

Lemma pray_room_after n now id d :
  0 <= n -> pray_room (n + 1) id d ->
  pray_room n id
    (with_prayer_requests d
       (update_where (where_id_active now id) set_both_incr (prayer_requests d))).
Proof.
  intros Hn Hroom. unfold pray_room in *. cbn [prayer_requests with_prayer_requests].
  unfold update_where. apply Forall_map. eapply Forall_impl; [|exact Hroom].
  intros pr Hpr. cbv beta in *.
  destruct (where_id_active now id pr); cbn; intros Hid; specialize (Hpr Hid); lia.
Qed.

Lemma pray_once now id w pr :
  faults w = [] -> find_request id (db w) = Some pr -> now < pr_expires_at pr ->
  pray_room 1 id (db w) ->
  post_pray now id w =
  (res_json (JsonRequest (set_both_incr pr)),
   after w (with_prayer_requests (db w)
              (update_where (where_id_active now id) set_both_incr
                 (prayer_requests (db w))))).
Proof.
  intros Hw Hf Hl Hroom.
  rewrite post_pray_healthy;
    [| exact Hw | exact (request_holds_id _ _ _ Hf)
     | apply (pray_room_no_limit 1); [lia | exact Hroom] ].
  destruct (find_request_live_rows _ _ _ _ Hf Hl) as [rest E].
  unfold returning. rewrite E. reflexivity.
Qed.

Lemma pray_room_less n m id d : m <= n -> pray_room n id d -> pray_room m id d.
Proof.
  intros Hm Hroom. unfold pray_room in *. eapply Forall_impl; [|exact Hroom].
  intros pr Hpr Hid. specialize (Hpr Hid). lia.
Qed.

Lemma pray_many id nows : forall w pr,
  faults w = [] -> find_request id (db w) = Some pr ->
  Forall (fun now => now < pr_expires_at pr) nows ->
  pray_room (Z.of_nat (List.length nows)) id (db w) ->
  exists pr',
    find_request id (db (run (pray_calls id nows) w)) = Some pr' /\
    pr_prayer_count pr' = pr_prayer_count pr + Z.of_nat (List.length nows) /\
    pr_active_prayers pr' = pr_active_prayers pr + Z.of_nat (List.length nows) /\
    device_prayers (db (run (pray_calls id nows) w)) = device_prayers (db w).
Proof.
  induction nows as [|now nows IH]; intros w pr Hw Hf Hl Hroom.
  - exists pr. simpl. rewrite !Z.add_0_r. auto.
  - inversion Hl as [|? ? Hnow Hrest]; subst.
    cbn [List.length] in Hroom. rewrite Nat2Z.inj_succ in Hroom.
    assert (Hone : pray_room 1 id (db w)).
    { apply (pray_room_less (Z.succ (Z.of_nat (List.length nows)))); [lia | exact Hroom]. }
    simpl run. rewrite (pray_once _ _ _ _ Hw Hf Hnow Hone). simpl snd.
    destruct (IH (after w (with_prayer_requests (db w)
                    (update_where (where_id_active now id) set_both_incr
                       (prayer_requests (db w))))) (set_both_incr pr))
      as (pr' & F & C & G & D).
    + reflexivity.
    + simpl db.
      apply (find_request_updated (where_id_active now id) set_both_incr
               _ _ _ (fun _ => eq_refl) Hf (find_request_live _ _ _ _ Hf Hnow)).
    + exact Hrest.
    + simpl db. apply pray_room_after; [lia|].
      replace (Z.of_nat (List.length nows) + 1) with (Z.succ (Z.of_nat (List.length nows)))
        by lia.
      exact Hroom.
    + exists pr'. simpl List.length. rewrite Nat2Z.inj_succ.
      simpl in C, G, D. repeat split; [exact F | lia | lia | exact D].
Qed.

(** The claim C6 fails at the limit of INTEGER: on a live request whose
    [prayer_count] is 2147483647 the legacy pray answers 500, logs the error
    and leaves both counters as they were. *)
Lemma pray_at_the_limit_is_refused :
  find_request 1 (db (healthy counted_out)) = Some counted_out_row /\
  10 < pr_expires_at counted_out_row /\
  fst (post_pray 10 1 (healthy counted_out)) =
    res_status_json 500 internal_server_error /\
  List.length (console (snd (post_pray 10 1 (healthy counted_out)))) = 1%nat /\
  find_request 1 (db (snd (post_pray 10 1 (healthy counted_out)))) = Some counted_out_row /\
  fst (post_pray 10 1 (healthy counted_out)) <>
    res_json (JsonRequest (set_both_incr counted_out_row)).
Proof. vm_compute. repeat split; discriminate. Qed.

(** C6, amended: on an existing live request one legacy pray call answers
    with the request after both counters went up by one and writes no link;
    N calls in a row, from whatever caller, raise both counters by exactly N;
    all this as long as the counters stay within INTEGER.  A call on a
    request with a counter at 2147483647 is refused with status 500 and
    changes no table. *)
Theorem pray_counts_every_call :
  forall id nows w pr,
    faults w = [] ->
    find_request id (db w) = Some pr ->
    Forall (fun now => now < pr_expires_at pr) nows ->
    (pray_room (Z.of_nat (List.length nows)) id (db w) ->
     (forall now, In now nows ->
        fst (post_pray now id w) = res_json (JsonRequest (set_both_incr pr)) /\
        pr_prayer_count (set_both_incr pr) = pr_prayer_count pr + 1 /\
        pr_active_prayers (set_both_incr pr) = pr_active_prayers pr + 1 /\
        find_request id (db (snd (post_pray now id w))) = Some (set_both_incr pr) /\
        device_prayers (db (snd (post_pray now id w))) = device_prayers (db w)) /\
     (exists pr',
        find_request id (db (run (pray_calls id nows) w)) = Some pr' /\
        pr_prayer_count pr' = pr_prayer_count pr + Z.of_nat (List.length nows) /\
        pr_active_prayers pr' = pr_active_prayers pr + Z.of_nat (List.length nows) /\
        device_prayers (db (run (pray_calls id nows) w)) = device_prayers (db w))) /\
    (forall now, now < pr_expires_at pr -> at_limit pr = true ->
       status (fst (post_pray now id w)) = 500 /\
       db (snd (post_pray now id w)) = db w).
Proof.
  intros id nows w pr Hw Hf Hl. split; [intros Hroom; split; [|now apply pray_many]|].
  - intros now Hin.
    assert (Hone : pray_room 1 id (db w)).
    { apply (pray_room_less (Z.of_nat (List.length nows))); [|exact Hroom].
      destruct nows; [contradiction | cbn [List.length]; lia]. }
    rewrite Forall_forall in Hl. specialize (Hl now Hin).
    rewrite (pray_once _ _ _ _ Hw Hf Hl Hone). simpl.
    repeat split.
    apply (find_request_updated (where_id_active now id) set_both_incr
             _ _ _ (fun _ => eq_refl) Hf (find_request_live _ _ _ _ Hf Hl)).
  - intros now Hlive Hlimit.
    rewrite post_pray_at_limit; [split; reflexivity | exact Hw | | ].
    + exact (request_holds_id _ _ _ Hf).
    + apply existsb_exists. exists pr. split.
      * unfold find_request in Hf. now apply find_some in Hf.
      * rewrite (find_request_live _ _ _ _ Hf Hlive). exact Hlimit.
Qed.

(** ** start-praying and stop-praying read [device_id] for presence only *)

(** C10: on any pool, two present device ids give start-praying the same
    answer and the same state, and likewise stop-praying; an absent (or
    empty) device id gives the validation error and changes nothing. *)
Theorem praying_ignores_device_id :
  forall now id w d1 d2,
    falsy d1 = false -> falsy d2 = false ->
    post_start_praying now id d1 w = post_start_praying now id d2 w /\
    post_stop_praying now id d1 w = post_stop_praying now id d2 w /\
    (forall d, falsy d = true ->
       post_start_praying now id d w = (device_id_required, w) /\
       post_stop_praying now id d w = (device_id_required, w)).
Proof.
  intros now id w d1 d2 H1 H2.
  unfold post_start_praying, post_stop_praying. rewrite H1, H2.
  repeat split; intros; rewrite H; reflexivity.
Qed.

(** ** Requests that are absent or expired *)

Lemma no_link_of_absent_request device_id id d :
  foreign_keys_hold d -> find_request id d = None ->
  existsb (where_device_request_open device_id id) (device_prayers d) = false.
Proof.
  unfold foreign_keys_hold, find_request. intros Hfk Hnone.
  apply filter_nil_existsb.
  induction (device_prayers d) as [|dp t IH]; simpl; [reflexivity|].
  inversion Hfk as [|? ? Hdp Ht]; subst.
  unfold where_device_request_open at 1, where_device_request.
  destruct (dp_prayer_request_id dp =? id) eqn:E.
  - exfalso. apply Z.eqb_eq in E. subst id.
    apply existsb_exists in Hdp. destruct Hdp as (pr & Hin & Hpr).
    apply (find_none _ _ Hnone) in Hin. congruence.
  - rewrite andb_false_r. simpl. apply IH, Ht.
Qed.

Lemma fresh_request_created :
  post_prayer_requests 0 (Some 16) None None (Some "creator"%string)
    (healthy (with_topics seeded_topics)) =
  (res_status_json 201 (JsonRequest fresh_row), healthy fresh_request).
Proof. reflexivity. Qed.

Lemma expired_with_open_link_reached :
  run [(10, Join 1 (Some "A"%string)); (11, StartPraying 1 (Some "A"%string))]
      (healthy fresh_request) = healthy expired_with_open_link.
Proof. reflexivity. Qed.

(** The claim C2 fails for complete: the request of [expired_with_open_link]
    is expired at time 90000, yet complete answers 200 and rewrites both
    tables. *)
Lemma complete_on_expired_request_succeeds :
  filter (where_id_active 90000 1)
    (prayer_requests (db (healthy expired_with_open_link))) = [] /\
  fst (post_complete 90000 1 (Some "A"%string) (healthy expired_with_open_link)) =
    res_json (JsonMessage "Prayer completed successfully") /\
  option_map pr_active_prayers
    (find_request 1
       (db (snd (post_complete 90000 1 (Some "A"%string)
                   (healthy expired_with_open_link))))) = Some 0 /\
  map dp_completed_at
    (device_prayers
       (db (snd (post_complete 90000 1 (Some "A"%string)
                   (healthy expired_with_open_link))))) = [Some 90000] /\
  snd (post_complete 90000 1 (Some "A"%string) (healthy expired_with_open_link)) <>
    healthy expired_with_open_link.
Proof. vm_compute. repeat split; discriminate. Qed.

(** C2, amended: for a request id within INTEGER with no live request of
    that id, on a healthy pool, join, start-praying, stop-praying (device id
    present) and the legacy pray answer 404 and leave the state as it was;
    complete, whose statement takes the device id as a text parameter, does
    so when the pair has no open link, which is the case of every absent id
    in a store whose links reference stored requests. *)
Theorem no_live_request_not_found :
  forall now id device_id w,
    faults w = [] -> falsy device_id = false -> int4 id ->
    filter (where_id_active now id) (prayer_requests (db w)) = [] ->
    post_join now id device_id w = (not_found_or_expired, w) /\
    post_start_praying now id device_id w = (not_found_or_expired, w) /\
    post_stop_praying now id device_id w = (not_found_or_expired, w) /\
    post_pray now id w = (not_found_or_expired, w) /\
    (text_field device_id = true ->
     existsb (where_device_request_open device_id id) (device_prayers (db w)) = false ->
     post_complete now id device_id w = (not_found_or_completed, w)) /\
    (text_field device_id = true ->
     foreign_keys_hold (db w) -> find_request id (db w) = None ->
     post_complete now id device_id w = (not_found_or_completed, w)).
Proof.
  intros now id device_id w Hw Hd Hid Hnone.
  assert (Hc : text_field device_id = true ->
               existsb (where_device_request_open device_id id) (device_prayers (db w)) = false ->
               post_complete now id device_id w = (not_found_or_completed, w)).
  { intros _ Ho. rewrite post_complete_healthy
      by (try assumption; now apply integer_param_int4).
    apply filter_nil_existsb in Ho. now rewrite Ho. }
  repeat split.
  - destruct device_id as [d|]; [|discriminate].
    rewrite post_join_healthy by assumption. now rewrite Hnone.
  - rewrite post_start_praying_healthy by assumption. now rewrite Hnone.
  - rewrite post_stop_praying_healthy by assumption. now rewrite Hnone.
  - rewrite post_pray_healthy;
      [now rewrite Hnone | exact Hw | now apply integer_param_int4
       | now apply no_row_at_limit].
  - exact Hc.
  - intros Ht Hfk Habsent. apply (Hc Ht). now apply no_link_of_absent_request.
Qed.

(** ** Joining twice *)


Lemma rejoin now id device_id w :
  faults w = [] -> falsy device_id = false ->
  no_rows (filter (where_id_active now id) (prayer_requests (db w))) = false ->
  existsb (where_device_request device_id id) (device_prayers (db w)) = true ->
  post_join now id device_id w =
  (res_json (rows_0 (filter (where_id id) (prayer_requests (db w)))), w).
Proof.
  intros Hw Hd Hlive Hlink.
  destruct device_id as [d|]; [|discriminate].
  rewrite post_join_healthy by assumption. rewrite Hlive.
  destruct (no_rows (filter (where_device_request _ _) _)) eqn:E; [|reflexivity].
  apply no_rows_nil, filter_nil_existsb in E. congruence.
Qed.



(** ** Completing *)

Lemma completion_kept_refl d : completion_kept d d.
Proof. intros dp H _. exact H. Qed.

Lemma completion_kept_trans a b c :
  completion_kept a b -> completion_kept b c -> completion_kept a c.
Proof. intros H1 H2 dp Hin Hc. apply H2; [apply H1|]; assumption. Qed.

Lemma completed_row_not_rewritten now device_id id dp (t : list device_prayer) :
  In dp t -> dp_completed_at dp <> None ->
  In dp (update_where (where_device_request_open device_id id) (set_completed_at now) t).
Proof.
  intros Hin Hc. unfold update_where. apply in_map_iff. exists dp. split; [|exact Hin].
  unfold where_device_request_open.
  destruct (dp_completed_at dp); [|congruence].
  now rewrite andb_false_r.
Qed.

Ltac completion_statement :=
  statement_steps_by completion_kept_refl
    ltac:(let dp := fresh "dp" in let Hin := fresh "Hin" in let Hc := fresh "Hc" in
          intros dp Hin Hc; simpl;
          first [ exact Hin
                | apply in_or_app; left; exact Hin
                | apply completed_row_not_rewritten; assumption ]).

Lemma serve_completion_kept now c : handler_steps completion_kept (serve now c).
Proof.
  destruct c; simpl;
    [unfold post_join | unfold post_start_praying | unfold post_stop_praying
    | unfold post_pray | unfold post_complete];
    handler_steps_by completion_kept_refl completion_kept_trans completion_statement.
Qed.

Lemma open_rows_closed now device_id id (t : list device_prayer) :
  existsb (where_device_request_open device_id id)
    (update_where (where_device_request_open device_id id) (set_completed_at now) t) = false.
Proof.
  induction t as [|dp t IH]; simpl; [reflexivity|].
  destruct (where_device_request_open device_id id dp) eqn:E.
  - unfold where_device_request_open at 1. simpl.
    rewrite andb_false_r. exact IH.
  - rewrite E. exact IH.
Qed.

Lemma links_of_pair_completed now device_id id (t : list device_prayer) :
  Forall (fun dp => where_device_request device_id id dp = true ->
                    dp_completed_at dp <> None)
    (update_where (where_device_request_open device_id id) (set_completed_at now) t).
Proof.
  apply Forall_forall. intros dp' Hin. unfold update_where in Hin.
  apply in_map_iff in Hin. destruct Hin as (dp & E & _). subst dp'.
  unfold where_device_request_open.
  destruct (where_device_request device_id id dp) eqn:W; simpl.
  - destruct (dp_completed_at dp) eqn:C; simpl; intros _; congruence.
  - congruence.
Qed.

Lemma never_joined_not_open device_id id (t : list device_prayer) :
  existsb (where_device_request device_id id) t = false ->
  existsb (where_device_request_open device_id id) t = false.
Proof.
  induction t as [|dp t IH]; simpl; [reflexivity|].
  unfold where_device_request_open at 1.
  destruct (where_device_request device_id id dp); simpl; [discriminate|exact IH].
Qed.

(** The claim C5 fails for a request id outside INTEGER: the pair has no
    open link, and complete answers 500, not NotFound; it logs the error and
    writes nothing. *)
Lemma complete_out_of_range_is_refused :
  existsb (where_device_request_open (Some "A"%string) 2147483648)
    (device_prayers (db two_devices_joined)) = false /\
  fst (post_complete 20 2147483648 (Some "A"%string) two_devices_joined) =
    res_status_json 500 internal_server_error /\
  fst (post_complete 20 2147483648 (Some "A"%string) two_devices_joined) <>
    not_found_or_completed /\
  db (snd (post_complete 20 2147483648 (Some "A"%string) two_devices_joined)) =
    db two_devices_joined /\
  List.length (console (snd (post_complete 20 2147483648 (Some "A"%string)
                               two_devices_joined))) =
    S (List.length (console two_devices_joined)).
Proof. vm_compute. repeat split; discriminate. Qed.

(** C5, amended: on a healthy pool, for a request id within INTEGER and a
    device id PostgreSQL takes as a text, complete answers NotFound exactly
    when the pair has no link with [completed_at] NULL, with the same answer
    for a pair that never joined and for a pair completed before; any other
    answer is, when the gauge of the request can go down within INTEGER, the
    success: [completed_at] is set on the pair's links; and no later call of
    any run, on any pool, unsets or removes a completed link. *)
Theorem complete_not_found_iff :
  forall now now' id device_id w,
    faults w = [] -> falsy device_id = false -> int4 id ->
    text_field device_id = true ->
    (fst (post_complete now id device_id w) = not_found_or_completed <->
     existsb (where_device_request_open device_id id) (device_prayers (db w)) = false) /\
    (existsb (where_device_request device_id id) (device_prayers (db w)) = false ->
     post_complete now id device_id w = (not_found_or_completed, w)) /\
    (fst (post_complete now id device_id w) <> not_found_or_completed ->
     gauge_may_drop id (db w) ->
     let w1 := snd (post_complete now id device_id w) in
     status (fst (post_complete now id device_id w)) = 200 /\
     device_prayers (db w1) =
       update_where (where_device_request_open device_id id) (set_completed_at now)
         (device_prayers (db w)) /\
     Forall (fun dp => where_device_request device_id id dp = true ->
                       dp_completed_at dp <> None) (device_prayers (db w1)) /\
     post_complete now' id device_id w1 = (not_found_or_completed, w1)) /\
    (forall calls w0, completion_kept (db w0) (db (run calls w0))).
Proof.
  intros now now' id device_id w Hw Hd Hid _.
  pose proof (integer_param_int4 id) as Hin.
  assert (Hnf : existsb (where_device_request_open device_id id)
                  (device_prayers (db w)) = false ->
                post_complete now id device_id w = (not_found_or_completed, w)).
  { intros Ho. rewrite post_complete_healthy by (try assumption; apply Hin, Hid).
    apply filter_nil_existsb in Ho. now rewrite Ho. }
  split; [|split; [|split]].
  - split; [|intros Ho; now rewrite Hnf].
    rewrite post_complete_healthy by (try assumption; apply Hin, Hid).
    destruct (no_rows _) eqn:E; simpl.
    + intros _. now apply filter_nil_existsb, no_rows_nil.
    + discriminate.
  - intros Hnever. apply Hnf, never_joined_not_open, Hnever.
  - rewrite post_complete_healthy by (try assumption; apply Hin, Hid).
    destruct (no_rows _) eqn:E; simpl; [congruence|].
    intros _ _. repeat split.
    + apply links_of_pair_completed.
    + rewrite post_complete_healthy by (try reflexivity; try assumption; apply Hin, Hid). simpl.
      pose proof (open_rows_closed now device_id id (device_prayers (db w))) as C.
      apply filter_nil_existsb in C. now rewrite C.
  - exact (run_steps completion_kept completion_kept_refl completion_kept_trans
             serve_completion_kept).
Qed.

(** ** The counting invariant *)

Lemma counts_links_update p f d :
  (forall pr, pr_id (f pr) = pr_id pr) ->
  (forall pr, pr_prayer_count (f pr) = pr_prayer_count pr) ->
  counts_links d ->
  counts_links (with_prayer_requests d (update_where p f (prayer_requests d))).
Proof.
  unfold counts_links. intros Hid Hc H. simpl.
  unfold update_where. apply Forall_map. eapply Forall_impl; [|exact H].
  intros pr Hpr. simpl in Hpr.
  destruct (p pr); [rewrite Hid, Hc|]; exact Hpr.
Qed.

Lemma count_links_completed now device_id id id' d :
  count_links id'
    (with_device_prayers d
       (update_where (where_device_request_open device_id id) (set_completed_at now)
          (device_prayers d))) = count_links id' d.
Proof.
  unfold count_links. simpl.
  rewrite filter_update_where by reflexivity.
  now rewrite update_where_length.
Qed.

Lemma count_links_joined now s id id' d :
  count_links id' (joined now s id d) =
  count_links id' d + (if id =? id' then 1 else 0).
Proof.
  unfold count_links, joined. simpl. rewrite filter_app, length_app. simpl.
  destruct (id =? id'); simpl; lia.
Qed.

Lemma counts_links_joined now s id d :
  counts_links d -> counts_links (joined now s id d).
Proof.
  unfold counts_links. intros H.
  change (prayer_requests (joined now s id d))
    with (update_where (where_id id) set_prayer_count_incr (prayer_requests d)).
  unfold update_where. apply Forall_map. eapply Forall_impl; [|exact H].
  intros pr Hpr. simpl in Hpr. unfold where_id.
  destruct (pr_id pr =? id) eqn:E.
  - rewrite count_links_joined. simpl. apply Z.eqb_eq in E.
    rewrite E, Z.eqb_refl. rewrite <- E. lia.
  - rewrite count_links_joined. rewrite Z.eqb_sym, E. lia.
Qed.

Lemma counts_links_completed now device_id id d :
  counts_links d ->
  counts_links
    {| prayer_topics := prayer_topics d;
       prayer_requests :=
         update_where (where_id id) set_active_prayers_decr (prayer_requests d);
       device_prayers :=
         update_where (where_device_request_open device_id id)
           (set_completed_at now) (device_prayers d);
       prayer_requests_id_seq := prayer_requests_id_seq d;
       device_prayers_id_seq := device_prayers_id_seq d |}.
Proof.
  intros H.
  apply (counts_links_update (where_id id) set_active_prayers_decr
           (with_device_prayers d
              (update_where (where_device_request_open device_id id)
                 (set_completed_at now) (device_prayers d))));
    try reflexivity.
  unfold counts_links in *. simpl.
  eapply Forall_impl; [|exact H]. intros pr Hpr. simpl in Hpr.
  now rewrite count_links_completed.
Qed.

Lemma serve_counts_links now c w :
  faults w = [] -> is_pray c = false -> counts_links (db w) ->
  counts_links (db (snd (serve now c w))) /\ faults (snd (serve now c w)) = [].
Proof.
  intros Hw Hc H. destruct c as [id dev|id dev|id dev|id|id dev]; simpl in *;
    try discriminate.
  - destruct (falsy dev) eqn:Hd.
    + unfold post_join. rewrite Hd. auto.
    + destruct dev as [d|]; [|discriminate].
      rewrite post_join_healthy by assumption.
      destruct (no_rows _); [auto|].
      destruct (no_rows _); [|auto].
      simpl. split; [now apply counts_links_joined | reflexivity].
  - destruct (falsy dev) eqn:Hd.
    + unfold post_start_praying. rewrite Hd. auto.
    + rewrite post_start_praying_healthy by assumption.
      destruct (no_rows _); [auto|]. simpl.
      split; [now apply counts_links_update | reflexivity].
  - destruct (falsy dev) eqn:Hd.
    + unfold post_stop_praying. rewrite Hd. auto.
    + rewrite post_stop_praying_healthy by assumption.
      destruct (no_rows _); [auto|]. simpl.
      split; [now apply counts_links_update | reflexivity].
  - destruct (falsy dev) eqn:Hd.
    + unfold post_complete. rewrite Hd. auto.
    + destruct (integer_param id (map dp_prayer_request_id (device_prayers (db w))))
        eqn:Hid.
      * rewrite post_complete_healthy by assumption.
        destruct (no_rows _); [auto|]. simpl.
        split; [now apply counts_links_completed | reflexivity].
      * rewrite post_complete_out_of_range by assumption. auto.
Qed.

(** The claim C1 fails for the legacy pray: one call on [fresh_request]
    raises [prayer_count] to 1 while the request has no link. *)
Lemma pray_breaks_counts_links :
  counts_links fresh_request /\
  ~ counts_links (db (run [(10, Pray 1)] (healthy fresh_request))).
Proof.
  split.
  - repeat constructor.
  - intros H. inversion H as [|pr t Hpr _]. vm_compute in Hpr. discriminate.
Qed.

(** Why the pool has to be healthy: join runs INSERT and UPDATE as two
    queries; when the connection rejects the fourth query of a first join,
    the link stays and [prayer_count] does not follow. *)
Lemma join_fault_leaves_uncounted_link :
  let w := {| db := fresh_request; faults := [false; false; false; true]; console := [] |} in
  status (fst (post_join 10 1 (Some "A"%string) w)) = 500 /\
  List.length (device_prayers (db (snd (post_join 10 1 (Some "A"%string) w)))) = 1%nat /\
  map pr_prayer_count (prayer_requests (db (snd (post_join 10 1 (Some "A"%string) w)))) = [0].
Proof. vm_compute. repeat split. Qed.

(** C1, amended: on a healthy pool, every run of join, start-praying,
    stop-praying and complete calls keeps, for every request,
    [prayer_count] equal to the number of its links. *)
Theorem counts_links_preserved :
  forall calls w,
    faults w = [] ->
    forallb (fun tc => negb (is_pray (snd tc))) calls = true ->
    counts_links (db w) ->
    counts_links (db (run calls w)).
Proof.
  induction calls as [|[now c] rest IH]; intros w Hw Hc H; simpl in *; [exact H|].
  apply andb_prop in Hc. destruct Hc as [Hc Hrest].
  apply negb_true_iff in Hc.
  destruct (serve_counts_links now c w Hw Hc H) as [H' Hw'].
  now apply IH.
Qed.

(** ** Failing queries *)

Ltac returns_no_500 :=
  repeat first
    [ apply bind_returns; intro
    | apply if_returns
    | apply ret_returns; simpl; discriminate ].

Lemma route_failure now e w :
  status (fst (route now e w)) = 500 ->
  fst (route now e w) = res_status_json 500 internal_server_error.
Proof.
  assert (G : forall body line w,
             task_returns (fun r => status r <> 500) body ->
             status (fst (try_catch body line internal_server_error w)) = 500 ->
             fst (try_catch body line internal_server_error w) =
             res_status_json 500 internal_server_error).
  { intros body line w0 Hb H500.
    destruct (try_catch_answers (fun r => status r <> 500) body line
                internal_server_error w0 Hb) as [Q|E]; [contradiction | exact E]. }
  destruct e as [[id dev|id dev|id dev|id|id dev]|id| | |t1 t2 des dev| |dev|]; simpl;
    [unfold post_join | unfold post_start_praying | unfold post_stop_praying
    | unfold post_pray | unfold post_complete | unfold delete_complete
    | unfold delete_cleanup_expired | unfold get_prayer_topics
    | unfold post_prayer_requests | unfold get_prayer_requests
    | unfold get_device_prayers | unfold post_reset_active_prayers];
    try (destruct (falsy dev); [simpl; discriminate|]);
    try (destruct (negb _); [simpl; discriminate|]);
    apply G; returns_no_500.
Qed.

(** The claim C9 fails on the status: with the pool down, the statistics
    handler does not answer as a success would, it answers status 500. *)
Lemma stats_failure_is_status_500 :
  fst (get_stats 10 (pool_down fresh_request)) <> res_json (JsonStats zero_stats) /\
  status (fst (get_stats 10 (pool_down fresh_request))) = 500.
Proof. vm_compute. split; [discriminate | reflexivity]. Qed.

(** C9, amended: when its query is rejected, the statistics handler logs the
    fault and answers status 500 with the zero-valued report as the body;
    every other route answers a status 500 with the error message as the
    body, so the statistics route is the only one that substitutes a report. *)
Theorem stats_failure_zero_report :
  forall now w fs,
    faults w = true :: fs ->
    get_stats now w =
    (res_status_json 500 (JsonStats zero_stats),
     {| db := db w; faults := fs;
        console := console w ++
          ["Error fetching prayer stats: connection terminated unexpectedly"%string] |}) /\
    (forall e w', status (fst (route now e w')) = 500 ->
                  body (fst (route now e w')) = JsonError "Internal server error").
Proof.
  intros now w fs Hw. split.
  - unfold get_stats, try_catch, bind.
    rewrite (pool_query_fault _ _ _ Hw). reflexivity.
  - intros e w' H. now rewrite (route_failure now e w' H).
Qed.

(** ** The statistics *)

Lemma sum_of_app {A} (e : A -> Z) l1 l2 :
  sum_of e (l1 ++ l2) = sum_of e l1 + sum_of e l2.
Proof. induction l1 as [|x l1 IH]; simpl; [reflexivity | rewrite IH; lia]. Qed.

Lemma sum_of_constant {A} (e : A -> Z) c l :
  Forall (fun x => e x = c) l -> sum_of e l = c * Z.of_nat (List.length l).
Proof.
  induction 1 as [|x l Hx _ IH]; [simpl; lia|].
  cbn [sum_of fold_right List.length]. fold (sum_of e l).
  rewrite IH, Hx, Nat2Z.inj_succ. lia.
Qed.

(** The joined rows of one request. *)
Lemma joined_rows_of_request d (e : prayer_request -> Z) pr :
  sum_of (fun row => e (fst row))
    match filter (fun dp => pr_id pr =? dp_prayer_request_id dp) (device_prayers d) with
    | [] => [(pr, None)]
    | dps => map (fun dp => (pr, Some dp)) dps
    end = e pr * fan_out d pr.
Proof.
  unfold fan_out, count_links.
  rewrite (filter_ext (fun dp => dp_prayer_request_id dp =? pr_id pr)
             (fun dp => pr_id pr =? dp_prayer_request_id dp))
    by (intros dp; apply Z.eqb_sym).
  destruct (filter _ (device_prayers d)) as [|dp dps]; [simpl; lia|].
  rewrite (sum_of_constant _ (e pr)).
  - rewrite length_map. f_equal. cbn [List.length]. lia.
  - apply Forall_forall. intros row Hrow. apply in_map_iff in Hrow.
    destruct Hrow as (x & <- & _). reflexivity.
Qed.

Lemma filter_joined_rows now pr
    (rows : list (prayer_request * option device_prayer)) :
  Forall (fun row => fst row = pr) rows ->
  filter (fun row => now <? pr_expires_at (fst row)) rows =
  if now <? pr_expires_at pr then rows else [].
Proof.
  induction 1 as [|row rows Hrow _ IH]; simpl; [now destruct (_ <? _)|].
  rewrite Hrow, IH. now destruct (now <? pr_expires_at pr).
Qed.

(** In general: each sum of the statistics query weighs a live request by the
    number of its joined rows. *)
Lemma stats_sums_weighted now d (e : prayer_request -> Z) :
  sum_of (fun row => e (fst row))
    (filter (fun row => now <? pr_expires_at (fst row)) (left_join_device_prayers d)) =
  sum_of (fun pr => e pr * fan_out d pr)
    (filter (fun pr => now <? pr_expires_at pr) (prayer_requests d)).
Proof.
  unfold left_join_device_prayers.
  induction (prayer_requests d) as [|pr prs IH]; [reflexivity|].
  cbn [flat_map]. rewrite filter_app, sum_of_app, IH. cbn [filter].
  rewrite (filter_joined_rows now pr).
  - destruct (now <? pr_expires_at pr).
    + rewrite joined_rows_of_request. reflexivity.
    + reflexivity.
  - destruct (filter _ (device_prayers d)) as [|dp dps]; [repeat constructor|].
    apply Forall_forall. intros row Hrow. apply in_map_iff in Hrow.
    destruct Hrow as (x & <- & _). reflexivity.
Qed.

(** C4: the sums of the statistics query run over the rows of the LEFT JOIN,
    so a request counts once per link.  After two devices joined one request
    ([prayer_count] 2, [active_prayers] 1) the handler reports 4 and 2 where
    the report over the requests is 2 and 1. *)
Theorem stats_sums_fan_out :
  map (fun pr => (pr_prayer_count pr, pr_active_prayers pr))
      (prayer_requests (db two_devices_joined)) = [(2, 1)] /\
  List.length (device_prayers (db two_devices_joined)) = 2%nat /\
  fst (get_stats 20 two_devices_joined) =
    res_json (JsonStats {| total_prayers := 4; active_prayers := 2;
                           completed_prayers := 0 |}) /\
  stats_report 20 (db two_devices_joined) =
    {| total_prayers := 2; active_prayers := 1; completed_prayers := 0 |}.
Proof. vm_compute. repeat split. Qed.

(** ** The theorems at concrete stores *)

Lemma pray_counts_every_call_witness :
  faults (healthy fresh_request) = [] /\
  find_request 1 (db (healthy fresh_request)) = Some fresh_row /\
  Forall (fun now => now < pr_expires_at fresh_row) [10; 11; 12] /\
  pray_room (Z.of_nat (List.length [10; 11; 12])) 1 (db (healthy fresh_request)) /\
  (exists pr',
    find_request 1 (db (run (pray_calls 1 [10; 11; 12]) (healthy fresh_request))) = Some pr' /\
    pr_prayer_count pr' = pr_prayer_count fresh_row + Z.of_nat (List.length [10; 11; 12]) /\
    pr_active_prayers pr' = pr_active_prayers fresh_row + Z.of_nat (List.length [10; 11; 12]) /\
    device_prayers (db (run (pray_calls 1 [10; 11; 12]) (healthy fresh_request))) =
    device_prayers (db (healthy fresh_request))) /\
  find_request 1 (db (healthy counted_out)) = Some counted_out_row /\
  10 < pr_expires_at counted_out_row /\ at_limit counted_out_row = true /\
  status (fst (post_pray 10 1 (healthy counted_out))) = 500 /\
  db (snd (post_pray 10 1 (healthy counted_out))) = db (healthy counted_out).
Proof.
  assert (Hl : Forall (fun now => now < pr_expires_at fresh_row) [10; 11; 12])
    by (repeat constructor).
  assert (Hroom : pray_room (Z.of_nat (List.length [10; 11; 12])) 1
                    (db (healthy fresh_request))).
  { constructor; [|constructor]. intros _. split; intros C; discriminate C. }
  split; [reflexivity|]. split; [reflexivity|]. split; [exact Hl|]. split; [exact Hroom|].
  split.
  - exact (proj2 (proj1 (pray_counts_every_call 1 [10; 11; 12] (healthy fresh_request)
                           fresh_row eq_refl eq_refl Hl) Hroom)).
  - split; [reflexivity|]. split; [reflexivity|]. split; [reflexivity|].
    exact (proj2 (pray_counts_every_call 1 [] (healthy counted_out) counted_out_row
                    eq_refl eq_refl (Forall_nil _)) 10 eq_refl eq_refl).
Defined.

Lemma praying_ignores_device_id_witness :
  falsy (Some "A"%string) = false /\ falsy (Some "B"%string) = false /\
  post_start_praying 10 1 (Some "A"%string) (healthy fresh_request) =
  post_start_praying 10 1 (Some "B"%string) (healthy fresh_request) /\
  post_stop_praying 10 1 (Some "A"%string) (healthy fresh_request) =
  post_stop_praying 10 1 (Some "B"%string) (healthy fresh_request).
Proof.
  split; [reflexivity|]. split; [reflexivity|].
  pose proof (praying_ignores_device_id 10 1 (healthy fresh_request)
                (Some "A"%string) (Some "B"%string) eq_refl eq_refl) as H.
  exact (conj (proj1 H) (proj1 (proj2 H))).
Defined.

Lemma no_live_request_not_found_witness :
  faults (healthy expired_with_open_link) = [] /\
  falsy (Some "B"%string) = false /\ int4 1 /\
  filter (where_id_active 90000 1) (prayer_requests (db (healthy expired_with_open_link))) = [] /\
  post_join 90000 1 (Some "B"%string) (healthy expired_with_open_link) =
    (not_found_or_expired, healthy expired_with_open_link) /\
  post_pray 90000 1 (healthy expired_with_open_link) =
    (not_found_or_expired, healthy expired_with_open_link) /\
  post_complete 90000 1 (Some "B"%string) (healthy expired_with_open_link) =
    (not_found_or_completed, healthy expired_with_open_link).
Proof.
  assert (Hid : int4 1) by (split; intros C; discriminate C).
  split; [reflexivity|]. split; [reflexivity|]. split; [exact Hid|]. split; [reflexivity|].
  pose proof (no_live_request_not_found 90000 1 (Some "B"%string)
                (healthy expired_with_open_link) eq_refl eq_refl Hid eq_refl) as H.
  split; [exact (proj1 H)|]. split; [exact (proj1 (proj2 (proj2 (proj2 H))))|].
  exact (proj1 (proj2 (proj2 (proj2 (proj2 H)))) eq_refl eq_refl).
Defined.


Lemma complete_not_found_iff_witness :
  faults two_devices_joined = [] /\ falsy (Some "A"%string) = false /\ int4 1 /\
  text_field (Some "A"%string) = true /\ text_field (Some "C"%string) = true /\
  fst (post_complete 20 1 (Some "A"%string) two_devices_joined) <> not_found_or_completed /\
  gauge_may_drop 1 (db two_devices_joined) /\
  post_complete 30 1 (Some "A"%string)
    (snd (post_complete 20 1 (Some "A"%string) two_devices_joined)) =
  (not_found_or_completed, snd (post_complete 20 1 (Some "A"%string) two_devices_joined)) /\
  post_complete 20 1 (Some "C"%string) two_devices_joined =
  (not_found_or_completed, two_devices_joined).
Proof.
  assert (Hok : fst (post_complete 20 1 (Some "A"%string) two_devices_joined)
                <> not_found_or_completed) by (vm_compute; discriminate).
  assert (Hid : int4 1) by (split; intros C; discriminate C).
  assert (Hg : gauge_may_drop 1 (db two_devices_joined)).
  { constructor; [|constructor]. intros _. reflexivity. }
  split; [reflexivity|]. split; [reflexivity|]. split; [exact Hid|].
  split; [reflexivity|]. split; [reflexivity|]. split; [exact Hok|]. split; [exact Hg|].
  pose proof (complete_not_found_iff 20 30 1 (Some "A"%string) two_devices_joined
                eq_refl eq_refl Hid eq_refl) as HA.
  pose proof (complete_not_found_iff 20 30 1 (Some "C"%string) two_devices_joined
                eq_refl eq_refl Hid eq_refl) as HC.
  split.
  - exact (proj2 (proj2 (proj2 (proj1 (proj2 (proj2 HA)) Hok Hg)))).
  - exact (proj1 (proj2 HC) eq_refl).
Defined.

Lemma active_prayers_never_negative_witness :
  faults two_devices_joined = [] /\ falsy (Some "B"%string) = false /\
  Forall2 keeps_non_negative
    (prayer_requests (db (healthy fresh_request)))
    (prayer_requests
       (db (run [(10, StopPraying 1 (Some "B"%string)); (11, Complete 1 (Some "B"%string))]
              (healthy fresh_request)))) /\
  option_map pr_active_prayers
    (find_request 1 (db (snd (post_stop_praying 20 1 (Some "B"%string) two_devices_joined)))) =
  Some (Z.max (1 - 1) 0).
Proof.
  split; [reflexivity|]. split; [reflexivity|]. split.
  - exact (proj1 (active_prayers_never_negative
                    [(10, StopPraying 1 (Some "B"%string)); (11, Complete 1 (Some "B"%string))]
                    (healthy fresh_request))).
  - exact (proj1 (proj2 (active_prayers_never_negative [] two_devices_joined))
             20 1 (Some "B"%string)
             (set_active_prayers_incr (set_prayer_count_incr (set_prayer_count_incr fresh_row)))
             eq_refl eq_refl eq_refl eq_refl).
Defined.

Lemma counts_links_preserved_witness :
  faults (healthy fresh_request) = [] /\
  counts_links (db (healthy fresh_request)) /\
  counts_links
    (db (run [(10, Join 1 (Some "A"%string)); (11, Join 1 (Some "B"%string));
              (12, StartPraying 1 (Some "A"%string)); (13, Join 1 (Some "A"%string));
              (14, Complete 1 (Some "A"%string)); (15, StopPraying 1 (Some "B"%string))]
           (healthy fresh_request))).
Proof.
  assert (H0 : counts_links (db (healthy fresh_request))) by (repeat constructor).
  split; [reflexivity|]. split; [exact H0|].
  exact (counts_links_preserved
           [(10, Join 1 (Some "A"%string)); (11, Join 1 (Some "B"%string));
            (12, StartPraying 1 (Some "A"%string)); (13, Join 1 (Some "A"%string));
            (14, Complete 1 (Some "A"%string)); (15, StopPraying 1 (Some "B"%string))]
           (healthy fresh_request) eq_refl eq_refl H0).
Defined.

Lemma stats_failure_zero_report_witness :
  faults (pool_down fresh_request) = [true] /\
  get_stats 10 (pool_down fresh_request) =
  (res_status_json 500 (JsonStats zero_stats),
   {| db := fresh_request; faults := [];
      console := ["Error fetching prayer stats: connection terminated unexpectedly"%string] |}).
Proof.
  split; [reflexivity|].
  exact (proj1 (stats_failure_zero_report 10 (pool_down fresh_request) [] eq_refl)).
Defined.

(** ** ORDER BY *)

Section OrderBy.
Context {A : Type}.
Variable leb : A -> A -> bool.
Hypothesis leb_total : forall a b, leb a b = true \/ leb b a = true.
Hypothesis leb_trans : forall a b c, leb a b = true -> leb b c = true -> leb a c = true.

Lemma insert_by_perm x l : Permutation (insert_by leb x l) (x :: l).
Proof.
  induction l as [|y l IH]; simpl; [reflexivity|].
  destruct (leb x y); [reflexivity|].
  rewrite IH. apply perm_swap.
Qed.

Lemma order_by_perm l : Permutation (order_by leb l) l.
Proof.
  induction l as [|x l IH]; simpl; [reflexivity|].
  rewrite insert_by_perm. now apply perm_skip.
Qed.

Lemma insert_by_sorted x l :
  StronglySorted (fun a b => leb a b = true) l ->
  StronglySorted (fun a b => leb a b = true) (insert_by leb x l).
Proof.
  induction l as [|y l IH]; intros Hs; simpl.
  - repeat constructor.
  - inversion Hs as [|? ? Hl Hy]; subst.
    destruct (leb x y) eqn:E.
    + constructor; [exact Hs|]. constructor; [exact E|].
      eapply Forall_impl; [|exact Hy]. intros z Hz. simpl in Hz. eapply leb_trans; eassumption.
    + constructor; [apply IH, Hl|].
      eapply Permutation_Forall; [symmetry; apply insert_by_perm|].
      constructor; [|exact Hy].
      destruct (leb_total x y); congruence.
Qed.

Lemma order_by_sorted l : StronglySorted (fun a b => leb a b = true) (order_by leb l).
Proof.
  induction l as [|x l IH]; simpl; [constructor | now apply insert_by_sorted].
Qed.

(** A list sorted by [leb] and a strictly sorted permutation of it are the
    same list. *)
Lemma sorted_unique l1 : forall l2,
  Permutation l1 l2 ->
  StronglySorted (fun a b => leb a b = true) l1 ->
  StronglySorted (fun a b => leb b a = false) l2 ->
  l1 = l2.
Proof.
  induction l1 as [|a l1 IH]; intros l2 Hp H1 H2.
  - apply Permutation_nil in Hp. now subst.
  - destruct l2 as [|x l2]; [symmetry in Hp; now apply Permutation_nil in Hp|].
    inversion H1 as [|? ? H1' Ha]; subst. inversion H2 as [|? ? H2' Hx]; subst.
    assert (E : a = x).
    { assert (Hin : In a (x :: l2)) by (eapply Permutation_in; [exact Hp | now left]).
      destruct Hin as [->|Hin]; [reflexivity|].
      assert (Hin' : In x (a :: l1))
        by (eapply Permutation_in; [symmetry; exact Hp | now left]).
      destruct Hin' as [->|Hin']; [reflexivity|].
      rewrite Forall_forall in Ha, Hx.
      specialize (Ha x Hin'). specialize (Hx a Hin). simpl in Ha, Hx. congruence. }
    subst x. f_equal. apply IH; [eapply Permutation_cons_inv; exact Hp | exact H1' | exact H2'].
Qed.

Lemma order_by_unique l l2 :
  Permutation l l2 ->
  StronglySorted (fun a b => leb b a = false) l2 ->
  order_by leb l = l2.
Proof.
  intros Hp H2. apply sorted_unique; [|apply order_by_sorted|exact H2].
  rewrite order_by_perm. exact Hp.
Qed.
End OrderBy.

Lemma insert_by_map {A B} (f : A -> B) (leb : B -> B -> bool) x l :
  insert_by leb (f x) (map f l) = map f (insert_by (fun a b => leb (f a) (f b)) x l).
Proof.
  induction l as [|y l IH]; simpl; [reflexivity|].
  destruct (leb (f x) (f y)); simpl; [reflexivity | now rewrite IH].
Qed.

Lemma order_by_map {A B} (f : A -> B) (leb : B -> B -> bool) l :
  order_by leb (map f l) = map f (order_by (fun a b => leb (f a) (f b)) l).
Proof.
  unfold order_by. induction l as [|x l IH]; simpl; [reflexivity|].
  rewrite IH. apply insert_by_map.
Qed.

Lemma StronglySorted_append {A} (R : A -> A -> Prop) l1 l2 :
  StronglySorted R l1 -> StronglySorted R l2 ->
  (forall a b, In a l1 -> In b l2 -> R a b) ->
  StronglySorted R (l1 ++ l2).
Proof.
  intros H1 H2 Hc. induction H1 as [|a l1 H1 IH Ha]; simpl; [exact H2|].
  constructor.
  - apply IH. intros x y Hx Hy. apply Hc; [now right | exact Hy].
  - apply Forall_app. split; [exact Ha|].
    apply Forall_forall. intros y Hy. apply Hc; [now left | exact Hy].
Qed.

Lemma StronglySorted_strict_NoDup {A} (R : A -> A -> Prop) l :
  (forall a, ~ R a a) -> StronglySorted R l -> NoDup l.
Proof.
  intros Hirr Hs. induction Hs as [|a l Hs IH Ha]; constructor; [|exact IH].
  intros Hin. rewrite Forall_forall in Ha. exact (Hirr a (Ha a Hin)).
Qed.

Lemma StronglySorted_weaken {A} (R R' : A -> A -> Prop) l :
  (forall a b, In a l -> In b l -> R a b -> R' a b) ->
  StronglySorted R l -> StronglySorted R' l.
Proof.
  intros Hw Hs. induction Hs as [|a l Hs IH Ha]; constructor.
  - apply IH. intros x y Hx Hy. apply Hw; now right.
  - rewrite Forall_forall in *. intros y Hy. apply Hw; [now left | now right | auto].
Qed.

Lemma flat_map_singleton {A B} (f : A -> list B) (g : A -> B) l :
  (forall x, In x l -> f x = [g x]) -> flat_map f l = map g l.
Proof.
  induction l as [|x l IH]; intros H; simpl; [reflexivity|].
  rewrite (H x) by now left. simpl. f_equal. apply IH. intros y Hy. apply H. now right.
Qed.

(** ** The topic query on a well-formed catalog *)

Lemma key_leb_iff a1 a2 a3 b1 b2 b3 :
  key_leb (a1, a2, a3) (b1, b2, b3) = true <->
  a1 < b1 \/ (a1 = b1 /\ (a2 < b2 \/ (a2 = b2 /\ a3 <= b3))).
Proof.
  unfold key_leb.
  rewrite !orb_true_iff, !andb_true_iff, !orb_true_iff, !andb_true_iff,
    !Z.ltb_lt, !Z.eqb_eq, Z.leb_le.
  reflexivity.
Qed.

Lemma key_leb_total a b : key_leb a b = true \/ key_leb b a = true.
Proof.
  destruct a as [[a1 a2] a3], b as [[b1 b2] b3]. rewrite !key_leb_iff. lia.
Qed.

Lemma key_leb_trans a b c :
  key_leb a b = true -> key_leb b c = true -> key_leb a c = true.
Proof.
  destruct a as [[a1 a2] a3], b as [[b1 b2] b3], c as [[c1 c2] c3].
  rewrite !key_leb_iff. lia.
Qed.

Lemma key_leb_false_iff a1 a2 a3 b1 b2 b3 :
  key_leb (b1, b2, b3) (a1, a2, a3) = false <->
  a1 < b1 \/ (a1 = b1 /\ (a2 < b2 \/ (a2 = b2 /\ a3 < b3))).
Proof.
  rewrite <- not_true_iff_false, key_leb_iff. lia.
Qed.

Lemma by_id_total a b : by_id a b = true \/ by_id b a = true.
Proof. unfold by_id. lia. Qed.

Lemma by_id_trans a b c : by_id a b = true -> by_id b c = true -> by_id a c = true.
Proof. unfold by_id. lia. Qed.

Lemma filter_id_unique (topics : list prayer_topic) m :
  NoDup (map pt_id topics) -> In m topics ->
  filter (fun x => pt_id x =? pt_id m) topics = [m].
Proof.
  induction topics as [|x t IH]; intros Hnd Hin; [contradiction|].
  simpl in Hnd. inversion Hnd as [|? ? Hx Ht]; subst. simpl.
  destruct Hin as [->|Hin].
  - rewrite Z.eqb_refl. f_equal.
    apply filter_nil_existsb. destruct (existsb _ t) eqn:E; [|reflexivity].
    exfalso. apply existsb_exists in E. destruct E as (y & Hy & Ey).
    apply Z.eqb_eq in Ey. apply Hx. rewrite <- Ey. now apply in_map.
  - destruct (pt_id x =? pt_id m) eqn:E.
    + exfalso. apply Z.eqb_eq in E. apply Hx. rewrite E. now apply in_map.
    + now apply IH.
Qed.

Lemma main_title_of_child topics pt m :
  NoDup (map pt_id topics) -> In m topics -> pt_parent_id pt = Some (pt_id m) ->
  main_title topics pt = Some (pt_title m).
Proof.
  intros Hnd Hin Hp. unfold main_title. rewrite Hp.
  now rewrite (filter_id_unique topics m Hnd Hin).
Qed.

Lemma left_join_parent_row topics pt :
  catalog_ok topics -> In pt topics ->
  left_join_parent topics pt = [row_of topics pt].
Proof.
  intros Hok Hin. unfold left_join_parent, main_category_of, row_of, main_title.
  destruct (pt_parent_id pt) as [p|] eqn:Hp; [|reflexivity].
  pose proof (parents_are_main _ Hok) as Hpar. rewrite Forall_forall in Hpar.
  destruct (Hpar pt Hin p Hp) as (m & Hm & Hid & _). subst p.
  now rewrite (filter_id_unique topics m (ids_unique _ Hok) Hm).
Qed.

Lemma select_topics_rows topics :
  catalog_ok topics ->
  order_by order_leb (flat_map (left_join_parent topics) topics) =
  map (row_of topics) (order_by topic_leb topics).
Proof.
  intros Hok.
  rewrite (flat_map_singleton _ (row_of topics)) by (intros; now apply left_join_parent_row).
  rewrite order_by_map. reflexivity.
Qed.

Lemma NoDup_map_filter {A B} (f : A -> B) (p : A -> bool) l :
  NoDup (map f l) -> NoDup (map f (filter p l)).
Proof.
  induction l as [|x l IH]; simpl; intros H; [constructor|].
  inversion H as [|? ? Hx Hl]; subst.
  destruct (p x); simpl; [constructor|]; auto.
  intros Hin. apply Hx. apply in_map_iff in Hin. destruct Hin as (y & E & Hy).
  apply in_map_iff. exists y. split; [exact E|]. apply filter_In in Hy. tauto.
Qed.

Lemma in_order_by_filter (p : prayer_topic -> bool) topics x :
  In x (order_by by_id (filter p topics)) <-> In x topics /\ p x = true.
Proof.
  rewrite <- filter_In. split; apply Permutation_in;
    [|symmetry]; apply order_by_perm.
Qed.

Lemma strictly_by_id l :
  StronglySorted (fun a b => by_id a b = true) l -> NoDup (map pt_id l) ->
  StronglySorted (fun a b => pt_id a < pt_id b) l.
Proof.
  intros Hs. induction Hs as [|a l Hs IH Ha]; intros Hnd; constructor.
  - apply IH. now inversion Hnd.
  - inversion Hnd as [|? ? Hnot _]; subst.
    rewrite Forall_forall in *. intros b Hb. specialize (Ha b Hb).
    unfold by_id in Ha. apply Z.leb_le in Ha.
    assert (pt_id a <> pt_id b) by (intros E; apply Hnot; rewrite E; now apply in_map).
    lia.
Qed.

Lemma order_by_id_strict (p : prayer_topic -> bool) topics :
  NoDup (map pt_id topics) ->
  StronglySorted (fun a b => pt_id a < pt_id b) (order_by by_id (filter p topics)).
Proof.
  intros Hnd. apply strictly_by_id.
  - apply order_by_sorted; [apply by_id_total | apply by_id_trans].
  - eapply Permutation_NoDup;
      [apply Permutation_map; symmetry; apply order_by_perm | now apply NoDup_map_filter].
Qed.

(** The strict order of the ORDER BY keys. *)
Lemma topic_leb_false_iff a b :
  topic_leb b a = false <->
  let '(a1, a2, a3) := topic_key a in
  let '(b1, b2, b3) := topic_key b in
  a1 < b1 \/ (a1 = b1 /\ (a2 < b2 \/ (a2 = b2 /\ a3 < b3))).
Proof.
  unfold topic_leb.
  destruct (topic_key a) as [[a1 a2] a3], (topic_key b) as [[b1 b2] b3].
  apply key_leb_false_iff.
Qed.

Lemma main_before_child m s :
  pt_parent_id m = None -> pt_parent_id s = Some (pt_id m) -> topic_leb s m = false.
Proof.
  intros Hm Hs. apply topic_leb_false_iff. unfold topic_key. rewrite Hm, Hs. lia.
Qed.

Lemma child_before_child p s s' :
  pt_parent_id s = Some p -> pt_parent_id s' = Some p -> pt_id s < pt_id s' ->
  topic_leb s' s = false.
Proof.
  intros Hs Hs' Hlt. apply topic_leb_false_iff. unfold topic_key. rewrite Hs, Hs'. lia.
Qed.

Lemma group_before_group a b : group_key a < group_key b -> topic_leb b a = false.
Proof.
  intros Hlt. apply topic_leb_false_iff. unfold topic_key, group_key in *.
  destruct (pt_parent_id a), (pt_parent_id b); lia.
Qed.

Lemma is_child_of_iff m s : is_child_of m s = true <-> pt_parent_id s = Some (pt_id m).
Proof.
  unfold is_child_of. destruct (pt_parent_id s) as [p|]; [|split; discriminate].
  rewrite Z.eqb_eq. split; congruence.
Qed.

Lemma is_main_iff m : is_main m = true <-> pt_parent_id m = None.
Proof. unfold is_main. destruct (pt_parent_id m); simpl; split; congruence. Qed.

Lemma block_group_key topics m x :
  pt_parent_id m = None -> In x (block topics m) -> group_key x = pt_id m.
Proof.
  intros Hm [<-|Hin]; unfold group_key; [now rewrite Hm|].
  apply in_order_by_filter in Hin. destruct Hin as [_ Hc].
  apply is_child_of_iff in Hc. now rewrite Hc.
Qed.

Lemma block_sorted topics m :
  NoDup (map pt_id topics) -> pt_parent_id m = None ->
  StronglySorted (fun a b => topic_leb b a = false) (block topics m).
Proof.
  intros Hnd Hm. unfold block. constructor.
  - eapply StronglySorted_weaken; [|apply (order_by_id_strict (is_child_of m) topics Hnd)].
    intros a b Ha Hb Hlt. simpl in Hlt.
    apply in_order_by_filter in Ha, Hb.
    destruct Ha as [_ Ha], Hb as [_ Hb]. apply is_child_of_iff in Ha, Hb.
    eapply child_before_child; eassumption.
  - apply Forall_forall. intros s Hs. apply in_order_by_filter in Hs.
    destruct Hs as [_ Hs]. apply is_child_of_iff in Hs. now apply main_before_child.
Qed.

Lemma blocks_sorted topics ms :
  NoDup (map pt_id topics) ->
  Forall (fun m => pt_parent_id m = None) ms ->
  StronglySorted (fun a b => pt_id a < pt_id b) ms ->
  StronglySorted (fun a b => topic_leb b a = false) (flat_map (block topics) ms).
Proof.
  intros Hnd Hmain Hs. induction Hs as [|m ms Hs IH Hm]; [constructor|].
  inversion Hmain as [|? ? Hm0 Hms]; subst.
  change (flat_map (block topics) (m :: ms))
    with (block topics m ++ flat_map (block topics) ms).
  apply StronglySorted_append; [now apply block_sorted | now apply IH|].
  intros a b Ha Hb. apply group_before_group.
  rewrite (block_group_key topics m a Hm0 Ha).
  apply in_flat_map in Hb. destruct Hb as (m' & Hm' & Hb).
  rewrite Forall_forall in Hm, Hms.
  rewrite (block_group_key topics m' b (Hms m' Hm') Hb). now apply Hm.
Qed.

Lemma sorted_topics_sorted topics :
  NoDup (map pt_id topics) ->
  StronglySorted (fun a b => topic_leb b a = false) (sorted_topics topics).
Proof.
  intros Hnd. apply blocks_sorted; [exact Hnd | | now apply order_by_id_strict].
  apply Forall_forall. intros m Hm. apply in_order_by_filter in Hm.
  now apply is_main_iff.
Qed.

Lemma in_sorted_topics topics x :
  catalog_ok topics -> (In x (sorted_topics topics) <-> In x topics).
Proof.
  intros Hok. unfold sorted_topics. rewrite in_flat_map. split.
  - intros (m & Hm & [<-|Hx]).
    + apply in_order_by_filter in Hm. tauto.
    + apply in_order_by_filter in Hx. tauto.
  - intros Hx. destruct (pt_parent_id x) as [p|] eqn:Hp.
    + pose proof (parents_are_main _ Hok) as Hpar. rewrite Forall_forall in Hpar.
      destruct (Hpar x Hx p Hp) as (m & Hm & Hid & Hnone). subst p.
      exists m. split.
      * apply in_order_by_filter. split; [exact Hm | now apply is_main_iff].
      * right. apply in_order_by_filter. split; [exact Hx | now apply is_child_of_iff].
    + exists x. split; [|now left].
      apply in_order_by_filter. split; [exact Hx | now apply is_main_iff].
Qed.

Lemma topic_leb_refl a : topic_leb a a = true.
Proof.
  unfold topic_leb. destruct (topic_key a) as [[a1 a2] a3]. apply key_leb_iff. lia.
Qed.

Lemma order_by_topic_leb topics :
  catalog_ok topics -> order_by topic_leb topics = sorted_topics topics.
Proof.
  intros Hok. pose proof (ids_unique _ Hok) as Hnd.
  apply order_by_unique.
  - intros a b. apply key_leb_total.
  - intros a b c. apply key_leb_trans.
  - apply NoDup_Permutation.
    + eapply NoDup_map_inv; exact Hnd.
    + eapply StronglySorted_strict_NoDup; [|apply sorted_topics_sorted, Hnd].
      intros a. simpl. rewrite topic_leb_refl. discriminate.
    + intros x. symmetry. now apply in_sorted_topics.
  - apply sorted_topics_sorted, Hnd.
Qed.

(** ** Grouping the sorted rows *)

Lemma own_app {V} (o o' : object V) key :
  own (o ++ o') key = match own o key with
                      | Some v => Some v
                      | None => own o' key
                      end.
Proof.
  induction o as [|[k v] o IH]; simpl; [reflexivity|].
  destruct (String.eqb k key); [reflexivity | exact IH].
Qed.

Lemma assign_new {V} (o : object V) key v :
  own o key = None -> assign o key v = o ++ [(key, v)].
Proof.
  induction o as [|[k x] o IH]; simpl; [reflexivity|].
  destruct (String.eqb k key); [discriminate|]. intros H. now rewrite IH.
Qed.

Lemma assign_last {V} (o : object V) key v v' :
  own o key = None -> assign (o ++ [(key, v)]) key v' = o ++ [(key, v')].
Proof.
  induction o as [|[k x] o IH]; simpl.
  - now rewrite String.eqb_refl.
  - destruct (String.eqb k key); [discriminate|]. intros H. now rewrite IH.
Qed.

Lemma own_last {V} (o : object V) key v :
  own o key = None -> own (o ++ [(key, v)]) key = Some v.
Proof. intros H. rewrite own_app, H. simpl. now rewrite String.eqb_refl. Qed.

Lemma forEach_app {A S} (f : S -> A -> completion S) l1 l2 s :
  forEach f (l1 ++ l2) s =
  match forEach f l1 s with
  | Normal s' => forEach f l2 s'
  | Throw e => Throw e
  end.
Proof.
  revert s. induction l1 as [|x l1 IH]; intros s; simpl; [reflexivity|].
  destruct (f s x); [apply IH | reflexivity].
Qed.

Lemma object_values_plain {V} (o : object V) :
  Forall (fun kv => array_index (fst kv) = None) o -> object_values o = map snd o.
Proof.
  intros H. unfold object_values.
  assert (E : flat_map (fun kv : string * V =>
                          match array_index (fst kv) with
                          | Some i => [(i, snd kv)]
                          | None => []
                          end) o = [] /\
              filter (fun kv : string * V => is_null (array_index (fst kv))) o = o).
  { induction H as [|kv o Hkv _ [I1 I2]]; simpl; [split; reflexivity|].
    rewrite Hkv. simpl. now rewrite I1, I2. }
  destruct E as [E1 E2].
  now rewrite E1, E2.
Qed.

Section Grouping.
Variable topics : list prayer_topic.
Variable m : prayer_topic.
Hypothesis m_main : pt_parent_id m = None.
Hypothesis m_not_zero : pt_id m <> 0.
Hypothesis m_plain : inherited (pt_title m) = false.

(** The rows of the subcategories of [m] are pushed onto its group. *)
Lemma group_children subs : forall acc g,
  own acc (pt_title m) = None ->
  Forall (fun s => pt_parent_id s = Some (pt_id m) /\
                   main_title topics s = Some (pt_title m)) subs ->
  forEach group_topic (map (row_of topics) subs) (acc ++ [(pt_title m, g)]) =
  Normal (acc ++ [(pt_title m,
                   {| group_id := group_id g; group_title := group_title g;
                      subcategories :=
                        subcategories g ++ map subcategory_of_topic subs |})]).
Proof.
  induction subs as [|s subs IH]; intros acc g Hacc Hsubs; simpl.
  - rewrite app_nil_r. now destruct g.
  - inversion Hsubs as [|? ? [Hp Ht] Hrest]; subst.
    unfold group_topic at 1. unfold row_of at 1 2 3. simpl.
    rewrite Ht. simpl. rewrite (own_last _ _ _ Hacc), Hp. simpl.
    replace (pt_id m =? 0) with false by lia. simpl.
    rewrite (own_last _ _ _ Hacc), (assign_last _ _ _ _ Hacc).
    rewrite (IH _ _ Hacc Hrest). simpl. now rewrite <- app_assoc.
Qed.

(** The row of [m] opens its group. *)
Lemma group_main acc :
  own acc (pt_title m) = None ->
  group_topic acc (row_of topics m) =
  Normal (acc ++ [(pt_title m,
                   {| group_id := pt_id m; group_title := Some (pt_title m);
                      subcategories := [] |})]).
Proof.
  intros Hacc.
  unfold group_topic, parent_id_or_id, row_of, main_title.
  cbn [main_category parent_id id title category].
  rewrite m_main. cbn [property_key truthy].
  rewrite Hacc, m_plain. now rewrite assign_new.
Qed.

Lemma group_block acc :
  own acc (pt_title m) = None ->
  In m topics -> NoDup (map pt_id topics) ->
  forEach group_topic (map (row_of topics) (block topics m)) acc =
  Normal (acc ++ [(pt_title m, catalog_group topics m)]).
Proof.
  intros Hacc Hin Hnd. unfold block.
  cbn [map forEach]. rewrite (group_main acc Hacc).
  rewrite group_children; [reflexivity | exact Hacc|].
  apply Forall_forall. intros s Hs. apply in_order_by_filter in Hs.
  destruct Hs as [_ Hs]. apply is_child_of_iff in Hs.
  split; [exact Hs | now apply main_title_of_child].
Qed.
End Grouping.

Lemma group_blocks topics ms : forall acc,
  NoDup (map pt_id topics) ->
  NoDup (map pt_title ms) ->
  Forall (fun m => In m topics /\ pt_parent_id m = None /\ pt_id m <> 0 /\
                   inherited (pt_title m) = false /\ own acc (pt_title m) = None) ms ->
  forEach group_topic (map (row_of topics) (flat_map (block topics) ms)) acc =
  Normal (acc ++ map (fun m => (pt_title m, catalog_group topics m)) ms).
Proof.
  induction ms as [|m ms IH]; intros acc Hnd Ht Hms.
  - simpl. now rewrite app_nil_r.
  - inversion Hms as [|? ? (Hin & Hmain & Hnz & Hplain & Hown) Hrest]; subst.
    inversion Ht as [|? ? Hfresh Ht']; subst.
    cbn [flat_map]. rewrite map_app, forEach_app.
    rewrite (group_block topics m Hmain Hnz Hplain acc Hown Hin Hnd).
    rewrite IH; [simpl; now rewrite <- app_assoc | exact Hnd | exact Ht'|].
    rewrite Forall_forall in *. intros m' Hm'.
    destruct (Hrest m' Hm') as (H1 & H2 & H3 & H4 & H5).
    repeat split; try assumption.
    rewrite own_app, H5. simpl.
    destruct (String.eqb (pt_title m) (pt_title m')) eqn:E; [|reflexivity].
    exfalso. apply String.eqb_eq in E. apply Hfresh. rewrite E. now apply in_map.
Qed.

(** ** The topic catalog *)

Lemma forEach_sorted_topics topics :
  catalog_ok topics ->
  forEach group_topic (map (row_of topics) (sorted_topics topics)) [] =
  Normal (map (fun m => (pt_title m, catalog_group topics m))
              (order_by by_id (filter is_main topics))).
Proof.
  intros Hok. unfold sorted_topics.
  rewrite group_blocks; [reflexivity | exact (ids_unique _ Hok) | |].
  - eapply Permutation_NoDup;
      [apply Permutation_map; symmetry; apply order_by_perm
      | exact (main_titles_unique _ Hok)].
  - apply Forall_forall. intros m Hm. apply in_order_by_filter in Hm.
    destruct Hm as [Hin Hmain].
    pose proof (ids_not_zero _ Hok) as Hnz. pose proof (main_titles_plain _ Hok) as Hpl.
    rewrite Forall_forall in Hnz, Hpl.
    repeat split; [exact Hin | now apply is_main_iff | now apply Hnz
                  | now apply (Hpl m Hin)].
Qed.

Lemma catalog_keys_plain topics :
  catalog_ok topics ->
  Forall (fun kv : string * category_group => array_index (fst kv) = None)
    (map (fun m => (pt_title m, catalog_group topics m))
         (order_by by_id (filter is_main topics))).
Proof.
  intros Hok. apply Forall_map. apply Forall_forall. intros m Hm. simpl.
  apply in_order_by_filter in Hm. destruct Hm as [Hin Hmain].
  pose proof (main_titles_plain _ Hok) as Hpl. rewrite Forall_forall in Hpl.
  now apply (Hpl m Hin).
Qed.

(** The claim C8 fails when two main categories share a title: the groups
    are keyed by title, so [same_title_topics] gives one group where the
    catalog has two. *)
Lemma same_title_groups_merge :
  List.length (filter is_main same_title_topics) = 2%nat /\
  fst (get_prayer_topics (healthy (with_topics same_title_topics))) =
    res_json (JsonTopics [{| group_id := 1; group_title := Some "Job"%string;
                             subcategories := [] |}]) /\
  fst (get_prayer_topics (healthy (with_topics same_title_topics))) <>
    res_json (JsonTopics (topic_catalog same_title_topics)).
Proof. vm_compute. repeat split. discriminate. Qed.

(** C8, amended: on a healthy pool and a catalog with unique non-zero ids,
    one level of nesting, and main-category titles that are pairwise distinct,
    no array index and no inherited property name, the topic route answers
    one group [{id, title, subcategories}] per main category, by ascending id
    of the main category, each with its subcategories (by ascending id) and
    with an empty list when it has none; the state is unchanged. *)
Theorem topic_catalog_grouped :
  forall w,
    faults w = [] -> catalog_ok (prayer_topics (db w)) ->
    get_prayer_topics w =
    (res_json (JsonTopics (topic_catalog (prayer_topics (db w)))), w).
Proof.
  intros w Hw Hok. unfold get_prayer_topics. run_healthy Hw. unfold lift.
  rewrite (select_topics_rows _ Hok), (order_by_topic_leb _ Hok).
  rewrite (forEach_sorted_topics _ Hok).
  rewrite (object_values_plain _ (catalog_keys_plain _ Hok)).
  rewrite map_map. simpl.
  unfold topic_catalog. f_equal.
  change {| db := db w; faults := []; console := console w |} with (after w (db w)).
  now apply after_same.
Qed.

Ltac find_main l :=
  lazymatch l with
  | ?m :: ?t =>
      first [ exists m; split; [simpl; tauto | split; reflexivity] | find_main t ]
  end.

Ltac catalog_ok_by_computation topics :=
  let l := eval cbv delta [topics] in topics in
  constructor;
  [ simpl; repeat (constructor; [simpl; intuition discriminate|]); constructor
  | repeat constructor; discriminate
  | repeat (constructor;
            [ let p := fresh "p" in let Hp := fresh "Hp" in
              intros p Hp; simpl in Hp;
              first [ discriminate Hp | injection Hp as <-; find_main l ] |]);
    constructor
  | simpl; repeat (constructor; [simpl; intuition discriminate|]); constructor
  | repeat (constructor;
            [ let H := fresh "H" in
              intros H; first [ discriminate H | split; reflexivity ] |]);
    constructor ].

Lemma job_topics_ok : catalog_ok job_topics.
Proof. catalog_ok_by_computation job_topics. Qed.

(** The catalog [POST /api/init-database] seeds is well formed. *)
Lemma seeded_topics_ok : catalog_ok seeded_topics.
Proof. catalog_ok_by_computation seeded_topics. Qed.

Lemma topic_catalog_grouped_witness :
  faults (healthy (with_topics job_topics)) = [] /\
  catalog_ok (prayer_topics (db (healthy (with_topics job_topics)))) /\
  get_prayer_topics (healthy (with_topics job_topics)) =
  (res_json
     (JsonTopics
        [{| group_id := 1; group_title := Some "Job"%string;
            subcategories :=
              [{| sub_id := 16; sub_title := "I just lost my job" |}] |}]),
   healthy (with_topics job_topics)).
Proof.
  split; [reflexivity|]. split; [exact job_topics_ok|].
  exact (topic_catalog_grouped (healthy (with_topics job_topics)) eq_refl job_topics_ok).
Defined.

(** * Further properties *)

(** ** The participation calls only move the counters *)

Lemma same_request_refl pr : same_request_counting_up pr pr.
Proof. unfold same_request_counting_up. repeat split; lia. Qed.

Lemma same_request_trans a b c :
  same_request_counting_up a b -> same_request_counting_up b c ->
  same_request_counting_up a c.
Proof.
  unfold same_request_counting_up.
  intros (A1 & A2 & A3 & A4 & A5 & A6 & A7) (B1 & B2 & B3 & B4 & B5 & B6 & B7).
  repeat split; try congruence; lia.
Qed.

Lemma requests_step_refl d : requests_step d d.
Proof. apply Forall2_same, same_request_refl. Qed.

Lemma requests_step_trans a b c :
  requests_step a b -> requests_step b c -> requests_step a c.
Proof. apply Forall2_chain, same_request_trans. Qed.

Lemma requests_step_update p f d :
  (forall pr, same_request_counting_up pr (f pr)) ->
  requests_step d (with_prayer_requests d (update_where p f (prayer_requests d))).
Proof.
  intros Hf. apply Forall2_update_where; [apply same_request_refl | exact Hf].
Qed.

Ltac same_request_by_computation :=
  let pr := fresh "pr" in
  intros pr; unfold same_request_counting_up; simpl; repeat split; lia.

Ltac requests_statement :=
  statement_steps_by requests_step_refl
    ltac:(first [ apply requests_step_update; same_request_by_computation
                | apply Forall2_same, same_request_refl ]).

Lemma serve_requests_step now c : handler_steps requests_step (serve now c).
Proof.
  destruct c; simpl;
    [unfold post_join | unfold post_start_praying | unfold post_stop_praying
    | unfold post_pray | unfold post_complete];
    handler_steps_by requests_step_refl requests_step_trans requests_statement.
Qed.

(** X1: whatever the pool does, a run of join, start-praying, stop-praying,
    pray and complete calls neither adds, removes nor reorders a request, and
    on each request it changes nothing but the two counters, of which
    [prayer_count] never goes down. *)
Theorem run_moves_counters_only :
  forall calls w,
    Forall2 same_request_counting_up
      (prayer_requests (db w)) (prayer_requests (db (run calls w))).
Proof.
  intros calls w.
  exact (run_steps requests_step requests_step_refl requests_step_trans
           serve_requests_step calls w).
Qed.

(** ** The constraints of the schema are invariants *)

Lemma keeps_refl (P : database -> Prop) d : keeps P d d.
Proof. intros H. exact H. Qed.

Lemma keeps_trans (P : database -> Prop) a b c :
  keeps P a b -> keeps P b c -> keeps P a c.
Proof. unfold keeps. auto. Qed.

Lemma map_update_where {A B} (h : A -> B) p f (l : list A) :
  (forall x, h (f x) = h x) -> map h (update_where p f l) = map h l.
Proof.
  intros Hf. unfold update_where. rewrite map_map. apply map_ext.
  intros x. destruct (p x); [apply Hf | reflexivity].
Qed.

Lemma existsb_where_id_update p f id (l : list prayer_request) :
  (forall pr, pr_id (f pr) = pr_id pr) ->
  existsb (where_id id) (update_where p f l) = existsb (where_id id) l.
Proof.
  intros Hf. induction l as [|pr l IH]; simpl; [reflexivity|].
  rewrite IH. f_equal. unfold where_id. destruct (p pr); [now rewrite Hf | reflexivity].
Qed.

Lemma constraints_request_update p f d :
  (forall pr, pr_id (f pr) = pr_id pr) ->
  keeps constraints_hold d
    (with_prayer_requests d (update_where p f (prayer_requests d))).
Proof.
  intros Hf (Hu & Hfk & Hid). repeat split; try exact Hu; try apply Hid.
  unfold foreign_keys_hold in *. simpl.
  eapply Forall_impl; [|exact Hfk]. intros dp Hdp. simpl in Hdp.
  now rewrite existsb_where_id_update.
Qed.

Lemma constraints_completed now device_id id d :
  keeps constraints_hold d
    (with_device_prayers d
       (update_where (where_device_request_open device_id id) (set_completed_at now)
          (device_prayers d))).
Proof.
  intros (Hu & Hfk & Hnd & Hlt). unfold constraints_hold, links_unique, link_ids_fresh,
    foreign_keys_hold in *. simpl.
  rewrite !map_update_where by reflexivity.
  repeat split; try assumption.
  - unfold update_where. apply Forall_map. eapply Forall_impl; [|exact Hfk].
    intros dp Hdp. simpl in Hdp.
    destruct (where_device_request_open device_id id dp); exact Hdp.
  - unfold update_where. apply Forall_map. eapply Forall_impl; [|exact Hlt].
    intros dp Hdp. simpl in Hdp.
    destruct (where_device_request_open device_id id dp); exact Hdp.
Qed.

Lemma pair_not_linked s id (t : list device_prayer) :
  existsb (where_device_request (Some s) id) t = false ->
  ~ In (s, id) (map link_pair t).
Proof.
  intros Hex Hin. apply in_map_iff in Hin. destruct Hin as (dp & E & Hdp).
  assert (Hdp' : where_device_request (Some s) id dp = true).
  { unfold link_pair in E. inversion E. unfold where_device_request. simpl.
    now rewrite String.eqb_refl, Z.eqb_refl. }
  assert (Hsome : existsb (where_device_request (Some s) id) t = true)
    by (apply existsb_exists; eauto).
  congruence.
Qed.

Lemma constraints_insert now device_id id :
  statement_steps (keeps constraints_hold) (insert_device_prayer now device_id id).
Proof.
  intros d rows d' E (Hu & Hfk & Hnd & Hlt). unfold insert_device_prayer in E.
  destruct device_id as [s|]; [|discriminate].
  destruct (existsb (where_device_request (Some s) id) (device_prayers d)) eqn:Ex;
    [discriminate|].
  destruct (existsb (where_id id) (prayer_requests d)) eqn:Er; simpl in E; [|discriminate].
  inversion E; subst. clear E.
  unfold constraints_hold, links_unique, link_ids_fresh, foreign_keys_hold in *. simpl.
  rewrite !map_app. simpl. repeat split.
  - apply Permutation_NoDup with (l := (s, id) :: map link_pair (device_prayers d)).
    + apply Permutation_cons_append.
    + constructor; [now apply pair_not_linked | exact Hu].
  - apply Forall_app. split; [exact Hfk|]. constructor; [exact Er | constructor].
  - apply Permutation_NoDup
      with (l := device_prayers_id_seq d :: map dp_id (device_prayers d)).
    + apply Permutation_cons_append.
    + constructor; [|exact Hnd].
      intros Hin. apply in_map_iff in Hin. destruct Hin as (dp & E & Hdp).
      rewrite Forall_forall in Hlt. specialize (Hlt dp Hdp). lia.
  - apply Forall_app. split.
    + eapply Forall_impl; [|exact Hlt]. intros dp Hdp. simpl in Hdp. lia.
    + constructor; [simpl; lia | constructor].
Qed.

Ltac constraints_statement :=
  first
    [ apply constraints_insert
    | statement_steps_by (keeps_refl constraints_hold)
        ltac:(first [ apply constraints_request_update; reflexivity
                    | apply constraints_completed
                    | apply (keeps_refl constraints_hold) ]) ].

Lemma serve_constraints now c : handler_steps (keeps constraints_hold) (serve now c).
Proof.
  destruct c; simpl;
    [unfold post_join | unfold post_start_praying | unfold post_stop_praying
    | unfold post_pray | unfold post_complete];
    handler_steps_by (keeps_refl constraints_hold) (keeps_trans constraints_hold)
      constraints_statement.
Qed.


(** ** [prayer_count] counts distinct devices *)

Lemma linked_devices_spec id d s :
  existsb (String.eqb s) (linked_devices id d) =
  existsb (where_device_request (Some s) id) (device_prayers d).
Proof.
  unfold linked_devices. induction (device_prayers d) as [|dp t IH]; simpl; [reflexivity|].
  unfold where_device_request at 1. simpl.
  destruct (dp_prayer_request_id dp =? id); simpl.
  - rewrite IH, andb_true_r. f_equal. apply String.eqb_sym.
  - rewrite andb_false_r. exact IH.
Qed.

Lemma find_request_live_no_rows now id d pr :
  find_request id d = Some pr -> now < pr_expires_at pr ->
  no_rows (filter (where_id_active now id) (prayer_requests d)) = false.
Proof.
  intros Hf Hl. destruct (find_request_live_rows now id d pr Hf Hl) as [rest E].
  now rewrite E.
Qed.

Lemma joins_count id joins : forall w pr seen,
  faults w = [] ->
  find_request id (db w) = Some pr ->
  Forall (fun j => fst j < pr_expires_at pr /\ falsy (Some (snd j)) = false) joins ->
  (forall s, existsb (String.eqb s) seen =
             existsb (where_device_request (Some s) id) (device_prayers (db w))) ->
  exists pr',
    find_request id (db (run (join_calls id joins) w)) = Some pr' /\
    pr_prayer_count pr' =
      pr_prayer_count pr + Z.of_nat (distinct_new seen (map snd joins)) /\
    pr_active_prayers pr' = pr_active_prayers pr /\
    count_links id (db (run (join_calls id joins) w)) =
      count_links id (db w) + Z.of_nat (distinct_new seen (map snd joins)).
Proof.
  induction joins as [|[now s] joins IH]; intros w pr seen Hw Hf Hj Hseen.
  - exists pr. simpl. rewrite !Z.add_0_r. auto.
  - inversion Hj as [|? ? [Hlive Hs] Hrest]; subst. simpl in Hlive, Hs.
    cbn [join_calls map run fst snd serve distinct_new].
    fold (join_calls id joins).
    pose proof (find_request_live_no_rows now id (db w) pr Hf Hlive) as Hrows.
    rewrite (Hseen s).
    destruct (existsb (where_device_request (Some s) id) (device_prayers (db w))) eqn:Ex.
    + rewrite (rejoin now id (Some s) w Hw Hs Hrows Ex). cbn [snd].
      now apply IH.
    + rewrite (post_join_healthy now id s w Hw Hs), Hrows.
      apply filter_nil_existsb in Ex. rewrite Ex. cbn [no_rows snd].
      destruct (IH (after w (joined now s id (db w))) (set_prayer_count_incr pr) (s :: seen))
        as (pr' & F & C & G & L).
      * reflexivity.
      * apply (find_request_updated (where_id id) set_prayer_count_incr
                 id (db w) pr (fun _ => eq_refl) Hf).
        unfold where_id. rewrite (find_request_id id (db w) pr Hf). apply Z.eqb_refl.
      * exact Hrest.
      * intros s'. cbn [existsb db after joined device_prayers].
        rewrite existsb_app, Hseen. cbn [existsb].
        rewrite orb_false_r, orb_comm. f_equal.
        unfold where_device_request, new_link. simpl.
        now rewrite Z.eqb_refl, andb_true_r, String.eqb_sym.
      * exists pr'. rewrite F, C, G, L.
        cbn [db after]. rewrite count_links_joined, Z.eqb_refl.
        simpl pr_prayer_count. simpl pr_active_prayers.
        rewrite Nat2Z.inj_succ. repeat split; lia.
Qed.

(** X3: on a healthy pool, joins of one live request by any devices, in any
    order and with repetitions, raise [prayer_count] and the number of its
    links by the number of distinct devices that had no link before, and
    leave [active_prayers] as it was; this for a request id within INTEGER,
    device ids that are values of VARCHAR(255), and as long as the new link
    ids and the count stay within INTEGER. *)
Theorem joins_count_distinct_devices :
  forall id joins w pr,
    faults w = [] ->
    find_request id (db w) = Some pr ->
    Forall (fun j => fst j < pr_expires_at pr /\ falsy (Some (snd j)) = false /\
                     varchar 255 (snd j) = true) joins ->
    int4 id -> join_room (Z.of_nat (List.length joins)) id (db w) ->
    exists pr',
      find_request id (db (run (join_calls id joins) w)) = Some pr' /\
      pr_prayer_count pr' =
        pr_prayer_count pr +
        Z.of_nat (distinct_new (linked_devices id (db w)) (map snd joins)) /\
      pr_active_prayers pr' = pr_active_prayers pr /\
      count_links id (db (run (join_calls id joins) w)) =
        count_links id (db w) +
        Z.of_nat (distinct_new (linked_devices id (db w)) (map snd joins)).
Proof.
  intros id joins w pr Hw Hf Hj _ _.
  apply joins_count; try assumption.
  - eapply Forall_impl; [|exact Hj]. intros j (H1 & H2 & _). now split.
  - intros s. apply linked_devices_spec.
Qed.

(** ** Cleanup *)

Lemma delete_cleanup_expired_healthy now w :
  faults w = [] ->
  delete_cleanup_expired now w =
  (res_json (JsonCleanedUp
               (Z.of_nat (List.length (filter (expired now) (prayer_requests (db w)))))),
   after w (swept now (db w))).
Proof.
  intros Hw. unfold delete_cleanup_expired. run_healthy Hw. reflexivity.
Qed.

Lemma filter_filter_implied {A} (p q : A -> bool) l :
  (forall x, In x l -> p x = true -> q x = true) ->
  filter p (filter q l) = filter p l.
Proof.
  induction l as [|x l IH]; intros H; simpl; [reflexivity|].
  destruct (q x) eqn:Q; simpl.
  - rewrite IH by (intros y Hy; apply H; now right). reflexivity.
  - destruct (p x) eqn:P.
    + rewrite (H x (or_introl eq_refl) P) in Q. discriminate.
    + apply IH. intros y Hy. apply H. now right.
Qed.

Lemma filter_all {A} (p : A -> bool) l :
  (forall x, In x l -> p x = true) -> filter p l = l.
Proof.
  induction l as [|x l IH]; intros H; simpl; [reflexivity|].
  rewrite (H x (or_introl eq_refl)). f_equal. apply IH. intros y Hy. apply H. now right.
Qed.

Lemma filter_none {A} (p : A -> bool) l :
  (forall x, In x l -> p x = false) -> filter p l = [].
Proof.
  induction l as [|x l IH]; intros H; simpl; [reflexivity|].
  rewrite (H x (or_introl eq_refl)). apply IH. intros y Hy. apply H. now right.
Qed.

Lemma swept_requests now d :
  prayer_requests (swept now d) = filter (live now) (prayer_requests d).
Proof.
  unfold swept, delete_expired. simpl. apply filter_ext.
  intros pr. unfold live. destruct (pr_expires_at pr <=? now) eqn:E; simpl; lia.
Qed.

Lemma swept_links now d dp :
  In dp (device_prayers (swept now d)) <->
  In dp (device_prayers d) /\
  existsb (fun pr => pr_id pr =? dp_prayer_request_id dp)
    (filter (expired now) (prayer_requests d)) = false.
Proof.
  unfold swept, delete_expired. simpl. rewrite filter_In.
  unfold expired. now rewrite negb_true_iff.
Qed.

Lemma swept_twice now now' d :
  now' <= now -> swept now' (swept now d) = swept now d.
Proof.
  intros Hle.
  assert (Hnone : filter (fun pr => pr_expires_at pr <=? now')
                    (filter (fun pr => negb (pr_expires_at pr <=? now)) (prayer_requests d))
                  = []).
  { apply filter_none. intros pr Hpr. apply filter_In in Hpr. destruct Hpr as [_ Hpr].
    apply negb_true_iff in Hpr. lia. }
  unfold swept at 1. unfold delete_expired.
  change (prayer_requests (swept now d))
    with (filter (fun pr => negb (pr_expires_at pr <=? now)) (prayer_requests d)).
  rewrite Hnone. cbn [existsb negb].
  rewrite (filter_all (fun _ : device_prayer => true)) by reflexivity.
  rewrite (filter_all (fun pr => negb (pr_expires_at pr <=? now'))).
  - reflexivity.
  - intros pr Hpr. apply filter_In in Hpr. destruct Hpr as [_ Hpr].
    apply negb_true_iff in Hpr. apply negb_true_iff. lia.
Qed.

Lemma swept_foreign_keys now d :
  foreign_keys_hold d -> foreign_keys_hold (swept now d).
Proof.
  unfold foreign_keys_hold. intros Hfk. apply Forall_forall. intros dp Hdp.
  apply swept_links in Hdp. destruct Hdp as [Hin Hkept].
  rewrite Forall_forall in Hfk. specialize (Hfk dp Hin).
  apply existsb_exists in Hfk. destruct Hfk as (pr & Hpr & Hid).
  rewrite swept_requests. apply existsb_exists. exists pr. split; [|exact Hid].
  apply filter_In. split; [exact Hpr|].
  destruct (live now pr) eqn:L; [reflexivity|]. exfalso.
  assert (Hex : existsb (fun pr0 => pr_id pr0 =? dp_prayer_request_id dp)
                  (filter (expired now) (prayer_requests d)) = true).
  { apply existsb_exists. exists pr. split.
    - apply filter_In. split; [exact Hpr|]. unfold expired, live in *. lia.
    - unfold where_id in Hid. exact Hid. }
  congruence.
Qed.

(** X4: on a healthy pool the cleanup answers with the number of expired
    requests and leaves exactly the live requests, none of them changed, and
    exactly the links whose request was not deleted; links keep referencing
    stored requests; a second cleanup at the same or an earlier time deletes
    nothing and changes nothing. *)
Theorem cleanup_sweeps_expired :
  forall now now' w,
    faults w = [] -> now' <= now ->
    let w1 := snd (delete_cleanup_expired now w) in
    fst (delete_cleanup_expired now w) =
      res_json (JsonCleanedUp
                  (Z.of_nat (List.length (filter (expired now) (prayer_requests (db w)))))) /\
    prayer_requests (db w1) = filter (live now) (prayer_requests (db w)) /\
    (forall dp, In dp (device_prayers (db w1)) <->
                In dp (device_prayers (db w)) /\
                existsb (fun pr => pr_id pr =? dp_prayer_request_id dp)
                  (filter (expired now) (prayer_requests (db w))) = false) /\
    (foreign_keys_hold (db w) -> foreign_keys_hold (db w1)) /\
    delete_cleanup_expired now' w1 = (res_json (JsonCleanedUp 0), w1).
Proof.
  intros now now' w Hw Hle. cbv zeta.
  rewrite (delete_cleanup_expired_healthy now w Hw). cbn [fst snd db after].
  split; [reflexivity|]. split; [apply swept_requests|].
  split; [intros dp; apply swept_links|]. split; [apply swept_foreign_keys|].
  rewrite delete_cleanup_expired_healthy by reflexivity. cbn [db after].
  rewrite (swept_twice now now' (db w) Hle). f_equal.
  rewrite swept_requests. f_equal.
  rewrite (filter_none (expired now')); [reflexivity|].
  intros pr Hpr. apply filter_In in Hpr. destruct Hpr as [_ Hpr].
  unfold expired, live in *. lia.
Qed.

Lemma unique_id_not_expired now d pr :
  request_ids_unique d -> In pr (prayer_requests d) -> live now pr = true ->
  existsb (fun pr0 => pr_id pr0 =? pr_id pr)
    (filter (expired now) (prayer_requests d)) = false.
Proof.
  unfold request_ids_unique. intros Hnd Hin Hlive.
  destruct (existsb _ _) eqn:Ex; [|reflexivity]. exfalso.
  apply existsb_exists in Ex. destruct Ex as (pr0 & Hpr0 & Hid).
  apply filter_In in Hpr0. destruct Hpr0 as [Hin0 Hexp]. apply Z.eqb_eq in Hid.
  assert (E : filter (fun x => pr_id x =? pr_id pr) (prayer_requests d) = [pr]).
  { clear Hin0 Hexp Hid pr0.
    induction (prayer_requests d) as [|x t IH]; [contradiction|].
    simpl in Hnd. inversion Hnd as [|? ? Hx Ht]; subst. simpl.
    destruct Hin as [->|Hin].
    - rewrite Z.eqb_refl. f_equal. apply filter_none. intros y Hy.
      apply Z.eqb_neq. intros E. apply Hx. rewrite <- E. now apply in_map.
    - destruct (pr_id x =? pr_id pr) eqn:E.
      + exfalso. apply Z.eqb_eq in E. apply Hx. rewrite E. now apply in_map.
      + now apply IH. }
  assert (Hin1 : In pr0 (filter (fun x => pr_id x =? pr_id pr) (prayer_requests d))).
  { apply filter_In. split; [exact Hin0 | now apply Z.eqb_eq]. }
  rewrite E in Hin1. destruct Hin1 as [<-|[]].
  unfold expired, live in *. lia.
Qed.

Lemma swept_count_links now d pr :
  request_ids_unique d -> In pr (prayer_requests d) -> live now pr = true ->
  count_links (pr_id pr) (swept now d) = count_links (pr_id pr) d.
Proof.
  intros Hnd Hin Hlive. unfold count_links. f_equal. f_equal.
  unfold swept, delete_expired. simpl.
  apply filter_filter_implied. intros dp _ Hdp. apply Z.eqb_eq in Hdp.
  rewrite Hdp. apply negb_true_iff.
  exact (unique_id_not_expired now d pr Hnd Hin Hlive).
Qed.

(** X5: when request ids are unique, the cleanup on a healthy pool keeps the
    links of every live request, and so keeps [prayer_count] equal to the
    number of links wherever it was; request ids stay unique. *)
Theorem cleanup_keeps_live_requests :
  forall now w,
    faults w = [] -> request_ids_unique (db w) ->
    let w1 := snd (delete_cleanup_expired now w) in
    (forall pr, In pr (prayer_requests (db w)) -> live now pr = true ->
       In pr (prayer_requests (db w1)) /\
       count_links (pr_id pr) (db w1) = count_links (pr_id pr) (db w)) /\
    (counts_links (db w) -> counts_links (db w1)) /\
    request_ids_unique (db w1).
Proof.
  intros now w Hw Hnd. cbv zeta.
  rewrite (delete_cleanup_expired_healthy now w Hw). cbn [snd db after].
  split; [|split].
  - intros pr Hin Hlive. split.
    + rewrite swept_requests. apply filter_In. now split.
    + now apply swept_count_links.
  - unfold counts_links. intros H. rewrite swept_requests.
    apply Forall_forall. intros pr Hpr. apply filter_In in Hpr.
    destruct Hpr as [Hin Hlive]. rewrite Forall_forall in H.
    rewrite (swept_count_links now (db w) pr Hnd Hin Hlive). now apply H.
  - unfold request_ids_unique. rewrite swept_requests. now apply NoDup_map_filter.
Qed.

(** ** Creating a request *)

Lemma post_prayer_requests_healthy now topic_id topicId description device_id w t :
  faults w = [] ->
  final_topic_id topic_id topicId = Some t -> t <> 0 ->
  post_prayer_requests now topic_id topicId description device_id w =
  if existsb (fun pt => pt_id pt =? t) (prayer_topics (db w))
  then (res_status_json 201 (JsonRequest (created_row now t device_id description (db w))),
        after w (created now t device_id description (db w)))
  else (res_status_json 500 internal_server_error,
        console_error
          "Error creating prayer request: violates foreign key constraint" w).
Proof.
  intros Hw Ht Hnz. unfold post_prayer_requests.
  fold (final_topic_id topic_id topicId). rewrite Ht.
  unfold truthy. replace (t =? 0) with false by lia. cbn [negb].
  run_healthy Hw. unfold insert_prayer_request.
  destruct (existsb _ _); reflexivity.
Qed.

(** X6: creating a request needs a topic id: without a truthy [topic_id] or
    [topicId] the answer is 400 and no query runs; [topic_id] wins over
    [topicId]; on a healthy pool an id of a stored topic, with values that
    fit their columns, gives 201 with the new row (id from the sequence, both
    counters 0, expiry 24 hours after creation) appended to the table, and an
    id of no topic gives 500 and leaves the rows of every table as they
    were. *)
Theorem create_request_contract :
  forall now topic_id topicId description device_id w,
    (truthy (final_topic_id topic_id topicId) = false ->
     post_prayer_requests now topic_id topicId description device_id w =
     (res_status_json 400 (JsonError "Topic ID is required"), w)) /\
    (truthy topic_id = true -> final_topic_id topic_id topicId = topic_id) /\
    (forall t,
       faults w = [] -> final_topic_id topic_id topicId = Some t -> t <> 0 ->
       existsb (fun pt => pt_id pt =? t) (prayer_topics (db w)) = true ->
       fits_request t device_id description (db w) ->
       let r := fst (post_prayer_requests now topic_id topicId description device_id w) in
       let d1 := db (snd (post_prayer_requests now topic_id topicId description device_id w)) in
       r = res_status_json 201 (JsonRequest (created_row now t device_id description (db w))) /\
       prayer_requests d1 =
         prayer_requests (db w) ++ [created_row now t device_id description (db w)] /\
       device_prayers d1 = device_prayers (db w) /\
       prayer_requests_id_seq d1 = prayer_requests_id_seq (db w) + 1) /\
    (forall t,
       faults w = [] -> final_topic_id topic_id topicId = Some t -> t <> 0 ->
       existsb (fun pt => pt_id pt =? t) (prayer_topics (db w)) = false ->
       let d1 := db (snd (post_prayer_requests now topic_id topicId description device_id w)) in
       status (fst (post_prayer_requests now topic_id topicId description device_id w)) = 500 /\
       prayer_topics d1 = prayer_topics (db w) /\
       prayer_requests d1 = prayer_requests (db w) /\
       device_prayers d1 = device_prayers (db w)).
Proof.
  intros now topic_id topicId description device_id w.
  split; [|split; [|split]].
  - intros Hf. unfold post_prayer_requests. fold (final_topic_id topic_id topicId).
    now rewrite Hf.
  - intros Ht. unfold final_topic_id. now rewrite Ht.
  - intros t Hw Ht Hnz Hex _. cbv zeta.
    rewrite (post_prayer_requests_healthy now topic_id topicId description device_id w t
               Hw Ht Hnz), Hex.
    repeat split.
  - intros t Hw Ht Hnz Hex. cbv zeta.
    rewrite (post_prayer_requests_healthy now topic_id topicId description device_id w t
               Hw Ht Hnz), Hex.
    repeat split.
Qed.

(** ** The schema along a session *)

Lemma read_only_steps (R : database -> database -> Prop) {A} (q : statement A) :
  (forall d, R d d) ->
  (forall d rows d', q d = Rows rows d' -> d' = d) ->
  statement_steps R q.
Proof. intros Hr Hq d rows d' E. rewrite (Hq d rows d' E). apply Hr. Qed.

Lemma schema_request_map (g : prayer_request -> prayer_request) d :
  (forall pr, pr_id (g pr) = pr_id pr) ->
  keeps schema_holds d (with_prayer_requests d (map g (prayer_requests d))).
Proof.
  intros Hg (Hu & Hf & Hu' & Hfk & Hid). unfold schema_holds, request_ids_unique,
    request_ids_fresh, constraints_hold in *. simpl.
  rewrite map_map. rewrite (map_ext (fun x => pr_id (g x)) pr_id) by exact Hg.
  repeat split; try assumption; try apply Hid.
  - apply Forall_map. eapply Forall_impl; [|exact Hf]. intros pr Hpr. simpl in *.
    now rewrite Hg.
  - unfold foreign_keys_hold in *. simpl.
    eapply Forall_impl; [|exact Hfk]. intros dp Hdp. simpl in *.
    apply existsb_exists in Hdp. destruct Hdp as (pr & Hin & Hpr).
    apply existsb_exists. exists (g pr). split; [now apply in_map|].
    unfold where_id in *. now rewrite Hg.
Qed.

Lemma schema_request_update p f d :
  (forall pr, pr_id (f pr) = pr_id pr) ->
  keeps schema_holds d (with_prayer_requests d (update_where p f (prayer_requests d))).
Proof.
  intros Hf. apply schema_request_map. intros pr. destruct (p pr); [apply Hf | reflexivity].
Qed.

Lemma schema_completed now device_id id d :
  keeps schema_holds d
    (with_device_prayers d
       (update_where (where_device_request_open device_id id) (set_completed_at now)
          (device_prayers d))).
Proof.
  intros (Hu & Hf & Hc). repeat split; try assumption;
    apply (constraints_completed now device_id id d Hc).
Qed.

Lemma schema_insert_link now device_id id :
  statement_steps (keeps schema_holds) (insert_device_prayer now device_id id).
Proof.
  intros d rows d' E (Hu & Hf & Hc).
  pose proof (constraints_insert now device_id id d rows d' E Hc) as Hc'.
  unfold insert_device_prayer in E.
  destruct device_id as [s|]; [|discriminate].
  destruct (existsb _ (device_prayers d)); [discriminate|].
  destruct (negb _); [discriminate|].
  inversion E; subst. repeat split; try assumption; apply Hc'.
Qed.

Lemma schema_insert_request now topic_id device_id description :
  statement_steps (keeps schema_holds)
    (insert_prayer_request now topic_id device_id description).
Proof.
  intros d rows d' E (Hu & Hf & Hl & Hfk & Hid). unfold insert_prayer_request in E.
  destruct topic_id as [t|]; [|discriminate].
  destruct (negb _); [discriminate|].
  inversion E; subst. clear E.
  unfold schema_holds, request_ids_unique, request_ids_fresh, constraints_hold,
    foreign_keys_hold in *. simpl.
  rewrite map_app. simpl. repeat split; try assumption; try apply Hid.
  - apply Permutation_NoDup
      with (l := prayer_requests_id_seq d :: map pr_id (prayer_requests d)).
    + apply Permutation_cons_append.
    + constructor; [|exact Hu].
      intros Hin. apply in_map_iff in Hin. destruct Hin as (pr & E & Hpr).
      rewrite Forall_forall in Hf. specialize (Hf pr Hpr). simpl in Hf. lia.
  - apply Forall_app. split.
    + eapply Forall_impl; [|exact Hf]. intros pr Hpr. simpl in Hpr. lia.
    + constructor; [simpl; lia | constructor].
  - eapply Forall_impl; [|exact Hfk]. intros dp Hdp. simpl in *.
    rewrite existsb_app, Hdp. reflexivity.
Qed.

Lemma Forall_filtered {A} (P : A -> Prop) (f : A -> bool) l :
  Forall P l -> Forall P (filter f l).
Proof.
  intros H. apply Forall_forall. intros x Hx. apply filter_In in Hx.
  rewrite Forall_forall in H. now apply H.
Qed.

Lemma schema_delete_expired now :
  statement_steps (keeps schema_holds) (delete_expired now).
Proof.
  intros d rows d' E (Hu & Hf & Hl & Hfk & Hnd & Hlt).
  assert (Ed : d' = swept now d) by (unfold swept; now rewrite E).
  subst d'. clear E.
  unfold schema_holds, request_ids_unique, request_ids_fresh, constraints_hold,
    links_unique, link_ids_fresh in *.
  split; [rewrite swept_requests; now apply NoDup_map_filter|].
  split; [rewrite swept_requests; apply Forall_filtered; exact Hf|].
  split; [unfold swept, delete_expired; simpl; now apply NoDup_map_filter|].
  split; [now apply swept_foreign_keys|].
  split; [unfold swept, delete_expired; simpl; now apply NoDup_map_filter|].
  unfold swept, delete_expired. simpl. apply Forall_filtered. exact Hlt.
Qed.

(** A statement that answered rows was not refused. *)
Ltac accepted E :=
  cbv delta [update_pray update_completed_at] in E; cbv beta in E;
  repeat match type of E with
         | context [if ?x then _ else _] => destruct x; try discriminate
         end.

Ltac schema_statement :=
  first
    [ apply schema_insert_link
    | apply schema_insert_request
    | apply schema_delete_expired
    | apply read_only_steps;
        [ exact (keeps_refl schema_holds)
        | let d := fresh "d" in let rows := fresh "rows" in
          let d' := fresh "d'" in let E := fresh "E" in
          intros d rows d' E; inversion E; reflexivity ]
    | let d := fresh "d" in let rows := fresh "rows" in
      let d' := fresh "d'" in let E := fresh "E" in
      intros d rows d' E; accepted E; inversion E; subst;
      first [ apply schema_request_update; reflexivity
            | apply schema_request_map; reflexivity
            | apply schema_completed ] ].

Ltac route_steps_by refl trans stmt :=
  cbv zeta;
  repeat first
    [ apply validation_steps; [exact refl|]
    | apply try_catch_steps
    | apply bind_steps; [exact trans| |intro]
    | apply if_steps
    | apply ret_steps; exact refl
    | apply lift_steps; exact refl
    | apply pool_query_steps; [exact refl|]; stmt ].

Lemma route_schema now e : handler_steps (keeps schema_holds) (route now e).
Proof.
  destruct e as [[id dev|id dev|id dev|id|id dev]|id| | |t1 t2 des dev| |dev|]; simpl;
    [unfold post_join | unfold post_start_praying | unfold post_stop_praying
    | unfold post_pray | unfold post_complete | unfold delete_complete
    | unfold delete_cleanup_expired | unfold get_prayer_topics
    | unfold post_prayer_requests | unfold get_prayer_requests
    | unfold get_device_prayers | unfold post_reset_active_prayers];
    route_steps_by (keeps_refl schema_holds) (keeps_trans schema_holds) schema_statement.
Qed.

Lemma run_routes_steps (R : database -> database -> Prop) :
  (forall d, R d d) -> (forall a b c, R a b -> R b c -> R a c) ->
  (forall now e, handler_steps R (route now e)) ->
  forall requests w, R (db w) (db (run_routes requests w)).
Proof.
  intros Hr Ht Hs requests. induction requests as [|[now e] rest IH]; intros w; simpl.
  - apply Hr.
  - eapply Ht; [apply Hs | apply IH].
Qed.

(** X2: the constraints of the schema (request ids unique and below their
    sequence, one link per device and request, every link on a stored
    request, link ids unique and below their sequence) hold after every
    session over the routes of the store, legacy pray and cleanup included,
    on a store where they hold, whatever the pool does. *)
Theorem session_keeps_schema :
  forall requests w,
    schema_holds (db w) -> schema_holds (db (run_routes requests w)).
Proof.
  intros requests w.
  exact (run_routes_steps (keeps schema_holds) (keeps_refl schema_holds)
           (keeps_trans schema_holds) route_schema requests w).
Qed.

(** ** The counting invariant along a session *)

(** A healthy pool stays healthy. *)
Lemma pool_query_stays_healthy {A} (q : statement A) w :
  faults w = [] -> faults (snd (pool_query q w)) = [].
Proof.
  intros Hw. rewrite pool_query_healthy by exact Hw. destruct (q (db w)); [reflexivity|exact Hw].
Qed.

Lemma bind_stays_healthy {A B} (m : task A) (k : A -> task B) :
  (forall w, faults w = [] -> faults (snd (m w)) = []) ->
  (forall a w, faults w = [] -> faults (snd (k a w)) = []) ->
  forall w, faults w = [] -> faults (snd (bind m k w)) = [].
Proof.
  intros Hm Hk w Hw. unfold bind. specialize (Hm w Hw).
  destruct (m w) as [[a|e] w']; simpl in *; [now apply Hk | exact Hm].
Qed.

Lemma try_catch_stays_healthy (body : task response) line failure :
  (forall w, faults w = [] -> faults (snd (body w)) = []) ->
  forall w, faults w = [] -> faults (snd (try_catch body line failure w)) = [].
Proof.
  intros Hb w Hw. unfold try_catch. specialize (Hb w Hw).
  destruct (body w) as [[r|e] w']; simpl in *; exact Hb.
Qed.

Ltac stays_healthy :=
  cbv zeta;
  repeat first
    [ match goal with |- forall w, faults w = [] -> faults (snd ((if ?b then _ else _) w)) = [] =>
        destruct b end
    | match goal with |- forall a w, faults w = [] -> faults (snd (_ w)) = [] => intro end
    | apply try_catch_stays_healthy
    | apply bind_stays_healthy
    | apply pool_query_stays_healthy
    | (intros ? ?; assumption) ].

Lemma route_stays_healthy now e :
  forall w, faults w = [] -> faults (snd (route now e w)) = [].
Proof.
  destruct e as [[id dev|id dev|id dev|id|id dev]|id| | |t1 t2 des dev| |dev|]; simpl;
    [unfold post_join | unfold post_start_praying | unfold post_stop_praying
    | unfold post_pray | unfold post_complete | unfold delete_complete
    | unfold delete_cleanup_expired | unfold get_prayer_topics
    | unfold post_prayer_requests | unfold get_prayer_requests
    | unfold get_device_prayers | unfold post_reset_active_prayers];
    unfold ret, lift; stays_healthy.
Qed.

Lemma store_request_map (g : prayer_request -> prayer_request) d :
  (forall pr, pr_id (g pr) = pr_id pr) ->
  (forall pr, pr_prayer_count (g pr) = pr_prayer_count pr) ->
  keeps store_ok d (with_prayer_requests d (map g (prayer_requests d))).
Proof.
  intros Hid Hc [Hs Hcl]. split; [now apply schema_request_map|].
  unfold counts_links in *. simpl. apply Forall_map.
  eapply Forall_impl; [|exact Hcl]. intros pr Hpr. simpl in Hpr.
  rewrite Hid, Hc. exact Hpr.
Qed.

Lemma store_request_update p f d :
  (forall pr, pr_id (f pr) = pr_id pr) ->
  (forall pr, pr_prayer_count (f pr) = pr_prayer_count pr) ->
  keeps store_ok d (with_prayer_requests d (update_where p f (prayer_requests d))).
Proof.
  intros Hid Hc. apply store_request_map; intros pr; destruct (p pr); auto.
Qed.

Lemma store_completed now device_id id d :
  keeps store_ok d
    (with_device_prayers d
       (update_where (where_device_request_open device_id id) (set_completed_at now)
          (device_prayers d))).
Proof.
  intros [Hs Hcl]. split; [now apply schema_completed|].
  unfold counts_links in *. simpl.
  eapply Forall_impl; [|exact Hcl]. intros pr Hpr. simpl in Hpr.
  now rewrite count_links_completed.
Qed.

Lemma no_link_on_fresh_id d :
  request_ids_fresh d -> foreign_keys_hold d ->
  count_links (prayer_requests_id_seq d) d = 0.
Proof.
  unfold request_ids_fresh, foreign_keys_hold, count_links. intros Hf Hfk.
  rewrite (filter_none (fun dp => dp_prayer_request_id dp =? prayer_requests_id_seq d));
    [reflexivity|].
  intros dp Hdp. apply Z.eqb_neq. intros E.
  rewrite Forall_forall in Hfk, Hf. specialize (Hfk dp Hdp).
  apply existsb_exists in Hfk. destruct Hfk as (pr & Hpr & Hid).
  specialize (Hf pr Hpr). unfold where_id in Hid. simpl in Hf. lia.
Qed.

Lemma store_insert_request now topic_id device_id description :
  statement_steps (keeps store_ok)
    (insert_prayer_request now topic_id device_id description).
Proof.
  intros d rows d' E [Hs Hcl].
  split; [exact (schema_insert_request now topic_id device_id description d rows d' E Hs)|].
  destruct Hs as (_ & Hf & _ & Hfk & _).
  unfold insert_prayer_request in E.
  destruct topic_id as [t|]; [|discriminate].
  destruct (negb _); [discriminate|].
  inversion E; subst. clear E. unfold counts_links in *. simpl.
  apply Forall_app. split.
  - exact Hcl.
  - constructor; [|constructor]. simpl. symmetry.
    exact (no_link_on_fresh_id d Hf Hfk).
Qed.

Lemma store_delete_expired now :
  statement_steps (keeps store_ok) (delete_expired now).
Proof.
  intros d rows d' E [Hs Hcl].
  split; [exact (schema_delete_expired now d rows d' E Hs)|].
  assert (Ed : d' = swept now d) by (unfold swept; now rewrite E).
  subst d'. destruct Hs as (Hu & _).
  unfold counts_links in *. rewrite swept_requests.
  apply Forall_forall. intros pr Hpr. apply filter_In in Hpr.
  destruct Hpr as [Hin Hlive]. rewrite Forall_forall in Hcl.
  rewrite (swept_count_links now d pr Hu Hin Hlive). now apply Hcl.
Qed.

Ltac store_statement :=
  first
    [ apply store_insert_request
    | apply store_delete_expired
    | apply read_only_steps;
        [ exact (keeps_refl store_ok)
        | let d := fresh "d" in let rows := fresh "rows" in
          let d' := fresh "d'" in let E := fresh "E" in
          intros d rows d' E; inversion E; reflexivity ]
    | let d := fresh "d" in let rows := fresh "rows" in
      let d' := fresh "d'" in let E := fresh "E" in
      intros d rows d' E; accepted E; inversion E; subst;
      first [ apply store_request_update; reflexivity
            | apply store_request_map; reflexivity
            | apply store_completed ] ].

Lemma other_route_store_ok now e :
  match e with
  | Participation _ => False
  | _ => True
  end ->
  handler_steps (keeps store_ok) (route now e).
Proof.
  destruct e as [c|id| | |t1 t2 des dev| |dev|]; simpl; intros H; try contradiction;
    [ unfold delete_complete | unfold delete_cleanup_expired | unfold get_prayer_topics
    | unfold post_prayer_requests | unfold get_prayer_requests
    | unfold get_device_prayers | unfold post_reset_active_prayers ];
    route_steps_by (keeps_refl store_ok) (keeps_trans store_ok) store_statement.
Qed.

Lemma route_store_ok now e w :
  faults w = [] -> is_legacy_pray e = false ->
  store_ok (db w) -> store_ok (db (snd (route now e w))).
Proof.
  intros Hw He.
  destruct e as [c|id| | |t1 t2 des dev| |dev|];
    try (apply other_route_store_ok; exact I).
  intros [Hs Hcl]. split.
  - exact (route_schema now (Participation c) w Hs).
  - exact (proj1 (serve_counts_links now c w Hw He Hcl)).
Qed.

(** X7: on a healthy pool, every session over the routes of the store that
    does not use the legacy pray keeps the schema and, for every request,
    [prayer_count] equal to the number of its links; this holds in particular
    from a database with no request yet. *)
Theorem session_keeps_counting :
  forall requests w,
    faults w = [] ->
    forallb (fun te => negb (is_legacy_pray (snd te))) requests = true ->
    store_ok (db w) ->
    store_ok (db (run_routes requests w)) /\ faults (run_routes requests w) = [].
Proof.
  induction requests as [|[now e] rest IH]; intros w Hw Hno Hok; simpl in *; [auto|].
  apply andb_prop in Hno. destruct Hno as [He Hrest]. apply negb_true_iff in He.
  apply IH; [now apply route_stays_healthy | exact Hrest | now apply route_store_ok].
Qed.

Lemma store_ok_without_requests topics :
  store_ok (with_topics topics).
Proof.
  unfold store_ok, schema_holds, request_ids_unique, request_ids_fresh, constraints_hold,
    links_unique, foreign_keys_hold, link_ids_fresh, counts_links. simpl.
  repeat split; constructor.
Qed.

(** ** A created request and its 24 hours *)

Lemma fresh_id_rows d row :
  request_ids_fresh d -> pr_id row = prayer_requests_id_seq d ->
  filter (where_id (prayer_requests_id_seq d)) (prayer_requests d ++ [row]) = [row].
Proof.
  intros Hf Hid. rewrite filter_app.
  rewrite (filter_none (where_id (prayer_requests_id_seq d)) (prayer_requests d)).
  - simpl. unfold where_id. now rewrite Hid, Z.eqb_refl.
  - intros pr Hpr. unfold request_ids_fresh in Hf. rewrite Forall_forall in Hf.
    specialize (Hf pr Hpr). unfold where_id. simpl in Hf. lia.
Qed.

Lemma find_after_smaller_ids (l : list prayer_request) row i :
  Forall (fun pr => pr_id pr < i) l -> pr_id row = i ->
  find (where_id i) (l ++ [row]) = Some row.
Proof.
  intros Hl Hid. induction Hl as [|pr l Hpr _ IH]; simpl.
  - unfold where_id. now rewrite Hid, Z.eqb_refl.
  - unfold where_id at 1. replace (pr_id pr =? i) with false by lia. exact IH.
Qed.

Lemma created_found now t device_id description d :
  request_ids_fresh d ->
  find_request (prayer_requests_id_seq d) (created now t device_id description d) =
  Some (created_row now t device_id description d).
Proof.
  intros Hf. unfold find_request, created. simpl.
  now apply find_after_smaller_ids.
Qed.

Lemma created_expired_rows now now' t device_id description d :
  request_ids_fresh d -> now + interval_24_hours <= now' ->
  filter (where_id_active now' (prayer_requests_id_seq d))
    (prayer_requests (created now t device_id description d)) = [].
Proof.
  intros Hf Hlate. apply filter_none. intros pr Hpr. unfold created in Hpr. simpl in Hpr.
  apply in_app_or in Hpr. unfold where_id_active. destruct Hpr as [Hpr|[<-|[]]].
  - unfold request_ids_fresh in Hf. rewrite Forall_forall in Hf. specialize (Hf pr Hpr).
    simpl in Hf. replace (pr_id pr =? prayer_requests_id_seq d) with false by lia.
    reflexivity.
  - simpl. rewrite Z.eqb_refl. simpl. lia.
Qed.

(** X8: a request created at time [now] on a healthy pool (values that fit
    their columns, ids drawn from the sequences, links on stored requests) is
    found under the id the creation answered, for exactly 24 hours: before
    [now + 86400] a first join by a device whose id is a value of
    VARCHAR(255) answers the request with [prayer_count] 1 and a legacy pray
    answers it with both counters 1; from then on both answer 404 and change
    nothing. *)
Theorem created_request_lives_24_hours :
  forall now now' topic_id topicId description device_id s w t,
    faults w = [] -> foreign_keys_hold (db w) ->
    final_topic_id topic_id topicId = Some t -> t <> 0 ->
    existsb (fun pt => pt_id pt =? t) (prayer_topics (db w)) = true ->
    fits_request t device_id description (db w) ->
    falsy (Some s) = false -> varchar 255 s = true ->
    join_room 1 (prayer_requests_id_seq (db w)) (db w) ->
    let row := created_row now t device_id description (db w) in
    let w1 := snd (post_prayer_requests now topic_id topicId description device_id w) in
    fst (post_prayer_requests now topic_id topicId description device_id w) =
      res_status_json 201 (JsonRequest row) /\
    (now' < now + interval_24_hours ->
     fst (post_join now' (pr_id row) (Some s) w1) =
       res_json (JsonRequest (set_prayer_count_incr row)) /\
     fst (post_pray now' (pr_id row) w1) = res_json (JsonRequest (set_both_incr row))) /\
    (now + interval_24_hours <= now' ->
     post_join now' (pr_id row) (Some s) w1 = (not_found_or_expired, w1) /\
     post_pray now' (pr_id row) w1 = (not_found_or_expired, w1)).
Proof.
  intros now now' topic_id topicId description device_id s w t
         Hw Hfk Ht Hnz Hex Hfits Hs _ _. cbv zeta.
  assert (Hf : request_ids_fresh (db w)) by apply Hfits.
  rewrite (post_prayer_requests_healthy now topic_id topicId description device_id w t
             Hw Ht Hnz), Hex.
  cbn [fst snd]. split; [reflexivity|].
  set (row := created_row now t device_id description (db w)).
  set (d1 := created now t device_id description (db w)).
  assert (Hfound : find_request (pr_id row) (db (after w d1)) = Some row)
    by (apply created_found; exact Hf).
  split.
  - intros Hlive.
    assert (Hl : now' < pr_expires_at row) by exact Hlive.
    split.
    + rewrite (post_join_healthy now' (pr_id row) s (after w d1) eq_refl Hs).
      rewrite (find_request_live_no_rows now' (pr_id row) _ row Hfound Hl).
      assert (Hnone : existsb (where_device_request (Some s) (pr_id row))
                        (device_prayers (db (after w d1))) = false).
      { destruct (existsb (where_device_request (Some s) (pr_id row)) _) eqn:Ex;
          [|reflexivity]. exfalso.
        apply existsb_exists in Ex. destruct Ex as (dp & Hdp & Hw').
        unfold where_device_request in Hw'. apply andb_prop in Hw'.
        destruct Hw' as [_ Hid]. apply Z.eqb_eq in Hid.
        unfold foreign_keys_hold in Hfk. rewrite Forall_forall in Hfk.
        specialize (Hfk dp Hdp). apply existsb_exists in Hfk.
        destruct Hfk as (pr & Hpr & Hpid).
        unfold request_ids_fresh in Hf. rewrite Forall_forall in Hf.
        specialize (Hf pr Hpr). unfold where_id in Hpid. simpl in Hf, Hid. lia. }
      apply filter_nil_existsb in Hnone. rewrite Hnone. cbn [no_rows fst].
      unfold returning. cbn [db after]. unfold d1, created. cbn [prayer_requests].
      change (pr_id row) with (prayer_requests_id_seq (db w)).
      fold row. now rewrite (fresh_id_rows (db w) row Hf eq_refl).
    + assert (Hroom : pray_room 1 (pr_id row) (db (after w d1))).
      { unfold pray_room. cbn [db after]. unfold d1, created. cbn [prayer_requests].
        apply Forall_app. split.
        - unfold request_ids_fresh in Hf. eapply Forall_impl; [|exact Hf].
          intros pr Hlt Hid. cbv beta in Hlt. unfold row in Hid. simpl in Hid.
          exfalso. lia.
        - constructor; [|constructor]. intros _. unfold int4_max. simpl. lia. }
      now rewrite (pray_once now' (pr_id row) (after w d1) row eq_refl Hfound Hl Hroom).
  - intros Hlate.
    pose proof (created_expired_rows now now' t device_id description (db w) Hf Hlate) as E.
    split.
    + rewrite (post_join_healthy now' (pr_id row) s (after w d1) eq_refl Hs).
      cbn [db after]. change (pr_id row) with (prayer_requests_id_seq (db w)).
      unfold d1. now rewrite E.
    + rewrite (post_pray_healthy now' (pr_id row) (after w d1) eq_refl).
      * cbn [db after]. change (pr_id row) with (prayer_requests_id_seq (db w)).
        unfold d1. now rewrite E.
      * exact (request_holds_id _ _ _ Hfound).
      * apply no_row_at_limit. cbn [db after].
        change (pr_id row) with (prayer_requests_id_seq (db w)). exact E.
Qed.

(** ** The list of active requests *)

Lemma get_prayer_requests_healthy now w :
  faults w = [] ->
  get_prayer_requests now w = (res_json (JsonRequests (active_rows now (db w))), w).
Proof.
  intros Hw. unfold get_prayer_requests. run_healthy Hw.
  unfold active_rows. simpl. now rewrite <- Hw, world_eta.
Qed.

Lemma active_rows_sound now d row :
  In row (active_rows now d) ->
  exists pr, In pr (prayer_requests d) /\ live now pr = true /\ shows pr row.
Proof.
  unfold active_rows, select_active_requests. intros Hin.
  eapply Permutation_in in Hin; [|apply order_by_perm].
  apply in_flat_map in Hin. destruct Hin as (pr & Hpr & Hin).
  apply filter_In in Hpr. destruct Hpr as [Hpr Hlive].
  apply in_flat_map in Hin. destruct Hin as (pt & _ & Hin).
  apply in_map_iff in Hin. destruct Hin as (mc & <- & _).
  exists pr. unfold shows. simpl. repeat split; assumption.
Qed.

Lemma main_category_of_single topics pt :
  catalog_ok topics -> In pt topics ->
  main_category_of topics pt = [main_title topics pt].
Proof.
  intros Hok Hin. unfold main_category_of, main_title.
  destruct (pt_parent_id pt) as [p|] eqn:Hp; [|reflexivity].
  pose proof (parents_are_main _ Hok) as Hpar. rewrite Forall_forall in Hpar.
  destruct (Hpar pt Hin p Hp) as (m & Hm & Hid & _). subst p.
  now rewrite (filter_id_unique topics m (ids_unique _ Hok) Hm).
Qed.

Lemma active_rows_ids now d :
  catalog_ok (prayer_topics d) -> topics_referenced d ->
  Permutation (map ar_id (active_rows now d))
              (map pr_id (filter (live now) (prayer_requests d))).
Proof.
  intros Hok Href. unfold active_rows, select_active_requests.
  rewrite order_by_perm.
  unfold topics_referenced in Href.
  change (fun pr => now <? pr_expires_at pr) with (live now).
  induction (prayer_requests d) as [|pr l IH]; [reflexivity|].
  inversion Href as [|? ? Hpr Hl]; subst. simpl.
  destruct (live now pr); [|now apply IH].
  cbn [flat_map]. rewrite map_app. simpl map at 2.
  apply existsb_exists in Hpr. destruct Hpr as (pt & Hpt & Hid). apply Z.eqb_eq in Hid.
  rewrite (filter_ext (fun x => pr_topic_id pr =? pt_id x) (fun x => pt_id x =? pt_id pt))
    by (intros x; rewrite <- Hid; apply Z.eqb_sym).
  rewrite (filter_id_unique (prayer_topics d) pt (ids_unique _ Hok) Hpt).
  cbn [flat_map]. rewrite (main_category_of_single _ pt Hok Hpt). simpl.
  apply perm_skip. now apply IH.
Qed.

(** X9: on a healthy pool the list of active requests changes nothing and
    shows only stored requests that are not expired, each with its current
    counters, the latest created first; when the catalog is well formed and
    every request is filed under a stored topic, every live request is listed
    exactly once. *)
Theorem active_requests_listed :
  forall now w,
    faults w = [] ->
    get_prayer_requests now w = (res_json (JsonRequests (active_rows now (db w))), w) /\
    Forall (fun row => now < ar_expires_at row /\
                       exists pr, In pr (prayer_requests (db w)) /\ shows pr row)
           (active_rows now (db w)) /\
    StronglySorted (fun a b => ar_created_at b <= ar_created_at a)
                   (active_rows now (db w)) /\
    (catalog_ok (prayer_topics (db w)) -> topics_referenced (db w) ->
     Permutation (map ar_id (active_rows now (db w)))
                 (map pr_id (filter (live now) (prayer_requests (db w))))).
Proof.
  intros now w Hw. split; [now apply get_prayer_requests_healthy|]. split; [|split].
  - apply Forall_forall. intros row Hrow.
    destruct (active_rows_sound now (db w) row Hrow) as (pr & Hpr & Hlive & Hshow).
    split; [|eauto].
    destruct Hshow as (_ & _ & _ & _ & _ & _ & _ & E). rewrite E. unfold live in Hlive. lia.
  - unfold active_rows, select_active_requests.
    eapply StronglySorted_weaken;
      [|apply (order_by_sorted (fun a b => ar_created_at b <=? ar_created_at a))].
    + intros a b _ _ H. simpl in H. lia.
    + intros a b. lia.
    + intros a b c. lia.
  - apply active_rows_ids.
Qed.

(** ** The list of one device *)






(** ** The legacy complete *)

(** X11: [DELETE /:id/complete] acts on the store as stop-praying does,
    whatever the pool does: the same status, the same database and the same
    faults left; it never writes [device_prayers], so it completes no link.
    On a healthy pool, for a request id within INTEGER and a gauge that can
    go down within INTEGER, it checks the expiry and floors [active_prayers]
    at zero. *)
Theorem legacy_complete_is_stop_praying :
  forall now id device_id w,
    falsy device_id = false ->
    status (fst (delete_complete now id w)) =
      status (fst (post_stop_praying now id device_id w)) /\
    db (snd (delete_complete now id w)) = db (snd (post_stop_praying now id device_id w)) /\
    faults (snd (delete_complete now id w)) =
      faults (snd (post_stop_praying now id device_id w)) /\
    device_prayers (db (snd (delete_complete now id w))) = device_prayers (db w) /\
    (faults w = [] -> int4 id -> gauge_may_drop id (db w) ->
     delete_complete now id w =
     if no_rows (filter (where_id_active now id) (prayer_requests (db w)))
     then (not_found_or_expired, w)
     else (res_json (JsonMessage "Prayer completed successfully"),
           after w (with_prayer_requests (db w)
                      (update_where (where_id_active now id) set_active_prayers_decr
                         (prayer_requests (db w)))))).
Proof.
  intros now id device_id w Hd.
  unfold delete_complete, post_stop_praying. rewrite Hd.
  unfold try_catch, bind, ret, pool_query, update_stop_praying.
  split; [|split; [|split; [|split]]].
  - destruct (faults w) as [|[|] fs]; simpl; try reflexivity;
      rewrite no_rows_returning; destruct (no_rows _); reflexivity.
  - destruct (faults w) as [|[|] fs]; simpl; try reflexivity;
      rewrite no_rows_returning; destruct (no_rows _); reflexivity.
  - destruct (faults w) as [|[|] fs]; simpl; try reflexivity;
      rewrite no_rows_returning; destruct (no_rows _); reflexivity.
  - destruct (faults w) as [|[|] fs]; simpl; try reflexivity;
      rewrite no_rows_returning; destruct (no_rows _); reflexivity.
  - intros Hw _ _. rewrite Hw. simpl. rewrite no_rows_returning.
    destruct (no_rows _) eqn:E; [|reflexivity].
    apply no_rows_nil in E. rewrite update_where_none by exact E.
    now rewrite with_prayer_requests_same, <- Hw, world_eta.
Qed.

(** ** The statistics on a healthy pool *)

Lemma get_stats_healthy now w :
  faults w = [] ->
  exists row,
    select_stats now (db w) = Rows [row] (db w) /\
    get_stats now w = (res_json (JsonStats row), w).
Proof.
  intros Hw. eexists. split; [reflexivity|].
  unfold get_stats. run_healthy Hw. now rewrite <- Hw, world_eta.
Qed.

Lemma sum_of_ext_in {A} (e e' : A -> Z) l :
  (forall x, In x l -> e x = e' x) -> sum_of e l = sum_of e' l.
Proof.
  induction l as [|x l IH]; intros H; simpl; [reflexivity|].
  rewrite (H x (or_introl eq_refl)).
  change (fold_right (fun row acc => e row + acc) 0 l) with (sum_of e l).
  change (fold_right (fun row acc => e' row + acc) 0 l) with (sum_of e' l).
  rewrite IH; [reflexivity|]. intros y Hy. apply H. now right.
Qed.

Lemma filter_exclusive_length {A} (c a b : A -> bool) (t : list A) :
  (forall x, a x = true -> b x = false) ->
  List.length (filter (fun x => c x && (a x || b x)) t) =
  (List.length (filter (fun x => a x && c x) t) +
   List.length (filter (fun x => c x && b x) t))%nat.
Proof.
  intros Hex. induction t as [|x t IH]; simpl; [reflexivity|].
  destruct (c x), (a x) eqn:Ea, (b x) eqn:Eb; simpl; rewrite ?IH; try lia.
  rewrite (Hex x Ea) in Eb. discriminate.
Qed.

Lemma filter_both {A} (a c : A -> bool) (t : list A) :
  filter (fun x => a x && c x) t = filter c (filter a t).
Proof.
  induction t as [|x t IH]; simpl; [reflexivity|].
  destruct (a x); simpl; [destruct (c x); now rewrite IH | exact IH].
Qed.

Lemma completed_rows_length (pr : prayer_request) (l : list device_prayer) :
  List.length (filter completed_at_not_null (map (fun dp => (pr, Some dp)) l)) =
  List.length (filter is_completed l).
Proof.
  induction l as [|dp l IH]; simpl; [reflexivity|].
  unfold completed_at_not_null at 1, is_completed at 1. simpl.
  destruct (negb (is_null (dp_completed_at dp))); simpl; now rewrite IH.
Qed.

Lemma completed_rows_of_request d pr :
  count_when completed_at_not_null
    match filter (fun dp => pr_id pr =? dp_prayer_request_id dp) (device_prayers d) with
    | [] => [(pr, None)]
    | dps => map (fun dp => (pr, Some dp)) dps
    end =
  Z.of_nat (List.length
              (filter (fun dp => (pr_id pr =? dp_prayer_request_id dp) && is_completed dp)
                 (device_prayers d))).
Proof.
  unfold count_when. f_equal. rewrite filter_both.
  destruct (filter (fun dp => pr_id pr =? dp_prayer_request_id dp) (device_prayers d))
    as [|x xs]; [reflexivity|].
  apply completed_rows_length.
Qed.

Lemma count_when_app {A} (c : A -> bool) l1 l2 :
  count_when c (l1 ++ l2) = count_when c l1 + count_when c l2.
Proof. unfold count_when. rewrite filter_app, length_app. lia. Qed.

Lemma completed_joined_rows now d :
  count_when completed_at_not_null
    (filter (fun row => now <? pr_expires_at (fst row)) (left_join_device_prayers d)) =
  sum_of (fun pr =>
            Z.of_nat (List.length
                        (filter (fun dp => (pr_id pr =? dp_prayer_request_id dp) &&
                                           is_completed dp)
                           (device_prayers d))))
    (filter (live now) (prayer_requests d)).
Proof.
  unfold left_join_device_prayers.
  induction (prayer_requests d) as [|pr prs IH]; [reflexivity|].
  cbn [flat_map]. rewrite filter_app, count_when_app, IH. cbn [filter].
  rewrite (filter_joined_rows now pr).
  - unfold live at 2. destruct (now <? pr_expires_at pr).
    + rewrite completed_rows_of_request. reflexivity.
    + reflexivity.
  - destruct (filter _ (device_prayers d)) as [|dp dps]; [repeat constructor|].
    apply Forall_forall. intros row Hrow. apply in_map_iff in Hrow.
    destruct Hrow as (x & <- & _). reflexivity.
Qed.

Lemma completed_links_once (l : list prayer_request) (t : list device_prayer) :
  NoDup (map pr_id l) ->
  sum_of (fun pr =>
            Z.of_nat (List.length
                        (filter (fun dp => (pr_id pr =? dp_prayer_request_id dp) &&
                                           is_completed dp) t))) l =
  Z.of_nat (List.length
              (filter (fun dp => is_completed dp &&
                                 existsb (fun pr => pr_id pr =? dp_prayer_request_id dp) l) t)).
Proof.
  induction l as [|pr l IH]; intros Hnd.
  - simpl. rewrite (filter_none _ t); [reflexivity|]. intros dp _. apply andb_false_r.
  - inversion Hnd as [|? ? Hpr Hl]; subst.
    cbn [sum_of fold_right existsb].
    change (fold_right _ 0 l) with
      (sum_of (fun pr0 =>
                 Z.of_nat (List.length
                             (filter (fun dp => (pr_id pr0 =? dp_prayer_request_id dp) &&
                                                is_completed dp) t))) l).
    rewrite (IH Hl).
    rewrite (filter_exclusive_length is_completed
               (fun dp => pr_id pr =? dp_prayer_request_id dp)
               (fun dp => existsb (fun pr0 => pr_id pr0 =? dp_prayer_request_id dp) l)).
    + lia.
    + intros dp Ha. apply Z.eqb_eq in Ha.
      destruct (existsb _ l) eqn:Ex; [|reflexivity]. exfalso.
      apply existsb_exists in Ex. destruct Ex as (pr0 & Hin & E). apply Z.eqb_eq in E.
      apply Hpr. rewrite Ha, <- E. now apply in_map.
Qed.

Lemma sum_of_single_links d (e : prayer_request -> Z) l :
  Forall (fun pr => count_links (pr_id pr) d <= 1) l ->
  sum_of (fun pr => e pr * fan_out d pr) l = sum_of e l.
Proof.
  intros H. apply sum_of_ext_in. intros pr Hpr. rewrite Forall_forall in H.
  specialize (H pr Hpr). unfold fan_out. simpl in H. lia.
Qed.

(** X12: on a healthy pool the statistics change nothing and answer one
    row in which each sum weighs a live request by the number of its joined
    rows; the two sums are the sums over the live requests whenever no live
    request has more than one link, and [completed_prayers] is the number of
    completed links of live requests whenever request ids are unique. *)
Theorem stats_on_healthy_pool :
  forall now w,
    faults w = [] ->
    exists row,
      get_stats now w = (res_json (JsonStats row), w) /\
      total_prayers row =
        sum_of (fun pr => pr_prayer_count pr * fan_out (db w) pr)
               (filter (live now) (prayer_requests (db w))) /\
      active_prayers row =
        sum_of (fun pr => pr_active_prayers pr * fan_out (db w) pr)
               (filter (live now) (prayer_requests (db w))) /\
      (Forall (fun pr => count_links (pr_id pr) (db w) <= 1)
              (filter (live now) (prayer_requests (db w))) ->
       total_prayers row = total_prayers (stats_report now (db w)) /\
       active_prayers row = active_prayers (stats_report now (db w))) /\
      (request_ids_unique (db w) ->
       completed_prayers row = completed_prayers (stats_report now (db w))).
Proof.
  intros now w Hw. destruct (get_stats_healthy now w Hw) as (row & Eq & Eh).
  exists row. split; [exact Eh|].
  unfold select_stats in Eq. inversion Eq as [Erow]. clear Eq Eh.
  cbn [total_prayers active_prayers completed_prayers].
  pose proof (stats_sums_weighted now (db w) pr_prayer_count) as Ht.
  pose proof (stats_sums_weighted now (db w) pr_active_prayers) as Ha.
  change (fun pr => now <? pr_expires_at pr) with (live now) in Ht, Ha.
  split; [exact Ht|]. split; [exact Ha|]. split.
  - intros Hone. rewrite Ht, Ha. unfold stats_report. cbn [total_prayers active_prayers].
    change (fun pr => now <? pr_expires_at pr) with (live now).
    split; now apply sum_of_single_links.
  - intros Hnd. rewrite completed_joined_rows.
    rewrite completed_links_once by (now apply NoDup_map_filter).
    unfold stats_report, count_when, is_completed. cbn [completed_prayers].
    reflexivity.
Qed.

(** ** Failures and the console *)

Lemma ret_quiet {A} (a : A) : task_quiet (ret a).
Proof. intros w. reflexivity. Qed.

Lemma lift_quiet {A} (c : completion A) : task_quiet (lift c).
Proof. intros w. reflexivity. Qed.

Lemma pool_query_quiet {A} (q : statement A) : task_quiet (pool_query q).
Proof.
  intros w. unfold pool_query.
  destruct (faults w) as [|[|] fs]; simpl; try reflexivity; destruct (q (db w)); reflexivity.
Qed.

Lemma bind_quiet {A B} (m : task A) (k : A -> task B) :
  task_quiet m -> (forall a, task_quiet (k a)) -> task_quiet (bind m k).
Proof.
  intros Hm Hk w. unfold bind. specialize (Hm w).
  destruct (m w) as [[a|e] w']; simpl in *; [|exact Hm].
  rewrite Hk. exact Hm.
Qed.

Lemma if_quiet {A} (b : bool) (m1 m2 : task A) :
  task_quiet m1 -> task_quiet m2 -> task_quiet (if b then m1 else m2).
Proof. now destruct b. Qed.

Lemma try_catch_logs (body : task response) line failure :
  task_quiet body -> task_returns (fun r => status r <> 500) body ->
  logs_failures (try_catch body line failure).
Proof.
  intros Hq Hr w. unfold try_catch. specialize (Hq w).
  destruct (body w) as [[r|e] w'] eqn:E; simpl in *.
  - right. split; [exact (Hr w r w' E) | exact Hq].
  - left. split; [reflexivity|]. eexists. now rewrite Hq.
Qed.

Lemma validation_logs (b : bool) (n : Z) (j : json) (h : handler) :
  n <> 500 -> logs_failures h ->
  logs_failures (if b then fun w => (res_status_json n j, w) else h).
Proof.
  intros Hn Hh. destruct b; [|exact Hh]. intros w. right. simpl. auto.
Qed.

Ltac quiet :=
  repeat first
    [ apply bind_quiet; [|intro]
    | apply if_quiet
    | apply ret_quiet
    | apply lift_quiet
    | apply pool_query_quiet ].

Ltac logs_failures_by_structure :=
  cbv zeta;
  repeat (apply validation_logs; [discriminate|]);
  apply try_catch_logs; [quiet | returns_no_500].

(** X13: on every route of the store, the statistics included and whatever
    the pool does, a response with status 500 comes with exactly one new line
    on the console, and any other response with none. *)
Theorem failures_are_logged :
  forall now e, logs_failures (route now e) /\ logs_failures (get_stats now).
Proof.
  intros now e. split.
  - destruct e as [[id dev|id dev|id dev|id|id dev]|id| | |t1 t2 des dev| |dev|]; simpl;
      [unfold post_join | unfold post_start_praying | unfold post_stop_praying
      | unfold post_pray | unfold post_complete | unfold delete_complete
      | unfold delete_cleanup_expired | unfold get_prayer_topics
      | unfold post_prayer_requests | unfold get_prayer_requests
      | unfold get_device_prayers | unfold post_reset_active_prayers];
      logs_failures_by_structure.
  - unfold get_stats. logs_failures_by_structure.
Qed.

(** ** Holding and releasing the button *)

Lemma stop_after_start pr :
  0 <= pr_active_prayers pr ->
  set_active_prayers_decr (set_active_prayers_incr pr) = pr.
Proof.
  intros H. destruct pr as [i t dv ds c a cr ex]. unfold set_active_prayers_decr,
    set_active_prayers_incr. simpl in *. f_equal. lia.
Qed.

Lemma start_praying_found now id device_id w pr :
  faults w = [] -> falsy device_id = false ->
  find_request id (db w) = Some pr -> now < pr_expires_at pr ->
  faults (snd (post_start_praying now id device_id w)) = [] /\
  find_request id (db (snd (post_start_praying now id device_id w))) =
    Some (set_active_prayers_incr pr).
Proof.
  intros Hw Hd Hf Hl. rewrite post_start_praying_healthy by assumption.
  rewrite (find_request_live_no_rows now id (db w) pr Hf Hl). cbn [snd db after faults].
  split; [reflexivity|].
  exact (find_request_updated (where_id_active now id) set_active_prayers_incr
           id (db w) pr (fun _ => eq_refl) Hf (find_request_live now id (db w) pr Hf Hl)).
Qed.

Lemma stop_praying_found now id device_id w pr :
  faults w = [] -> falsy device_id = false ->
  find_request id (db w) = Some pr -> now < pr_expires_at pr ->
  faults (snd (post_stop_praying now id device_id w)) = [] /\
  find_request id (db (snd (post_stop_praying now id device_id w))) =
    Some (set_active_prayers_decr pr).
Proof.
  intros Hw Hd Hf Hl. rewrite post_stop_praying_healthy by assumption.
  rewrite (find_request_live_no_rows now id (db w) pr Hf Hl). cbn [snd db after faults].
  split; [reflexivity|].
  exact (find_request_updated (where_id_active now id) set_active_prayers_decr
           id (db w) pr (fun _ => eq_refl) Hf (find_request_live now id (db w) pr Hf Hl)).
Qed.

(** X14: on a healthy pool and a live request with a non-negative gauge
    below the limit of INTEGER, start-praying followed by stop-praying gives
    the request back as it was; in the other order the gauge ends at
    [max(active_prayers - 1, 0) + 1], which is one more than before when it
    was zero. *)
Theorem start_then_stop_restores :
  forall now1 now2 id d1 d2 w pr,
    faults w = [] -> falsy d1 = false -> falsy d2 = false ->
    find_request id (db w) = Some pr ->
    now1 < pr_expires_at pr -> now2 < pr_expires_at pr ->
    0 <= pr_active_prayers pr ->
    int4 id -> gauge_room id (db w) ->
    find_request id (db (run [(now1, StartPraying id d1); (now2, StopPraying id d2)] w)) =
      Some pr /\
    option_map pr_active_prayers
      (find_request id (db (run [(now1, StopPraying id d1); (now2, StartPraying id d2)] w))) =
      Some (Z.max (pr_active_prayers pr - 1) 0 + 1).
Proof.
  intros now1 now2 id d1 d2 w pr Hw H1 H2 Hf Hl1 Hl2 Hnn _ _. cbn [run serve]. split.
  - destruct (start_praying_found now1 id d1 w pr Hw H1 Hf Hl1) as [Hw1 Hf1].
    destruct (stop_praying_found now2 id d2 _ _ Hw1 H2 Hf1 Hl2) as [_ Hf2].
    rewrite Hf2. f_equal. now apply stop_after_start.
  - destruct (stop_praying_found now1 id d1 w pr Hw H1 Hf Hl1) as [Hw1 Hf1].
    destruct (start_praying_found now2 id d2 _ _ Hw1 H2 Hf1 Hl2) as [_ Hf2].
    rewrite Hf2. reflexivity.
Qed.

(** ** The topic catalog on any catalog *)

Lemma own_none_iff {V} (o : object V) key : own o key = None <-> ~ In key (map fst o).
Proof.
  induction o as [|[k v] o IH]; simpl; [tauto|].
  destruct (String.eqb k key) eqn:E.
  - apply String.eqb_eq in E. split; [discriminate | intros H; exfalso; apply H; now left].
  - apply String.eqb_neq in E. rewrite IH. tauto.
Qed.

Lemma own_some_in {V} (o : object V) key v : own o key = Some v -> In (key, v) o.
Proof.
  induction o as [|[k x] o IH]; simpl; [discriminate|].
  destruct (String.eqb k key) eqn:E.
  - apply String.eqb_eq in E. intros H. inversion H; subst. now left.
  - intros H. right. now apply IH.
Qed.

Lemma assign_existing_keys {V} (o : object V) key v :
  own o key <> None -> map fst (assign o key v) = map fst o.
Proof.
  induction o as [|[k x] o IH]; simpl; [congruence|].
  destruct (String.eqb k key) eqn:E; simpl; [reflexivity|].
  intros H. now rewrite IH.
Qed.

Lemma assign_forall {V} (P : string * V -> Prop) (o : object V) key v :
  Forall P o -> P (key, v) -> Forall P (assign o key v).
Proof.
  intros Ho Hv. induction Ho as [|[k x] o Hx Ho IH]; simpl.
  - constructor; [exact Hv | constructor].
  - destruct (String.eqb k key) eqn:E.
    + apply String.eqb_eq in E. subst k. constructor; [exact Hv | exact Ho].
    + constructor; [exact Hx | exact IH].
Qed.

Lemma well_keyed_assign o key g :
  well_keyed o -> key = property_key (group_title g) -> inherited key = false ->
  well_keyed (assign o key g).
Proof.
  intros [Hnd Hall] Hkey Hinh. split.
  - destruct (own o key) eqn:E.
    + rewrite assign_existing_keys by congruence. exact Hnd.
    + rewrite (assign_new o key g E), map_app. simpl.
      apply Permutation_NoDup with (l := key :: map fst o).
      * apply Permutation_cons_append.
      * constructor; [now apply own_none_iff | exact Hnd].
  - apply assign_forall; [exact Hall | simpl; auto].
Qed.

Lemma group_topic_well_keyed o topic o' :
  well_keyed o -> group_topic o topic = Normal o' -> well_keyed o'.
Proof.
  intros Hwk. unfold group_topic.
  set (key := property_key (main_category topic)).
  set (o1 := match own o key with
             | Some _ => o
             | None => if inherited key then o
                       else assign o key
                              {| group_id := parent_id_or_id topic;
                                 group_title := main_category topic;
                                 subcategories := [] |}
             end).
  assert (H1 : well_keyed o1).
  { unfold o1. destruct (own o key); [exact Hwk|].
    destruct (inherited key) eqn:Hi; [exact Hwk|].
    apply well_keyed_assign; [exact Hwk | reflexivity | exact Hi]. }
  destruct (truthy (parent_id topic)); [|intros E; inversion E; now subst].
  destruct (own o1 key) as [g|] eqn:Eg; [|discriminate].
  intros E. inversion E; subst. clear E.
  pose proof (own_some_in o1 key g Eg) as Hin.
  destruct H1 as [Hnd Hall]. pose proof Hall as Hall'. rewrite Forall_forall in Hall'.
  destruct (Hall' (key, g) Hin) as [Hk Hi]. simpl in Hk, Hi.
  apply well_keyed_assign; [split; assumption | exact Hk | exact Hi].
Qed.

Lemma forEach_well_keyed rows : forall o o',
  well_keyed o -> forEach group_topic rows o = Normal o' -> well_keyed o'.
Proof.
  induction rows as [|row rows IH]; intros o o' Hwk; simpl.
  - intros E. inversion E. now subst.
  - destruct (group_topic o row) as [o1|e] eqn:E1; [|discriminate].
    apply IH. eapply group_topic_well_keyed; eassumption.
Qed.

Lemma object_values_perm {V} (o : object V) : Permutation (object_values o) (map snd o).
Proof.
  unfold object_values. rewrite order_by_perm.
  induction o as [|[k v] o IH]; simpl; [reflexivity|].
  destruct (array_index k); simpl.
  - now apply perm_skip.
  - rewrite <- Permutation_middle. now apply perm_skip.
Qed.

Lemma well_keyed_titles o :
  well_keyed o -> NoDup (map group_title (map snd o)).
Proof.
  intros [Hnd Hall]. apply (NoDup_map_inv property_key).
  rewrite !map_map.
  rewrite (map_ext_in (fun x => property_key (group_title (snd x))) fst); [exact Hnd|].
  intros kv Hkv. rewrite Forall_forall in Hall. symmetry. apply (Hall kv Hkv).
Qed.

(** A row that cannot be pushed makes the loop throw. *)
Lemma forEach_unpushable rows : forall o,
  well_keyed o -> existsb unpushable rows = true ->
  exists e, forEach group_topic rows o = Throw e.
Proof.
  induction rows as [|row rows IH]; intros o Hwk Hex; simpl in *; [discriminate|].
  destruct (unpushable row) eqn:Hu.
  - unfold unpushable in Hu. apply andb_prop in Hu. destruct Hu as [Ht Hi].
    unfold group_topic. rewrite Ht.
    assert (Hown : own o (property_key (main_category row)) = None).
    { apply own_none_iff. intros Hin. apply in_map_iff in Hin.
      destruct Hin as (kv & Hk & Hkv). destruct Hwk as [_ Hall].
      rewrite Forall_forall in Hall. destruct (Hall kv Hkv) as [_ Hni]. congruence. }
    rewrite Hown, Hi, Hown. eexists. reflexivity.
  - simpl in Hex. destruct (group_topic o row) as [o1|e] eqn:E1; [|eexists; reflexivity].
    apply IH; [eapply group_topic_well_keyed; eassumption | exact Hex].
Qed.

Lemma well_keyed_empty : well_keyed [].
Proof. split; constructor. Qed.

(** X15: for any catalog, whatever the pool does, the topic route changes
    nothing in the database, and when it answers groups no two of them have
    the same title; on a healthy pool, one subcategory whose main category is
    named like a property that objects inherit ("constructor", "toString",
    ...) makes the route answer 500. *)
Theorem topic_groups_by_title :
  forall w,
    db (snd (get_prayer_topics w)) = db w /\
    (forall groups,
       fst (get_prayer_topics w) = res_json (JsonTopics groups) ->
       NoDup (map group_title groups)) /\
    (faults w = [] -> existsb unpushable (topic_rows (db w)) = true ->
     fst (get_prayer_topics w) = res_status_json 500 internal_server_error).
Proof.
  intros w. unfold get_prayer_topics, try_catch, bind, lift, ret, pool_query, topic_rows.
  change (select_topics (db w))
    with (Rows (order_by order_leb
                  (flat_map (left_join_parent (prayer_topics (db w)))
                     (prayer_topics (db w)))) (db w)).
  set (rows := order_by order_leb _).
  split; [|split].
  - destruct (faults w) as [|[|] fs]; simpl; try reflexivity;
      destruct (forEach group_topic rows []); reflexivity.
  - intros groups.
    destruct (faults w) as [|[|] fs]; simpl; try discriminate;
      destruct (forEach group_topic rows []) as [o|e] eqn:E; simpl; try discriminate;
      intros H; inversion H; subst;
      (eapply Permutation_NoDup;
         [apply Permutation_map; symmetry; apply object_values_perm
         | apply well_keyed_titles; eapply forEach_well_keyed;
             [apply well_keyed_empty | exact E]]).
  - intros Hw Hex. rewrite Hw. simpl.
    destruct (forEach_unpushable rows [] well_keyed_empty Hex) as [e E].
    now rewrite E.
Qed.

(** * Devices and push notifications *)

Lemma server_eta s :
  {| tables_of := tables_of s; pending := pending s; errors := errors s;
     firebaseAdmin := firebaseAdmin s; outbox := outbox s |} = s.
Proof. now destruct s. Qed.

Lemma tables_eta t :
  {| base := base t; devices := devices t; devices_id_seq := devices_id_seq t |} = t.
Proof. now destruct t. Qed.

Lemma pool_query_all_healthy {A} (q : query A) s :
  pending s = [] ->
  pool_query_all q s =
  match q (tables_of s) with
  | Found rows t => (Normal rows, with_tables s t [])
  | Failed e => (Throw e, s)
  end.
Proof.
  intros H. unfold pool_query_all. rewrite H.
  destruct (q (tables_of s)); [reflexivity|].
  unfold with_tables. now rewrite <- H, server_eta.
Qed.

Lemma with_tables_same s : pending s = [] -> with_tables s (tables_of s) [] = s.
Proof. intros H. unfold with_tables. now rewrite <- H, server_eta. Qed.

Ltac run_job H :=
  unfold job_try_catch, jbind, jret;
  repeat (rewrite pool_query_all_healthy by (simpl; first [exact H | reflexivity]); simpl).

(** ** Registration *)

Lemma filter_unique_device (l : list device) x :
  NoDup (map dev_device_id l) -> In x l ->
  filter (fun dev => String.eqb (dev_device_id dev) (dev_device_id x)) l = [x].
Proof.
  induction l as [|y t IH]; intros Hnd Hin; [contradiction|].
  simpl in Hnd. inversion Hnd as [|? ? Hy Ht]; subst. simpl.
  destruct Hin as [->|Hin].
  - rewrite String.eqb_refl. f_equal. apply filter_none. intros z Hz.
    apply String.eqb_neq. intros E. apply Hy. rewrite <- E. now apply in_map.
  - destruct (String.eqb (dev_device_id y) (dev_device_id x)) eqn:E.
    + exfalso. apply String.eqb_eq in E. apply Hy. rewrite E. now apply in_map.
    + now apply IH.
Qed.

Lemma falsy_some d : falsy (Some d) = false -> d <> ""%string.
Proof. simpl. intros H E. subst. discriminate. Qed.

Lemma partition_perm {A} (p : A -> bool) (l : list A) :
  Permutation l (filter (fun x => negb (p x)) l ++ filter p l).
Proof.
  induction l as [|x l IH]; [reflexivity|]. cbn [filter].
  destruct (p x); cbn [negb].
  - now apply Permutation_cons_app.
  - cbn [app]. now apply perm_skip.
Qed.

Lemma filter_opposite {A} (p : A -> bool) (l : list A) :
  filter p (filter (fun x => negb (p x)) l) = [].
Proof.
  apply filter_none. intros x Hx. apply filter_In in Hx. destruct Hx as [_ Hx].
  now apply negb_true_iff in Hx.
Qed.

Lemma filter_twice {A} (p : A -> bool) (l : list A) : filter p (filter p l) = filter p l.
Proof. apply filter_all. intros x Hx. now apply filter_In in Hx. Qed.

(** X16: registration is an upsert keyed by [device_id].  Without a device
    id or a platform the answer is 400 and nothing happens.  Otherwise, on a
    healthy pool with unique device ids and values that fit their columns
    (device id VARCHAR(255), platform VARCHAR(20)), the answer carries the
    device's row
    with the given token and platform and the time of the call; afterwards
    that row is the only one of the device, the other devices are as before,
    device ids are still unique, a first registration adds one row and a
    repeated one adds none and keeps the row's id and creation time; the
    store and the outbox are untouched. *)
Theorem register_device_upserts :
  forall now device_id push_token platform s,
    (falsy device_id || falsy platform = true ->
     post_register_device now device_id push_token platform s =
     (answer 400 (NError "Device ID and platform are required"), s)) /\
    (forall d p,
       device_id = Some d -> platform = Some p ->
       falsy device_id = false -> falsy platform = false ->
       pending s = [] -> devices_unique (tables_of s) ->
       fits_device d push_token p (tables_of s) ->
       let r := fst (post_register_device now device_id push_token platform s) in
       let s' := snd (post_register_device now device_id push_token platform s) in
       let hit := fun dev => String.eqb (dev_device_id dev) d in
       exists row,
         r = answer 200 (NRegistered (Some row)) /\
         dev_device_id row = d /\ dev_push_token row = push_token /\
         dev_platform row = p /\ dev_last_active row = now /\
         filter hit (devices (tables_of s')) = [row] /\
         filter (fun dev => negb (hit dev)) (devices (tables_of s')) =
           filter (fun dev => negb (hit dev)) (devices (tables_of s)) /\
         devices_unique (tables_of s') /\
         (forall old, In old (devices (tables_of s)) -> dev_device_id old = d ->
            dev_id row = dev_id old /\ dev_created_at row = dev_created_at old /\
            List.length (devices (tables_of s')) = List.length (devices (tables_of s))) /\
         (existsb hit (devices (tables_of s)) = false ->
            dev_created_at row = now /\
            List.length (devices (tables_of s')) = S (List.length (devices (tables_of s)))) /\
         base (tables_of s') = base (tables_of s) /\ outbox s' = outbox s).
Proof.
  intros now device_id push_token platform s. split.
  - intros H. unfold post_register_device. now rewrite H.
  - intros d p -> -> Hd Hp Hs Hu _. cbv zeta.
    unfold post_register_device. rewrite Hd, Hp. cbn [orb].
    run_job Hs. unfold upsert_device.
    set (hit := fun dev => String.eqb (dev_device_id dev) d).
    set (set := fun dev =>
                  {| dev_id := dev_id dev; dev_device_id := dev_device_id dev;
                     dev_push_token := push_token; dev_platform := p;
                     dev_last_active := now; dev_created_at := dev_created_at dev |}).
    destruct (existsb hit (devices (tables_of s))) eqn:Ex.
    + apply existsb_exists in Ex. destruct Ex as (old & Hold & Hhit).
      unfold hit in Hhit. apply String.eqb_eq in Hhit.
      assert (Ef : filter hit (devices (tables_of s)) = [old]).
      { unfold hit. rewrite <- Hhit. now apply filter_unique_device. }
      exists (set old). cbn [fst snd tables_of with_tables with_devices devices base outbox].
      unfold returning. rewrite Ef. cbn [map hd_error].
      split; [reflexivity|]. split; [exact Hhit|]. repeat (split; [reflexivity|]).
      split; [|split; [|split; [|split; [|split]]]].
      * assert (H1 : filter hit [set old] = [set old]).
        { unfold hit, set. simpl. now rewrite Hhit, String.eqb_refl. }
        now rewrite filter_app, filter_opposite, H1.
      * assert (H1 : filter (fun dev => negb (String.eqb (dev_device_id dev) d))
                       [set old] = []).
        { unfold set. simpl. now rewrite Hhit, String.eqb_refl. }
        rewrite filter_app, filter_twice, H1. apply app_nil_r.
      * unfold devices_unique in *. unfold with_devices. cbn [devices].
        eapply Permutation_NoDup; [|exact Hu].
        rewrite (partition_perm hit (devices (tables_of s))) at 1.
        rewrite Ef, !map_app. reflexivity.
      * intros old' Hin' Hd'.
        assert (Hin2 : In old' (filter hit (devices (tables_of s)))).
        { apply filter_In. split; [exact Hin'|]. unfold hit. rewrite Hd'.
          apply String.eqb_refl. }
        rewrite Ef in Hin2. destruct Hin2 as [<-|[]].
        repeat split.
        rewrite (Permutation_length (partition_perm hit (devices (tables_of s)))).
        now rewrite Ef, !length_app.
      * intros Hno. exfalso.
        assert (existsb hit (devices (tables_of s)) = true)
          by (apply existsb_exists; exists old; split;
              [exact Hold | unfold hit; rewrite Hhit; apply String.eqb_refl]).
        congruence.
      * split; reflexivity.
    + eexists. cbn [fst snd tables_of with_tables with_devices devices base outbox hd_error].
      split; [reflexivity|]. cbn [dev_device_id dev_push_token dev_platform dev_last_active
                                  dev_id dev_created_at].
      repeat (split; [reflexivity|]).
      pose proof Ex as Ex'. apply filter_nil_existsb in Ex'.
      split; [|split; [|split; [|split; [|split]]]].
      * rewrite filter_app, Ex'. simpl. unfold hit. simpl. now rewrite String.eqb_refl.
      * rewrite filter_app. simpl. rewrite String.eqb_refl. simpl.
        apply app_nil_r.
      * unfold devices_unique in *. unfold with_devices. cbn [devices].
        rewrite map_app. simpl.
        apply Permutation_NoDup with (l := d :: map dev_device_id (devices (tables_of s))).
        -- apply Permutation_cons_append.
        -- constructor; [|exact Hu]. intros Hin. apply in_map_iff in Hin.
           destruct Hin as (x & Hx & Hin).
           assert (existsb hit (devices (tables_of s)) = true)
             by (apply existsb_exists; exists x; split;
                 [exact Hin | unfold hit; rewrite Hx; apply String.eqb_refl]).
           congruence.
      * intros old Hold Hd'. exfalso.
        assert (existsb hit (devices (tables_of s)) = true)
          by (apply existsb_exists; exists old; split;
              [exact Hold | unfold hit; rewrite Hd'; apply String.eqb_refl]).
        congruence.
      * intros _. split; [reflexivity|]. rewrite length_app. simpl. lia.
      * split; reflexivity.
Qed.

(** ** Broadcasts *)

Lemma send_all_spec now title body data devices : forall s,
  send_all now title body data devices s =
  match firebaseAdmin s with
  | None => (map (fun _ => false) devices, s)
  | Some send =>
      (map (fun rc => send (broadcast_message now title body data rc)) devices,
       {| tables_of := tables_of s; pending := pending s;
          errors := errors s ++
                    map (fun _ => send_error_line)
                      (filter (fun m => negb (send m))
                         (map (broadcast_message now title body data) devices));
          firebaseAdmin := firebaseAdmin s;
          outbox := outbox s ++ map (broadcast_message now title body data) devices |})
  end.
Proof.
  induction devices as [|rc rest IH]; intros s.
  - simpl. destruct (firebaseAdmin s) eqn:E; [|reflexivity].
    rewrite !app_nil_r, <- E. now rewrite server_eta.
  - cbn [send_all]. unfold sendPushNotification at 1.
    destruct (firebaseAdmin s) as [send|] eqn:E.
    + rewrite IH. cbn [firebaseAdmin tables_of pending errors outbox].
      cbn [map filter]. fold (broadcast_message now title body data rc).
      rewrite <- (app_assoc (outbox s)). cbn [app].
      destruct (send (broadcast_message now title body data rc)); cbn [negb map].
      * reflexivity.
      * now rewrite <- app_assoc.
    + rewrite IH, E. reflexivity.
Qed.

Lemma successCount_resolved s now title body data devices :
  successCount (fst (send_all now title body data devices s)) =
  resolved s (map (broadcast_message now title body data) devices).
Proof.
  rewrite send_all_spec. unfold resolved, successCount.
  destruct (firebaseAdmin s) as [send|]; cbn [fst].
  - f_equal. induction devices as [|rc rest IH]; simpl; [reflexivity|].
    destruct (send _); simpl; now rewrite IH.
  - induction devices as [|rc rest IH]; simpl; [reflexivity | exact IH].
Qed.

Lemma outbox_after_send_all s now title body data devices :
  outbox (snd (send_all now title body data devices s)) =
  outbox s ++ handed_over s (map (broadcast_message now title body data) devices) /\
  tables_of (snd (send_all now title body data devices s)) = tables_of s /\
  pending (snd (send_all now title body data devices s)) = pending s /\
  errors (snd (send_all now title body data devices s)) =
  errors s ++ rejections s (map (broadcast_message now title body data) devices).
Proof.
  rewrite send_all_spec. unfold handed_over, rejections.
  destruct (firebaseAdmin s); cbn [snd outbox tables_of pending errors];
    rewrite ?app_nil_r; auto.
Qed.

Lemma firebase_after_send_all s now title body data devices :
  firebaseAdmin (snd (send_all now title body data devices s)) = firebaseAdmin s.
Proof.
  rewrite send_all_spec. destruct (firebaseAdmin s) eqn:E; simpl; [reflexivity | exact E].
Qed.

Lemma resolved_bounds s messages :
  0 <= resolved s messages <= Z.of_nat (List.length messages).
Proof.
  unfold resolved. destruct (firebaseAdmin s) as [send|]; [|lia].
  pose proof (filter_length_le send messages). lia.
Qed.

Lemma in_recipients requesterDeviceId t rc :
  In rc (recipients requesterDeviceId t) <->
  exists dev,
    In dev (devices t) /\ dev_push_token dev = Some (rc_push_token rc) /\
    dev_device_id dev = rc_device_id rc /\ dev_platform dev = rc_platform rc /\
    (truthy_string requesterDeviceId = true ->
     Some (dev_device_id dev) <> requesterDeviceId).
Proof.
  unfold recipients, select_recipients. rewrite in_flat_map. split.
  - intros (dev & Hdev & Hrc). exists dev.
    unfold recipient_of in Hrc. destruct (dev_push_token dev) as [token|] eqn:Et; [|contradiction].
    destruct Hrc as [<-|[]]. simpl.
    destruct (truthy_string requesterDeviceId) eqn:Tr.
    + apply filter_In in Hdev. destruct Hdev as [Hdev Hne].
      repeat split; try assumption. intros _ E. rewrite <- E in Hne. simpl in Hne.
      now rewrite String.eqb_refl in Hne.
    + repeat split; try assumption. discriminate.
  - intros (dev & Hdev & Ht & Hid & Hp & Hne). exists dev. split.
    + destruct (truthy_string requesterDeviceId) eqn:Tr; [|exact Hdev].
      apply filter_In. split; [exact Hdev|]. specialize (Hne eq_refl).
      destruct requesterDeviceId as [q|]; simpl; [|reflexivity].
      apply negb_true_iff, String.eqb_neq. congruence.
    + unfold recipient_of. rewrite Ht. left. destruct rc; simpl in *. now subst.
Qed.

Lemma recipients_all_length (l : list device) :
  List.length (flat_map recipient_of l) =
  List.length (filter (fun dev => negb (is_null (dev_push_token dev))) l).
Proof.
  induction l as [|dev rest IH]; [reflexivity|].
  cbn [flat_map filter]. rewrite length_app, IH. unfold recipient_of.
  now destruct (dev_push_token dev).
Qed.

Lemma recipients_length requesterDeviceId t :
  List.length (recipients requesterDeviceId t) =
  List.length (filter (addressed requesterDeviceId) (devices t)).
Proof.
  unfold recipients, select_recipients. rewrite recipients_all_length.
  unfold addressed. destruct (truthy_string requesterDeviceId).
  - rewrite <- filter_both. f_equal. apply filter_ext. intros dev.
    cbn [andb]. apply andb_comm.
  - f_equal. apply filter_ext. intros dev. cbn [andb negb]. now rewrite andb_true_r.
Qed.

(** X17: a prayer request needs a name and a text (400 otherwise, nothing
    happens).  On a healthy pool, for a text of ASCII characters and a
    requester's device id PostgreSQL takes as a text, it goes to exactly
    the devices that have a push token, the requester's device excepted when
    its id is given: one message per such device, in the order of the rows of
    the query, none when Firebase is not initialised; the answer counts the
    rows and, among them, the sends that resolved; no table is written. *)
Theorem prayer_request_broadcast :
  forall now requesterName prayerText requesterDeviceId s,
    (falsy requesterName || falsy prayerText = true ->
     post_send_prayer_request now requesterName prayerText requesterDeviceId s =
     (answer 400 (NError "Requester name and prayer text are required"), s)) /\
    (forall name text,
       requesterName = Some name -> prayerText = Some text ->
       falsy requesterName = false -> falsy prayerText = false ->
       pending s = [] ->
       plain text = true -> text_field requesterDeviceId = true ->
       let r := fst (post_send_prayer_request now requesterName prayerText requesterDeviceId s) in
       let s' := snd (post_send_prayer_request now requesterName prayerText requesterDeviceId s) in
       let rcs := recipients requesterDeviceId (tables_of s) in
       let messages :=
         map (broadcast_message now "🙏 New Prayer Request"
                (prayer_request_body name text)
                [("type", Text "prayer_request"); ("requesterName", Text name);
                 ("prayerText", Text text)]%string) rcs in
       r = answer 200 (NBroadcast "Prayer request sent to all devices"
                         (Z.of_nat (List.length rcs)) (resolved s messages)) /\
       0 <= resolved s messages <= Z.of_nat (List.length rcs) /\
       outbox s' = outbox s ++ handed_over s messages /\
       tables_of s' = tables_of s /\
       List.length rcs =
         List.length (filter (addressed requesterDeviceId) (devices (tables_of s))) /\
       (forall rc, In rc rcs <->
          exists dev,
            In dev (devices (tables_of s)) /\
            dev_push_token dev = Some (rc_push_token rc) /\
            dev_device_id dev = rc_device_id rc /\ dev_platform dev = rc_platform rc /\
            (truthy_string requesterDeviceId = true ->
             Some (dev_device_id dev) <> requesterDeviceId))).
Proof.
  intros now requesterName prayerText requesterDeviceId s. split.
  - intros H. unfold post_send_prayer_request.
    destruct requesterName, prayerText; try reflexivity. now rewrite H.
  - intros name text -> -> Hn Ht Hs _ _. cbv zeta.
    unfold post_send_prayer_request. rewrite Hn, Ht. cbn [orb].
    run_job Hs. unfold lift_send.
    set (rcs := flat_map recipient_of _).
    change (recipients requesterDeviceId (tables_of s)) with rcs.
    set (title := "🙏 New Prayer Request"%string).
    set (data := [("type"%string, Text "prayer_request"); ("requesterName"%string, Text name);
                  ("prayerText"%string, Text text)]).
    pose proof (successCount_resolved (with_tables s (tables_of s) []) now title
                  (prayer_request_body name text) data rcs) as Hc.
    pose proof (outbox_after_send_all (with_tables s (tables_of s) []) now title
                  (prayer_request_body name text) data rcs) as (Ho & Htab & _ & _).
    destruct (send_all now title (prayer_request_body name text) data rcs
                (with_tables s (tables_of s) [])) as [results s1].
    cbn [fst snd] in *.
    split; [now rewrite Hc|]. split.
    + pose proof (resolved_bounds s (map (broadcast_message now title
                                            (prayer_request_body name text) data) rcs)) as B.
      now rewrite length_map in B.
    + split; [exact Ho|]. split; [exact Htab|]. split.
      * apply (recipients_length requesterDeviceId (tables_of s)).
      * intros rc. apply in_recipients.
Qed.

(** X18: on a healthy pool the daily reminder goes to every device that has a
    push token, nobody excepted: one message per such device with the fixed
    title and text, none when Firebase is not initialised; the answer counts
    the devices and the sends that resolved; no table is written. *)
Theorem daily_reminder_broadcast :
  forall now s,
    pending s = [] ->
    let r := fst (post_send_daily_reminder now s) in
    let s' := snd (post_send_daily_reminder now s) in
    let rcs := recipients None (tables_of s) in
    let messages :=
      map (broadcast_message now "🕐 Daily Prayer Time"
             "Take a moment to connect with God and pray for others in your community."
             [("type", Text "daily_reminder")]%string) rcs in
    r = answer 200 (NBroadcast "Daily reminder sent to all devices"
                      (Z.of_nat (List.length rcs)) (resolved s messages)) /\
    0 <= resolved s messages <= Z.of_nat (List.length rcs) /\
    outbox s' = outbox s ++ handed_over s messages /\
    tables_of s' = tables_of s /\
    (forall dev token,
       In dev (devices (tables_of s)) -> dev_push_token dev = Some token ->
       In {| rc_device_id := dev_device_id dev; rc_push_token := token;
             rc_platform := dev_platform dev |} rcs) /\
    List.length rcs =
    List.length (filter (fun dev => negb (is_null (dev_push_token dev)))
                   (devices (tables_of s))).
Proof.
  intros now s Hs. cbv zeta.
  unfold post_send_daily_reminder.
  run_job Hs. unfold lift_send.
  set (rcs := flat_map recipient_of _).
  change (recipients None (tables_of s)) with rcs.
  set (title := "🕐 Daily Prayer Time"%string).
  set (body := "Take a moment to connect with God and pray for others in your community."%string).
  set (data := [("type"%string, Text "daily_reminder")]).
  pose proof (successCount_resolved (with_tables s (tables_of s) []) now title body data rcs)
    as Hc.
  pose proof (outbox_after_send_all (with_tables s (tables_of s) []) now title body data rcs)
    as (Ho & Htab & _ & _).
  destruct (send_all now title body data rcs (with_tables s (tables_of s) []))
    as [results s1].
  cbn [fst snd] in *.
  split; [now rewrite Hc|]. split.
  { pose proof (resolved_bounds s (map (broadcast_message now title body data) rcs)) as B.
    now rewrite length_map in B. }
  split; [exact Ho|]. split; [exact Htab|]. split.
  - intros dev token Hdev Ht.
    apply (in_recipients None (tables_of s)). exists dev. simpl.
    repeat split; try assumption. discriminate.
  - apply recipients_all_length.
Qed.

(** ** The notification to the creator of a request *)

Lemma filter_unique_key {A K} (key : A -> K) (p : A -> bool) l x :
  NoDup (map key l) -> In x l -> p x = true ->
  (forall y, p y = true -> key y = key x) -> filter p l = [x].
Proof.
  induction l as [|y t IH]; intros Hnd Hin Hp Hkey; [contradiction|].
  simpl in Hnd. inversion Hnd as [|? ? Hy Ht]; subst. simpl.
  destruct Hin as [->|Hin].
  - rewrite Hp. f_equal. apply filter_none. intros z Hz.
    destruct (p z) eqn:E; [|reflexivity].
    exfalso. apply Hy. rewrite <- (Hkey z E). now apply in_map.
  - destruct (p y) eqn:E.
    + exfalso. apply Hy. rewrite (Hkey y E). now apply in_map.
    + now apply IH.
Qed.

Lemma select_creator_rows id t row :
  In row (match select_creator id t with Found rows _ => rows | Failed _ => [] end) ->
  In (cr_request row) (prayer_requests (base t)) /\
  pr_id (cr_request row) = id /\
  pr_device_id (cr_request row) <> None /\
  forall token,
    cr_push_token row = Some token ->
    exists dev,
      In dev (devices t) /\
      pr_device_id (cr_request row) = Some (dev_device_id dev) /\
      dev_push_token dev = Some token /\ cr_platform row = Some (dev_platform dev).
Proof.
  unfold select_creator. rewrite in_flat_map. intros (pr & Hpr & Hrow).
  apply filter_In in Hpr. destruct Hpr as [Hpr Hw].
  apply andb_true_iff in Hw. destruct Hw as [Hid Hdev]. apply Z.eqb_eq in Hid.
  assert (Hnn : pr_device_id pr <> None).
  { intros E. rewrite E in Hdev. discriminate. }
  destruct (filter (fun d => text_eq (dev_device_id d) (pr_device_id pr)) (devices t))
    as [|d0 ds] eqn:Ef.
  - destruct Hrow as [<-|[]]. simpl. repeat split; try assumption. discriminate.
  - rewrite <- Ef in Hrow. apply in_map_iff in Hrow. destruct Hrow as (d & <- & Hd).
    simpl. repeat split; try assumption.
    intros token Ht. exists d. apply filter_In in Hd. destruct Hd as [Hd He].
    repeat split; try assumption.
    destruct (pr_device_id pr) as [c|]; [|discriminate].
    simpl in He. apply String.eqb_eq in He. now subst.
Qed.

Lemma select_creator_unique id t pr dev :
  request_ids_unique (base t) -> devices_unique t ->
  In pr (prayer_requests (base t)) -> pr_id pr = id ->
  In dev (devices t) -> pr_device_id pr = Some (dev_device_id dev) ->
  select_creator id t =
  Found [{| cr_request := pr; cr_push_token := dev_push_token dev;
            cr_platform := Some (dev_platform dev) |}] t.
Proof.
  intros Hu Hd Hpr Hid Hdev Hc. unfold select_creator. f_equal.
  rewrite (filter_unique_key pr_id _ (prayer_requests (base t)) pr Hu Hpr).
  - cbn [flat_map]. rewrite Hc.
    rewrite (filter_unique_key dev_device_id _ (devices t) dev Hd Hdev).
    + reflexivity.
    + simpl. apply String.eqb_refl.
    + intros y Hy. simpl in Hy. now apply String.eqb_eq in Hy.
  - rewrite Hid, Z.eqb_refl, Hc. reflexivity.
  - intros y Hy. apply andb_true_iff in Hy. destruct Hy as [Hy _].
    apply Z.eqb_eq in Hy. congruence.
Qed.

Lemma prayer_joined_sent now pr dev token send joiner s :
  pending s = [] ->
  request_ids_unique (base (tables_of s)) -> devices_unique (tables_of s) ->
  creator_token (tables_of s) pr dev token -> pr_id pr <> 0 ->
  Some (dev_device_id dev) <> joiner -> firebaseAdmin s = Some send ->
  post_send_prayer_joined now (Some (pr_id pr)) joiner s =
  (answer 200
     (NSent (send (joined_message now pr token))
        (if send (joined_message now pr token)
         then "Prayer joined notification sent"
         else "Failed to send notification")),
   {| tables_of := tables_of s; pending := [];
      errors := if send (joined_message now pr token) then errors s
                else errors s ++ [send_error_line];
      firebaseAdmin := Some send;
      outbox := outbox s ++ [joined_message now pr token] |}).
Proof.
  intros Hs Hu Hd (Hpr & Hdev & Hc & Ht & Hne) Hid Hj Hf.
  unfold post_send_prayer_joined.
  assert (Etr : negb (truthy (Some (pr_id pr))) = false).
  { simpl. apply negb_false_iff, negb_true_iff, Z.eqb_neq. exact Hid. }
  rewrite Etr.
  unfold job_try_catch, jbind, jret.
  rewrite pool_query_all_healthy by exact Hs.
  rewrite (select_creator_unique (pr_id pr) (tables_of s) pr dev Hu Hd Hpr eq_refl Hdev Hc).
  cbn [cr_push_token cr_request cr_platform]. rewrite Ht.
  assert (Ef : falsy (Some token) = false).
  { simpl. now apply String.eqb_neq. }
  rewrite Ef, Hc.
  assert (Ej : match joiner with
               | Some joiner => String.eqb (dev_device_id dev) joiner
               | None => false
               end = false).
  { destruct joiner as [joiner|]; [|reflexivity].
    apply String.eqb_neq. congruence. }
  rewrite Ej. unfold lift_send, sendPushNotification.
  cbn [firebaseAdmin with_tables]. rewrite Hf. reflexivity.
Qed.

(** X19: the notification that somebody joined goes to the creator of the
    request and to nobody else.  On a healthy pool the route writes no table
    and hands over at most one message; a message it hands over is addressed
    to the push token of a registered device that is the creator of the
    request with this id, is never the joiner's own device, and tells the
    request's [prayer_count].  Conversely, with unique request ids and device
    ids, a request whose creator has a push token and is not the joiner is
    notified whenever Firebase is initialised, and the answer reports what
    [send] did. *)
Theorem prayer_joined_notifies_creator :
  forall now prayer_request_id joiner_device_id s,
    pending s = [] ->
    let r := fst (post_send_prayer_joined now prayer_request_id joiner_device_id s) in
    let s' := snd (post_send_prayer_joined now prayer_request_id joiner_device_id s) in
    tables_of s' = tables_of s /\
    (outbox s' = outbox s \/
     exists pr dev token,
       creator_token (tables_of s) pr dev token /\
       prayer_request_id = Some (pr_id pr) /\
       Some (dev_device_id dev) <> joiner_device_id /\
       outbox s' = outbox s ++ [joined_message now pr token]) /\
    (forall pr dev token send,
       request_ids_unique (base (tables_of s)) -> devices_unique (tables_of s) ->
       creator_token (tables_of s) pr dev token ->
       prayer_request_id = Some (pr_id pr) -> pr_id pr <> 0 ->
       Some (dev_device_id dev) <> joiner_device_id ->
       firebaseAdmin s = Some send ->
       outbox s' = outbox s ++ [joined_message now pr token] /\
       r = answer 200
             (NSent (send (joined_message now pr token))
                (if send (joined_message now pr token)
                 then "Prayer joined notification sent"
                 else "Failed to send notification"))).
Proof.
  intros now prayer_request_id joiner_device_id s Hs. cbv zeta.
  split; [|split].
  - unfold post_send_prayer_joined.
    destruct prayer_request_id as [id|]; [|reflexivity].
    destruct (negb (truthy (Some id))); [reflexivity|].
    run_job Hs.
    destruct (flat_map _ _) as [|row rows]; [reflexivity|].
    destruct (cr_push_token row) as [token|]; [|reflexivity].
    destruct (falsy (Some token)); [reflexivity|].
    destruct (match pr_device_id (cr_request row) with Some _ => _ | None => _ end);
      [reflexivity|].
    unfold lift_send, sendPushNotification.
    destruct (firebaseAdmin (with_tables s (tables_of s) [])); reflexivity.
  - unfold post_send_prayer_joined.
    destruct prayer_request_id as [id|]; [|now left].
    destruct (negb (truthy (Some id))); [now left|].
    pose proof (select_creator_rows id (tables_of s)) as Hrows.
    run_job Hs.
    unfold select_creator in Hrows.
    destruct (flat_map _ _) as [|row rows]; [now left|].
    specialize (Hrows row (or_introl eq_refl)).
    destruct Hrows as (Hpr & Hid & Hnn & Htok).
    destruct (cr_push_token row) as [token|] eqn:Et; [|now left].
    destruct (falsy (Some token)) eqn:Ef; [now left|].
    destruct (Htok token eq_refl) as (dev & Hdev & Hc & Hdt & Hp).
    rewrite Hc.
    destruct joiner_device_id as [joiner|].
    + destruct (String.eqb (dev_device_id dev) joiner) eqn:Ej; [now left|].
      unfold lift_send, sendPushNotification.
      destruct (firebaseAdmin (with_tables s (tables_of s) [])); [|now left].
      right. exists (cr_request row), dev, token. split.
      { repeat split; try assumption. now apply falsy_some. }
      split; [now rewrite Hid|]. split.
      { intros E. apply String.eqb_neq in Ej. congruence. }
      simpl. unfold joined_message. now rewrite Hid.
    + unfold lift_send, sendPushNotification.
      destruct (firebaseAdmin (with_tables s (tables_of s) [])); [|now left].
      right. exists (cr_request row), dev, token. split.
      { repeat split; try assumption. now apply falsy_some. }
      split; [now rewrite Hid|]. split; [discriminate|].
      simpl. unfold joined_message. now rewrite Hid.
  - intros pr dev token send Hu Hd Hc -> Hid Hj Hf.
    rewrite (prayer_joined_sent now pr dev token send joiner_device_id s Hs Hu Hd Hc Hid Hj Hf).
    split; reflexivity.
Qed.

(** ** The routes under any pool *)

Lemma reads_cases {A} (q : query A) s :
  reads q ->
  (exists rows fs,
     pool_query_all q s = (Normal rows, with_tables s (tables_of s) fs) /\
     q (tables_of s) = Found rows (tables_of s)) \/
  (exists e fs, pool_query_all q s = (Throw e, with_tables s (tables_of s) fs)).
Proof.
  intros Hq. unfold pool_query_all. destruct (Hq (tables_of s)) as [rows E]. rewrite E.
  destruct (pending s) as [|[|] fs]; [left|right|left]; eauto.
Qed.

Lemma reads_select_recipients r : reads (select_recipients r).
Proof. intros t. unfold select_recipients. eauto. Qed.

Lemma reads_select_creator id : reads (select_creator id).
Proof. intros t. unfold select_creator. eauto. Qed.

Lemma reads_select_device d : reads (select_device d).
Proof. intros t. unfold select_device. eauto. Qed.

Lemma reads_select_devices : reads select_devices.
Proof. intros t. unfold select_devices. eauto. Qed.

Lemma reads_select_prayer_stats d : reads (select_prayer_stats d).
Proof. intros t. unfold select_prayer_stats. eauto. Qed.

Lemma reads_select_recent_activity d : reads (select_recent_activity d).
Proof. intros t. unfold select_recent_activity. eauto. Qed.

Lemma upsert_device_base now d p q t :
  match upsert_device now d p q t with
  | Found _ t' => base t' = base t
  | Failed _ => True
  end.
Proof.
  unfold upsert_device. destruct d, q; try exact I.
  destruct (existsb _ _); reflexivity.
Qed.

Lemma rejections_nil s : rejections s [] = [].
Proof. unfold rejections. now destruct (firebaseAdmin s). Qed.

Lemma rejections_one s send m :
  firebaseAdmin s = Some send ->
  rejections s [m] = if send m then [] else [send_error_line].
Proof. intros E. unfold rejections. rewrite E. cbn [filter]. now destruct (send m). Qed.

Lemma rejections_handed_over s messages :
  rejections s (handed_over s messages) = rejections s messages.
Proof. unfold rejections, handed_over. now destruct (firebaseAdmin s). Qed.

Lemma rejections_with_tables s t fs messages :
  rejections (with_tables s t fs) messages = rejections s messages.
Proof. reflexivity. Qed.

Lemma handed_over_with_tables s t fs messages :
  handed_over (with_tables s t fs) messages = handed_over s messages.
Proof. reflexivity. Qed.

Ltac respect_done :=
  cbn [fst snd tables_of errors outbox firebaseAdmin with_tables n_status answer];
  repeat match goal with |- _ /\ _ => split end;
  first
    [ reflexivity
    | intros; reflexivity
    | intros; discriminate
    | intros; congruence
    | intros; split; [reflexivity | eexists; reflexivity]
    | intros; exists (@nil push_message); rewrite rejections_nil, !app_nil_r; now split
    | exists (@nil push_message); now rewrite app_nil_r
    | eexists; reflexivity ].

(** The same after one message went to [send]. *)
Ltac respect_sent Ef Es :=
  cbn [fst snd tables_of errors outbox firebaseAdmin with_tables n_status answer];
  repeat match goal with |- _ /\ _ => split end;
  first
    [ reflexivity
    | intros; reflexivity
    | intros; discriminate
    | intros; eexists; split; [reflexivity|];
      rewrite (rejections_one _ _ _ Ef), Es; rewrite ?app_nil_r; reflexivity
    | eexists; reflexivity ].

Ltac respect_query H :=
  let rows := fresh "rows" in
  let fs := fresh "fs" in
  let e := fresh "e" in
  let E := fresh "E" in
  destruct H as [(rows & fs & E & _)|(e & fs & E)]; rewrite E; clear E;
  [|respect_done].

Lemma broadcast_respectful now title body data (line : string) e reply :
  registers e = false ->
  (forall devices results, n_status (reply devices results) = 200) ->
  respectful e
    (job_try_catch
       (devices <- pool_query_all (select_recipients (match e with
                                                        | SendPrayerRequest _ _ r => r
                                                        | _ => None
                                                        end)) ;;
        results <- lift_send (send_all now title body data devices) ;;
        jret (reply devices results))%job
       line).
Proof.
  intros He Hreply s. cbv zeta. unfold job_try_catch, jbind, jret.
  pose proof (reads_cases _ s (reads_select_recipients
                                 (match e with SendPrayerRequest _ _ r => r | _ => None end)))
    as H.
  respect_query H.
  unfold lift_send.
  pose proof (outbox_after_send_all (with_tables s (tables_of s) fs) now title body data rows)
    as (Ho & Ht & _ & He').
  pose proof (firebase_after_send_all (with_tables s (tables_of s) fs) now title body data
                rows) as Hfa.
  destruct (send_all now title body data rows (with_tables s (tables_of s) fs))
    as [results s1].
  cbn [fst snd] in *.
  rewrite rejections_with_tables in He'. rewrite handed_over_with_tables in Ho.
  cbn [tables_of errors outbox firebaseAdmin with_tables] in Ho, Ht, He', Hfa.
  rewrite Ht, He', Ho, Hfa, Hreply.
  repeat match goal with |- _ /\ _ => split end;
    try reflexivity; try (intros; discriminate).
  - intros _. eexists. split; [reflexivity|]. now rewrite rejections_handed_over.
  - eexists. reflexivity.
Qed.

Lemma register_respectful now d p q : respectful (RegisterDevice d p q)
                                        (post_register_device now d p q).
Proof.
  intros s. cbv zeta. unfold post_register_device.
  destruct (falsy d || falsy q); [respect_done|].
  unfold job_try_catch, jbind, jret, pool_query_all.
  pose proof (upsert_device_base now d p q (tables_of s)) as Hb.
  destruct (pending s) as [|[|] fs];
    try destruct (upsert_device now d p q (tables_of s)) as [rows t'|err];
    respect_done.
Qed.

Lemma prayer_joined_respectful now id joiner :
  respectful (SendPrayerJoined id joiner) (post_send_prayer_joined now id joiner).
Proof.
  intros s. cbv zeta. unfold post_send_prayer_joined.
  destruct id as [id|]; [|respect_done].
  destruct (negb (truthy (Some id))); [respect_done|].
  unfold job_try_catch, jbind, jret.
  pose proof (reads_cases _ s (reads_select_creator id)) as H.
  respect_query H.
  destruct rows as [|row rows]; [respect_done|].
  destruct (cr_push_token row) as [token|]; [|respect_done].
  destruct (falsy (Some token)); [respect_done|].
  destruct (match pr_device_id (cr_request row) with Some _ => _ | None => _ end);
    [respect_done|].
  unfold lift_send, sendPushNotification.
  cbn [firebaseAdmin with_tables].
  destruct (firebaseAdmin s) as [send|] eqn:Ef; [|respect_done].
  destruct (send _) eqn:Es; respect_sent Ef Es.
Qed.

Lemma test_notification_respectful now d title body data :
  respectful (SendTestNotification d title body data)
    (post_send_test_notification now d title body data).
Proof.
  intros s. cbv zeta. unfold post_send_test_notification.
  destruct d as [id|]; [|respect_done].
  destruct (falsy (Some id)); [respect_done|].
  unfold job_try_catch, jbind, jret.
  pose proof (reads_cases _ s (reads_select_device (Some id))) as H.
  respect_query H.
  destruct rows as [|dev rows]; [respect_done|].
  destruct (dev_push_token dev) as [token|]; [|respect_done].
  destruct (falsy (Some token)); [respect_done|].
  unfold lift_send, sendPushNotification.
  cbn [firebaseAdmin with_tables].
  destruct (firebaseAdmin s) as [send|] eqn:Ef; [|respect_done].
  destruct (send _) eqn:Es; respect_sent Ef Es.
Qed.

Lemma devices_respectful : respectful Devices get_devices.
Proof.
  intros s. cbv zeta. unfold get_devices, job_try_catch, jbind, jret.
  pose proof (reads_cases _ s reads_select_devices) as H.
  respect_query H. respect_done.
Qed.

Lemma device_info_respectful deviceId : respectful (DeviceInfo deviceId)
                                          (get_device_info deviceId).
Proof.
  intros s. cbv zeta. unfold get_device_info, job_try_catch, jbind, jret.
  pose proof (reads_cases _ s (reads_select_device (Some deviceId))) as H.
  respect_query H.
  pose proof (reads_cases _ (with_tables s (tables_of s) fs)
                (reads_select_prayer_stats deviceId)) as H.
  respect_query H.
  pose proof (reads_cases _ (with_tables (with_tables s (tables_of s) fs)
                               (tables_of (with_tables s (tables_of s) fs)) fs0)
                (reads_select_recent_activity deviceId)) as H.
  respect_query H.
  destruct rows0 as [[joined completed] active]. respect_done.
Qed.

(** X20: whatever the pool does, no route of the notification part writes the
    prayer tables, and only registration writes [devices]; none of them
    replaces the Firebase handle, and each only ever adds to what was handed
    to Firebase.  An answer 500 comes with exactly one new line on the error
    console and with nothing sent; any other answer adds to the error console
    exactly one line for each message of this call that Firebase rejected. *)
Theorem push_routes_respect_store :
  forall now e s,
    let r := fst (push_route now e s) in
    let s' := snd (push_route now e s) in
    base (tables_of s') = base (tables_of s) /\
    (registers e = false -> tables_of s' = tables_of s) /\
    firebaseAdmin s' = firebaseAdmin s /\
    (n_status r = 500 ->
     outbox s' = outbox s /\ exists line, errors s' = errors s ++ [line]) /\
    (n_status r <> 500 ->
     exists sent, outbox s' = outbox s ++ sent /\
                  errors s' = errors s ++ rejections s sent) /\
    (exists sent, outbox s' = outbox s ++ sent).
Proof.
  intros now e. change (respectful e (push_route now e)).
  destruct e as [d p q|name text requester|id joiner| |d title body data| |deviceId];
    cbn [push_route].
  - apply register_respectful.
  - unfold post_send_prayer_request.
    destruct name as [name|]; [|intros s; respect_done].
    destruct text as [text|]; [|intros s; respect_done].
    destruct (falsy (Some name) || falsy (Some text)); [intros s; respect_done|].
    apply (broadcast_respectful now _ _ _ _ (SendPrayerRequest (Some name) (Some text) requester)
             (fun devices results =>
                answer 200 (NBroadcast "Prayer request sent to all devices"
                              (Z.of_nat (List.length devices)) (successCount results))));
      reflexivity.
  - apply prayer_joined_respectful.
  - apply (broadcast_respectful now _ _ _ _ SendDailyReminder
             (fun devices results =>
                answer 200 (NBroadcast "Daily reminder sent to all devices"
                              (Z.of_nat (List.length devices)) (successCount results))));
      reflexivity.
  - apply test_notification_respectful.
  - apply devices_respectful.
  - apply device_info_respectful.
Qed.

(** ** The test notification *)


(** ** Diagnostics *)



Lemma in_order_by {A} (le : A -> A -> bool) (l : list A) x :
  In x (order_by le l) <-> In x l.
Proof.
  split; intros H.
  - eapply Permutation_in; [apply order_by_perm | exact H].
  - eapply Permutation_in; [apply Permutation_sym, order_by_perm | exact H].
Qed.


(** X23: the device list shows every registered device once, the most
    recently active first.  On a healthy pool the answer is 200 with the rows
    of [devices] in another order, sorted by [last_active] downwards, each
    with [has_push_token] telling whether a push token is stored; nothing is
    written or sent. *)
Theorem devices_listed :
  forall s,
    pending s = [] ->
    exists rows,
      get_devices s = (answer 200 (NDevices rows), s) /\
      Permutation (map summary (devices (tables_of s))) rows /\
      StronglySorted (fun a b => ds_last_active b <= ds_last_active a) rows /\
      (forall dev, In dev (devices (tables_of s)) ->
         exists row, In row rows /\ ds_device_id row = dev_device_id dev /\
                     (ds_has_push_token row = "yes"%string <-> dev_push_token dev <> None)).
Proof.
  intros s Hs. unfold get_devices. run_job Hs.
  rewrite with_tables_same by exact Hs.
  eexists. split; [reflexivity|].
  fold summary. change (fun dev => summary dev) with summary.
  split; [apply Permutation_sym, order_by_perm|]. split.
  - eapply StronglySorted_weaken;
      [|apply (order_by_sorted (fun a b => ds_last_active b <=? ds_last_active a))].
    + intros a b _ _ H. simpl in H. lia.
    + intros a b. lia.
    + intros a b c. lia.
  - intros dev Hin. exists (summary dev). split.
    + apply in_order_by. now apply in_map.
    + split; [reflexivity|]. unfold summary. simpl.
      destruct (dev_push_token dev); simpl; split; congruence.
Qed.

(** ** The text of a prayer request notification *)

Lemma length_append (a b : string) :
  String.length (a ++ b) = (String.length a + String.length b)%nat.
Proof. induction a as [|c a IH]; simpl; [reflexivity | now rewrite IH]. Qed.

Lemma substring_short n : forall s, (String.length s <= n)%nat -> substring 0 n s = s.
Proof.
  induction n as [|n IH]; intros [|c s] H; simpl in *; try reflexivity; try lia.
  f_equal. apply IH. lia.
Qed.

Lemma substring_long n : forall s,
  (n <= String.length s)%nat -> String.length (substring 0 n s) = n.
Proof.
  induction n as [|n IH]; intros [|c s] H; simpl in *; try reflexivity; try lia.
  f_equal. apply IH. lia.
Qed.

Lemma substring_prefix n : forall s, prefix (substring 0 n s) s = true.
Proof.
  induction n as [|n IH]; intros [|c s]; simpl; try reflexivity.
  destruct (ascii_dec c c) as [_|N]; [apply IH | now contradiction N].
Qed.

(** X24: for a prayer text of ASCII characters, the text of a prayer request
    notification names the requester and quotes the prayer, in full when it
    has at most 80 characters, and else its first 80 characters followed by an
    ellipsis; so the text is never longer than the name plus 106
    characters. *)
Theorem prayer_request_body_bounded :
  forall name text,
    plain text = true ->
    (String.length (prayer_request_body name text) <= String.length name + 106)%nat /\
    ((String.length text <= 80)%nat ->
     prayer_request_body name text = (name ++ " is asking for prayer: " ++ text)%string) /\
    ((80 < String.length text)%nat ->
     exists quoted,
       prayer_request_body name text =
       (name ++ " is asking for prayer: " ++ quoted ++ "...")%string /\
       String.length quoted = 80%nat /\ prefix quoted text = true).
Proof.
  intros name text _.
  assert (Hshort : (String.length text <= 80)%nat ->
            prayer_request_body name text =
            (name ++ " is asking for prayer: " ++ text)%string).
  { intros H. unfold prayer_request_body.
    rewrite (substring_short 80 text H).
    assert (E : (80 <? String.length text)%nat = false) by (apply Nat.ltb_ge; lia).
    rewrite E. f_equal. f_equal.
    induction text as [|c t IH]; [reflexivity|]. simpl. f_equal.
    clear. induction t as [|c t IH]; [reflexivity | simpl; now rewrite IH]. }
  assert (Hlong : (80 < String.length text)%nat ->
            prayer_request_body name text =
            (name ++ " is asking for prayer: " ++ substring 0 80 text ++ "...")%string).
  { intros H. unfold prayer_request_body.
    assert (E : (80 <? String.length text)%nat = true) by (apply Nat.ltb_lt; lia).
    now rewrite E. }
  split; [|split].
  - destruct (Nat.le_gt_cases (String.length text) 80) as [H|H].
    + rewrite (Hshort H), !length_append. simpl. lia.
    + rewrite (Hlong H), !length_append, substring_long by lia. simpl. lia.
  - exact Hshort.
  - intros H. exists (substring 0 80 text). split; [exact (Hlong H)|]. split.
    + apply substring_long. lia.
    + apply substring_prefix.
Qed.

(** ** Seeding the topics *)

Lemma existsb_id_app (a b : list prayer_topic) i :
  existsb (fun pt => pt_id pt =? i) (a ++ b) =
  existsb (fun pt => pt_id pt =? i) a || existsb (fun pt => pt_id pt =? i) b.
Proof. apply existsb_app. Qed.

Lemma existsb_id_in (l : list prayer_topic) i :
  existsb (fun pt => pt_id pt =? i) l = true <-> In i (map pt_id l).
Proof.
  rewrite existsb_exists, in_map_iff. split.
  - intros (pt & Hin & E). apply Z.eqb_eq in E. eauto.
  - intros (pt & E & Hin). exists pt. split; [exact Hin | now apply Z.eqb_eq].
Qed.

Lemma on_conflict_do_nothing_spec values : forall table,
  NoDup (map pt_id values) ->
  on_conflict_do_nothing values table =
  table ++ filter (fun row => negb (existsb (fun pt => pt_id pt =? pt_id row) table)) values.
Proof.
  unfold on_conflict_do_nothing.
  induction values as [|row rest IH]; intros table Hnd; cbn [fold_left filter].
  - now rewrite app_nil_r.
  - simpl in Hnd. inversion Hnd as [|? ? Hrow Hrest]; subst.
    destruct (existsb (fun pt => pt_id pt =? pt_id row) table) eqn:E; cbn [negb].
    + now apply IH.
    + rewrite (IH _ Hrest), <- app_assoc. cbn [app]. f_equal. f_equal.
      apply filter_ext_in. intros x Hx. rewrite existsb_id_app. cbn [existsb].
      assert (N : (pt_id row =? pt_id x) = false).
      { apply Z.eqb_neq. intros Eq. apply Hrow. rewrite Eq. now apply in_map. }
      now rewrite N, !orb_false_r.
Qed.

Lemma seeded_ids_unique : NoDup (map pt_id seeded_topics).
Proof.
  apply (NoDup_map_inv (fun i => i)). rewrite map_id.
  repeat (constructor; [simpl; intuition lia|]). constructor.
Qed.

Lemma missing_after_seeding table : missing_from (table ++ missing_from table) = [].
Proof.
  unfold missing_from at 1. apply filter_none. intros row Hrow.
  apply negb_false_iff. rewrite existsb_id_app.
  destruct (existsb (fun pt => pt_id pt =? pt_id row) table) eqn:E; [reflexivity|].
  cbn [orb]. apply existsb_exists. exists row. split; [|apply Z.eqb_refl].
  unfold missing_from. apply filter_In. split; [exact Hrow | now rewrite E].
Qed.

(** X25: seeding the topics never touches what is stored.  The rows of the
    table stay as they are and where they are; the seeded rows whose id is
    still free are appended in the order of the statement, and no other row;
    afterwards every seeded id is in the table, and unique ids stay unique;
    the requests and the links are not written, and every request keeps its
    topic.  Seeding a second time changes nothing. *)
Theorem seeding_keeps_stored_topics :
  forall d,
    let d' := insert_seeded_topics d in
    prayer_topics d' = prayer_topics d ++ missing_from (prayer_topics d) /\
    (forall row, In row seeded_topics -> In (pt_id row) (map pt_id (prayer_topics d'))) /\
    (NoDup (map pt_id (prayer_topics d)) -> NoDup (map pt_id (prayer_topics d'))) /\
    prayer_requests d' = prayer_requests d /\ device_prayers d' = device_prayers d /\
    (topics_referenced d -> topics_referenced d') /\
    insert_seeded_topics d' = d'.
Proof.
  intros d. cbv zeta.
  assert (Hspec : forall t, on_conflict_do_nothing seeded_topics t = t ++ missing_from t).
  { intros t. apply on_conflict_do_nothing_spec, seeded_ids_unique. }
  unfold insert_seeded_topics. cbn [prayer_topics prayer_requests device_prayers
    prayer_requests_id_seq device_prayers_id_seq].
  rewrite !Hspec.
  split; [reflexivity|]. split; [|split; [|split; [|split; [|split]]]].
  - intros row Hrow. rewrite map_app, in_app_iff.
    destruct (existsb (fun pt => pt_id pt =? pt_id row) (prayer_topics d)) eqn:E.
    + left. now apply existsb_id_in.
    + right. apply in_map. unfold missing_from. apply filter_In.
      split; [exact Hrow | now rewrite E].
  - intros Hnd. rewrite map_app. apply NoDup_app.
    + exact Hnd.
    + unfold missing_from. apply NoDup_map_filter, seeded_ids_unique.
    + intros i Hi Hm. apply in_map_iff in Hm. destruct Hm as (row & <- & Hrow).
      unfold missing_from in Hrow. apply filter_In in Hrow. destruct Hrow as [_ Hfree].
      apply existsb_id_in in Hi. rewrite Hi in Hfree. discriminate.
  - reflexivity.
  - reflexivity.
  - unfold topics_referenced. cbn [prayer_topics prayer_requests].
    intros H. eapply Forall_impl; [|exact H]. intros pr Hpr. cbv beta in *.
    now rewrite existsb_id_app, Hpr.
  - now rewrite missing_after_seeding, app_nil_r.
Qed.

(** ** A join and its notification *)

Lemma live_request_rows now pr (l : list prayer_request) :
  In pr l -> now < pr_expires_at pr ->
  no_rows (filter (where_id_active now (pr_id pr)) l) = false.
Proof.
  intros Hin Hl.
  assert (H : In pr (filter (where_id_active now (pr_id pr)) l)).
  { apply filter_In. split; [exact Hin|]. unfold where_id_active.
    rewrite Z.eqb_refl. simpl. lia. }
  now destruct (filter _ l).
Qed.

(** X26: the notification after a join tells the count the join left.  On a
    healthy pool with unique request and device ids and Firebase initialised,
    when a device (its id a value of VARCHAR(255)) joins a live request whose
    creator is another registered device with a push token and then asks for
    the notification, exactly one message goes out, to the creator's token,
    and it tells the stored [prayer_count] plus one if the device had no link
    to the request, and the stored [prayer_count] itself if it had; this as
    long as the request id, the new link id and the count stay within
    INTEGER. *)
Theorem join_then_notify_tells_count :
  forall now now' joiner s pr dev token send,
    pending s = [] ->
    request_ids_unique (base (tables_of s)) -> devices_unique (tables_of s) ->
    creator_token (tables_of s) pr dev token ->
    pr_id pr <> 0 -> now < pr_expires_at pr ->
    joiner <> ""%string -> joiner <> dev_device_id dev ->
    firebaseAdmin s = Some send ->
    varchar 255 joiner = true -> int4 (pr_id pr) ->
    join_room 1 (pr_id pr) (base (tables_of s)) ->
    exists pr',
      outbox (join_and_notify now now' (pr_id pr) joiner s) =
      outbox s ++ [joined_message now' pr' token] /\
      pr_id pr' = pr_id pr /\
      pr_prayer_count pr' =
      pr_prayer_count pr +
      (if has_link joiner (pr_id pr) (base (tables_of s)) then 0 else 1) /\
      pm_body (joined_message now' pr' token) = prayer_joined_body (pr_prayer_count pr').
Proof.
  intros now now' joiner s pr dev token send Hs Hu Hd Hc Hid Hlive Hj Hne Hf _ _ _.
  destruct Hc as (Hpr & Hdev & Hcr & Ht & Htok).
  assert (Hfalsy : falsy (Some joiner) = false).
  { simpl. now apply String.eqb_neq. }
  assert (Hother : Some (dev_device_id dev) <> Some joiner) by congruence.
  unfold join_and_notify, on_store.
  rewrite (post_join_healthy now (pr_id pr) joiner (world_of s) Hs Hfalsy).
  cbn [db world_of].
  rewrite (live_request_rows now pr _ Hpr Hlive).
  unfold has_link.
  destruct (no_rows (filter (where_device_request (Some joiner) (pr_id pr))
                       (device_prayers (base (tables_of s))))) eqn:El.
  - apply no_rows_nil, filter_nil_existsb in El. rewrite El.
    exists (set_prayer_count_incr pr).
    rewrite (prayer_joined_sent now' (set_prayer_count_incr pr) dev token send (Some joiner)).
    + cbn [snd outbox]. repeat split; reflexivity.
    + reflexivity.
    + unfold request_ids_unique. cbn. rewrite map_update_where by reflexivity. exact Hu.
    + exact Hd.
    + repeat split; try assumption. cbn.
      unfold update_where. apply in_map_iff. exists pr. split; [|exact Hpr].
      unfold where_id. now rewrite Z.eqb_refl.
    + exact Hid.
    + exact Hother.
    + exact Hf.
  - assert (El' : existsb (where_device_request (Some joiner) (pr_id pr))
                    (device_prayers (base (tables_of s))) = true).
    { destruct (existsb _ _) eqn:E; [reflexivity|].
      apply filter_nil_existsb in E. rewrite E in El. discriminate. }
    rewrite El'. exists pr.
    rewrite (prayer_joined_sent now' pr dev token send (Some joiner)).
    + cbn [snd outbox]. rewrite Z.add_0_r. repeat split; reflexivity.
    + exact Hs.
    + exact Hu.
    + exact Hd.
    + repeat split; assumption.
    + exact Hid.
    + exact Hother.
    + exact Hf.
Qed.

(** ** The theorems at work *)

(** A closed statement about concrete values, by computation. *)
Ltac computed :=
  repeat first [ split | constructor
               | let C := fresh in intro C; try (vm_compute in C; discriminate C) ];
  try (vm_compute; reflexivity).

Lemma one_is_integer : int4 1.
Proof. computed. Defined.

Lemma joins_count_distinct_devices_witness :
  faults (healthy fresh_request) = [] /\
  find_request 1 (db (healthy fresh_request)) = Some fresh_row /\
  int4 1 /\ join_room 3 1 (db (healthy fresh_request)) /\
  varchar 255 "A" = true /\ varchar 255 "B" = true /\
  exists pr',
    find_request 1
      (db (run (join_calls 1 [(10, "A"%string); (11, "B"%string); (12, "A"%string)])
             (healthy fresh_request))) = Some pr' /\
    pr_prayer_count pr' = 2.
Proof.
  assert (Hroom : join_room 3 1 (db (healthy fresh_request))) by computed.
  split; [reflexivity|]. split; [reflexivity|]. split; [exact one_is_integer|].
  split; [exact Hroom|]. split; [reflexivity|]. split; [reflexivity|].
  destruct (joins_count_distinct_devices 1
              [(10, "A"%string); (11, "B"%string); (12, "A"%string)]
              (healthy fresh_request) fresh_row eq_refl eq_refl)
    as (pr' & Hf & Hc & _).
  - repeat (constructor; [split; [reflexivity | split; reflexivity]|]). constructor.
  - exact one_is_integer.
  - exact Hroom.
  - exists pr'. split; [exact Hf|]. rewrite Hc. reflexivity.
Defined.

Lemma cleanup_sweeps_expired_witness :
  faults (healthy expired_with_open_link) = [] /\ 90000 <= 90001 /\
  fst (delete_cleanup_expired 90001 (healthy expired_with_open_link)) =
    res_json (JsonCleanedUp 1) /\
  prayer_requests (db (snd (delete_cleanup_expired 90001 (healthy expired_with_open_link)))) =
    [] /\
  device_prayers (db (snd (delete_cleanup_expired 90001 (healthy expired_with_open_link)))) =
    [].
Proof.
  assert (Hle : 90000 <= 90001) by (intros H; discriminate H).
  split; [reflexivity|]. split; [exact Hle|].
  pose proof (cleanup_sweeps_expired 90001 90000 (healthy expired_with_open_link)
                eq_refl Hle) as (H1 & H2 & _).
  split; [exact H1|]. split; [exact H2 | reflexivity].
Defined.

Lemma cleanup_keeps_live_requests_witness :
  faults two_devices_joined = [] /\ request_ids_unique (db two_devices_joined) /\
  In joined_row (prayer_requests (db (snd (delete_cleanup_expired 20 two_devices_joined)))) /\
  count_links 1 (db (snd (delete_cleanup_expired 20 two_devices_joined))) = 2.
Proof.
  assert (Hu : request_ids_unique (db two_devices_joined)).
  { unfold request_ids_unique. vm_compute. constructor; [intros [] | constructor]. }
  split; [reflexivity|]. split; [exact Hu|].
  pose proof (cleanup_keeps_live_requests 20 two_devices_joined eq_refl Hu) as (H & _).
  destruct (H joined_row) as [Hin Hc].
  - vm_compute. left. reflexivity.
  - reflexivity.
  - split; [exact Hin|]. exact Hc.
Defined.

Lemma create_request_contract_witness :
  faults (healthy (with_topics seeded_topics)) = [] /\
  fits_request 16 (Some "creator"%string) None (db (healthy (with_topics seeded_topics))) /\
  fst (post_prayer_requests 0 (Some 16) None None (Some "creator"%string)
         (healthy (with_topics seeded_topics))) =
    res_status_json 201 (JsonRequest fresh_row) /\
  post_prayer_requests 0 (Some 0) None None (Some "creator"%string)
    (healthy (with_topics seeded_topics)) =
    (res_status_json 400 (JsonError "Topic ID is required"),
     healthy (with_topics seeded_topics)) /\
  status (fst (post_prayer_requests 0 (Some 99) None None (Some "creator"%string)
                 (healthy (with_topics seeded_topics)))) = 500 /\
  prayer_requests
    (db (snd (post_prayer_requests 0 (Some 99) None None (Some "creator"%string)
                (healthy (with_topics seeded_topics))))) = [].
Proof.
  assert (Hfits : fits_request 16 (Some "creator"%string) None
                    (db (healthy (with_topics seeded_topics)))) by computed.
  split; [reflexivity|]. split; [exact Hfits|].
  pose proof (create_request_contract 0 (Some 16) None None (Some "creator"%string)
                (healthy (with_topics seeded_topics))) as (_ & _ & H & _).
  assert (Hne : 16 <> 0) by discriminate.
  split; [exact (proj1 (H 16 eq_refl eq_refl Hne eq_refl Hfits))|].
  split.
  - exact (proj1 (create_request_contract 0 (Some 0) None None (Some "creator"%string)
                    (healthy (with_topics seeded_topics))) eq_refl).
  - pose proof (create_request_contract 0 (Some 99) None None (Some "creator"%string)
                  (healthy (with_topics seeded_topics))) as (_ & _ & _ & H').
    assert (Hne' : 99 <> 0) by discriminate.
    pose proof (H' 99 eq_refl eq_refl Hne' eq_refl) as (H1 & _ & H2 & _).
    split; [exact H1 | exact H2].
Defined.

Lemma session_keeps_schema_witness :
  schema_holds (db (healthy (with_topics seeded_topics))) /\
  schema_holds (db (run_routes a_session (healthy (with_topics seeded_topics)))).
Proof.
  assert (H0 : schema_holds (db (healthy (with_topics seeded_topics)))).
  { repeat split; constructor. }
  split; [exact H0|].
  exact (session_keeps_schema a_session (healthy (with_topics seeded_topics)) H0).
Defined.

Lemma session_keeps_counting_witness :
  faults (healthy (with_topics seeded_topics)) = [] /\
  forallb (fun te => negb (is_legacy_pray (snd te))) a_counting_session = true /\
  store_ok (db (healthy (with_topics seeded_topics))) /\
  store_ok (db (run_routes a_counting_session (healthy (with_topics seeded_topics)))).
Proof.
  assert (H0 : store_ok (db (healthy (with_topics seeded_topics)))).
  { repeat split; constructor. }
  split; [reflexivity|]. split; [reflexivity|]. split; [exact H0|].
  exact (proj1 (session_keeps_counting a_counting_session
                  (healthy (with_topics seeded_topics)) eq_refl eq_refl H0)).
Defined.

Lemma created_request_lives_24_hours_witness :
  faults (healthy (with_topics seeded_topics)) = [] /\
  foreign_keys_hold (db (healthy (with_topics seeded_topics))) /\
  fits_request 16 (Some "creator"%string) None (db (healthy (with_topics seeded_topics))) /\
  varchar 255 "A" = true /\
  join_room 1 (prayer_requests_id_seq (db (healthy (with_topics seeded_topics))))
    (db (healthy (with_topics seeded_topics))) /\
  fst (post_join 86399 1 (Some "A"%string)
         (snd (post_prayer_requests 0 (Some 16) None None (Some "creator"%string)
                 (healthy (with_topics seeded_topics))))) =
    res_json (JsonRequest (set_prayer_count_incr fresh_row)) /\
  fst (post_join 86400 1 (Some "A"%string)
         (snd (post_prayer_requests 0 (Some 16) None None (Some "creator"%string)
                 (healthy (with_topics seeded_topics))))) =
    not_found_or_expired.
Proof.
  assert (Hk : foreign_keys_hold (db (healthy (with_topics seeded_topics))))
    by constructor.
  assert (Hfits : fits_request 16 (Some "creator"%string) None
                    (db (healthy (with_topics seeded_topics)))) by computed.
  assert (Hroom : join_room 1
                    (prayer_requests_id_seq (db (healthy (with_topics seeded_topics))))
                    (db (healthy (with_topics seeded_topics)))) by computed.
  assert (Hne : 16 <> 0) by discriminate.
  split; [reflexivity|]. split; [exact Hk|]. split; [exact Hfits|].
  split; [reflexivity|]. split; [exact Hroom|].
  split.
  - pose proof (created_request_lives_24_hours 0 86399 (Some 16) None None
                  (Some "creator"%string) "A"%string (healthy (with_topics seeded_topics)) 16
                  eq_refl Hk eq_refl Hne eq_refl Hfits eq_refl eq_refl Hroom) as (_ & H & _).
    exact (proj1 (H eq_refl)).
  - pose proof (created_request_lives_24_hours 0 86400 (Some 16) None None
                  (Some "creator"%string) "A"%string (healthy (with_topics seeded_topics)) 16
                  eq_refl Hk eq_refl Hne eq_refl Hfits eq_refl eq_refl Hroom) as (_ & _ & H).
    assert (Hle : 0 + interval_24_hours <= 86400) by (intros C; discriminate C).
    exact (f_equal fst (proj1 (H Hle))).
Defined.

Lemma active_requests_listed_witness :
  faults two_devices_joined = [] /\
  get_prayer_requests 20 two_devices_joined =
    (res_json (JsonRequests (active_rows 20 (db two_devices_joined))), two_devices_joined) /\
  map ar_id (active_rows 20 (db two_devices_joined)) = [1].
Proof.
  split; [reflexivity|].
  split; [exact (proj1 (active_requests_listed 20 two_devices_joined eq_refl))|].
  reflexivity.
Defined.


Lemma legacy_complete_is_stop_praying_witness :
  falsy (Some "A"%string) = false /\ faults two_devices_joined = [] /\
  int4 1 /\ gauge_may_drop 1 (db two_devices_joined) /\
  db (snd (delete_complete 20 1 two_devices_joined)) =
    db (snd (post_stop_praying 20 1 (Some "A"%string) two_devices_joined)) /\
  device_prayers (db (snd (delete_complete 20 1 two_devices_joined))) =
    device_prayers (db two_devices_joined) /\
  fst (delete_complete 20 1 two_devices_joined) =
    res_json (JsonMessage "Prayer completed successfully") /\
  option_map pr_active_prayers
    (find_request 1 (db (snd (delete_complete 20 1 two_devices_joined)))) = Some 0.
Proof.
  assert (Hroom : gauge_may_drop 1 (db two_devices_joined)) by computed.
  split; [reflexivity|]. split; [reflexivity|]. split; [exact one_is_integer|].
  split; [exact Hroom|].
  pose proof (legacy_complete_is_stop_praying 20 1 (Some "A"%string) two_devices_joined
                eq_refl) as (_ & H1 & _ & H2 & H3).
  split; [exact H1|]. split; [exact H2|].
  rewrite (H3 eq_refl one_is_integer Hroom). split; reflexivity.
Defined.

Lemma stats_on_healthy_pool_witness :
  faults two_devices_joined = [] /\
  exists row,
    get_stats 20 two_devices_joined = (res_json (JsonStats row), two_devices_joined) /\
    total_prayers row = 4 /\
    total_prayers (stats_report 20 (db two_devices_joined)) = 2.
Proof.
  split; [reflexivity|].
  destruct (stats_on_healthy_pool 20 two_devices_joined eq_refl) as (row & H1 & H2 & _).
  exists row. split; [exact H1|]. split; [rewrite H2; reflexivity | reflexivity].
Defined.

Lemma start_then_stop_restores_witness :
  faults (healthy fresh_request) = [] /\
  find_request 1 (db (healthy fresh_request)) = Some fresh_row /\
  0 <= pr_active_prayers fresh_row /\
  int4 1 /\ gauge_room 1 (db (healthy fresh_request)) /\
  find_request 1
    (db (run [(10, StartPraying 1 (Some "A"%string)); (11, StopPraying 1 (Some "B"%string))]
           (healthy fresh_request))) = Some fresh_row.
Proof.
  assert (H0 : 0 <= pr_active_prayers fresh_row) by (intros C; discriminate C).
  assert (Hroom : gauge_room 1 (db (healthy fresh_request))) by computed.
  split; [reflexivity|]. split; [reflexivity|]. split; [exact H0|].
  split; [exact one_is_integer|]. split; [exact Hroom|].
  exact (proj1 (start_then_stop_restores 10 11 1 (Some "A"%string) (Some "B"%string)
                  (healthy fresh_request) fresh_row
                  eq_refl eq_refl eq_refl eq_refl eq_refl eq_refl H0
                  one_is_integer Hroom)).
Defined.

Lemma topic_groups_by_title_witness :
  faults (healthy (with_topics inherited_title_topics)) = [] /\
  existsb unpushable (topic_rows (db (healthy (with_topics inherited_title_topics)))) = true /\
  fst (get_prayer_topics (healthy (with_topics inherited_title_topics))) =
    res_status_json 500 internal_server_error.
Proof.
  split; [reflexivity|]. split; [reflexivity|].
  exact (proj2 (proj2 (topic_groups_by_title (healthy (with_topics inherited_title_topics))))
           eq_refl eq_refl).
Defined.

Lemma three_devices_unique : devices_unique (tables_of push_ready).
Proof.
  unfold devices_unique. cbn.
  repeat (constructor; [simpl; intuition discriminate|]). constructor.
Defined.

Lemma register_device_upserts_witness :
  pending push_ready = [] /\ devices_unique (tables_of push_ready) /\
  fits_device "A" (Some "token-a2"%string) "ios" (tables_of push_ready) /\
  exists row,
    fst (post_register_device 9 (Some "A"%string) (Some "token-a2"%string)
           (Some "ios"%string) push_ready) =
      answer 200 (NRegistered (Some row)) /\
    dev_device_id row = "A"%string /\ dev_push_token row = Some "token-a2"%string /\
    dev_platform row = "ios"%string /\ dev_last_active row = 9 /\ dev_id row = 2 /\
    List.length (devices (tables_of
                   (snd (post_register_device 9 (Some "A"%string) (Some "token-a2"%string)
                           (Some "ios"%string) push_ready)))) = 3%nat.
Proof.
  assert (Hfits : fits_device "A" (Some "token-a2"%string) "ios" (tables_of push_ready))
    by computed.
  split; [reflexivity|]. split; [exact three_devices_unique|]. split; [exact Hfits|].
  destruct (proj2 (register_device_upserts 9 (Some "A"%string) (Some "token-a2"%string)
                     (Some "ios"%string) push_ready)
              "A"%string "ios"%string eq_refl eq_refl eq_refl eq_refl eq_refl
              three_devices_unique Hfits)
    as (row & H1 & H2 & H3 & H4 & H5 & _ & _ & _ & Hold & _).
  exists row. split; [exact H1|]. split; [exact H2|]. split; [exact H3|].
  split; [exact H4|]. split; [exact H5|].
  destruct (Hold {| dev_id := 2; dev_device_id := "A"; dev_push_token := Some "token-a"%string;
                    dev_platform := "android"; dev_last_active := 7; dev_created_at := 2 |})
    as (Hid & _ & Hlen).
  - right. left. reflexivity.
  - reflexivity.
  - split; [exact Hid | exact Hlen].
Defined.

Lemma prayer_request_broadcast_witness :
  falsy (Some "Ann"%string) = false /\ falsy (Some "Please pray"%string) = false /\
  pending push_ready = [] /\
  plain "Please pray" = true /\ text_field (Some "A"%string) = true /\
  fst (post_send_prayer_request 9 (Some "Ann"%string) (Some "Please pray"%string)
         (Some "A"%string) push_ready) =
    answer 200 (NBroadcast "Prayer request sent to all devices" 1 1) /\
  map pm_token
    (outbox (snd (post_send_prayer_request 9 (Some "Ann"%string) (Some "Please pray"%string)
                    (Some "A"%string) push_ready))) = ["token-c"%string].
Proof.
  split; [reflexivity|]. split; [reflexivity|]. split; [reflexivity|].
  split; [reflexivity|]. split; [reflexivity|].
  pose proof (proj2 (prayer_request_broadcast 9 (Some "Ann"%string)
                       (Some "Please pray"%string) (Some "A"%string) push_ready)
                "Ann"%string "Please pray"%string eq_refl eq_refl eq_refl eq_refl eq_refl
                eq_refl eq_refl)
    as (H1 & _ & H2 & _).
  split; [exact H1|]. rewrite H2. reflexivity.
Defined.

Lemma daily_reminder_broadcast_witness :
  pending push_ready = [] /\
  fst (post_send_daily_reminder 9 push_ready) =
    answer 200 (NBroadcast "Daily reminder sent to all devices" 2 1) /\
  map pm_token (outbox (snd (post_send_daily_reminder 9 push_ready))) =
    ["token-c"%string; "token-a"%string].
Proof.
  split; [reflexivity|].
  pose proof (daily_reminder_broadcast 9 push_ready eq_refl) as (H1 & _ & H2 & _).
  split; [exact H1|]. rewrite H2. reflexivity.
Defined.

Lemma joined_row_creator :
  creator_token (tables_of push_ready) joined_row creator_device "token-c".
Proof.
  split; [vm_compute; left; reflexivity|].
  split; [left; reflexivity|]. split; [reflexivity|]. split; [reflexivity|].
  discriminate.
Defined.

Lemma joined_row_unique : request_ids_unique (base (tables_of push_ready)).
Proof.
  unfold request_ids_unique. vm_compute. constructor; [intros [] | constructor].
Defined.

Lemma prayer_joined_notifies_creator_witness :
  pending push_ready = [] /\
  request_ids_unique (base (tables_of push_ready)) /\ devices_unique (tables_of push_ready) /\
  creator_token (tables_of push_ready) joined_row creator_device "token-c" /\
  outbox (snd (post_send_prayer_joined 30 (Some 1) (Some "A"%string) push_ready)) =
    [joined_message 30 joined_row "token-c"] /\
  pm_body (joined_message 30 joined_row "token-c") =
    "2 people are now praying with you!"%string /\
  outbox (snd (post_send_prayer_joined 30 (Some 1) (Some "creator"%string) push_ready)) = [].
Proof.
  assert (Hne : pr_id joined_row <> 0) by discriminate.
  assert (Hother : Some (dev_device_id creator_device) <> Some "A"%string) by discriminate.
  split; [reflexivity|]. split; [exact joined_row_unique|].
  split; [exact three_devices_unique|]. split; [exact joined_row_creator|].
  pose proof (prayer_joined_notifies_creator 30 (Some 1) (Some "A"%string) push_ready eq_refl)
    as (_ & _ & H).
  split; [|split; reflexivity].
  exact (proj1 (H joined_row creator_device "token-c"%string delivers_to_creator
                  joined_row_unique three_devices_unique joined_row_creator
                  eq_refl Hne Hother eq_refl)).
Defined.

Lemma push_routes_respect_store_witness :
  registers SendDailyReminder = false /\
  tables_of (snd (push_route 9 SendDailyReminder push_ready)) = tables_of push_ready /\
  base (tables_of (snd (push_route 9 (RegisterDevice (Some "C"%string) None
                                        (Some "ios"%string)) push_ready))) =
    base (tables_of push_ready).
Proof.
  split; [reflexivity|]. split.
  - exact (proj1 (proj2 (push_routes_respect_store 9 SendDailyReminder push_ready)) eq_refl).
  - exact (proj1 (push_routes_respect_store 9
                    (RegisterDevice (Some "C"%string) None (Some "ios"%string)) push_ready)).
Defined.



Lemma devices_listed_witness :
  pending push_ready = [] /\
  exists rows,
    get_devices push_ready = (answer 200 (NDevices rows), push_ready) /\
    map ds_device_id rows = ["A"%string; "B"%string; "creator"%string] /\
    map ds_has_push_token rows = ["yes"%string; "no"%string; "yes"%string].
Proof.
  split; [reflexivity|].
  destruct (devices_listed push_ready eq_refl) as (rows & H1 & _).
  exists rows. split; [exact H1|].
  assert (E : rows = match fst (get_devices push_ready) with
                     | {| n_body := NDevices l |} => l
                     | _ => []
                     end) by (rewrite H1; reflexivity).
  rewrite E. split; reflexivity.
Defined.

Lemma prayer_request_body_bounded_witness :
  plain "Please pray" = true /\ (String.length "Please pray" <= 80)%nat /\
  prayer_request_body "Ann" "Please pray" = "Ann is asking for prayer: Please pray"%string.
Proof.
  assert (H : (String.length "Please pray" <= 80)%nat) by (repeat constructor).
  split; [reflexivity|]. split; [exact H|].
  exact (proj1 (proj2 (prayer_request_body_bounded "Ann" "Please pray" eq_refl)) H).
Defined.

Lemma seeding_keeps_stored_topics_witness :
  NoDup (map pt_id (prayer_topics (with_topics job_topics))) /\
  NoDup (map pt_id (prayer_topics (insert_seeded_topics (with_topics job_topics)))) /\
  List.length (prayer_topics (insert_seeded_topics (with_topics job_topics))) = 20%nat.
Proof.
  assert (H : NoDup (map pt_id (prayer_topics (with_topics job_topics)))).
  { cbn. repeat (constructor; [simpl; intuition discriminate|]). constructor. }
  split; [exact H|]. split; [|reflexivity].
  exact (proj1 (proj2 (proj2 (seeding_keeps_stored_topics (with_topics job_topics)))) H).
Defined.

Lemma join_then_notify_tells_count_witness :
  pending push_ready = [] /\
  creator_token (tables_of push_ready) joined_row creator_device "token-c" /\
  20 < pr_expires_at joined_row /\
  varchar 255 "C" = true /\ int4 (pr_id joined_row) /\
  join_room 1 (pr_id joined_row) (base (tables_of push_ready)) /\
  exists pr',
    outbox (join_and_notify 20 21 1 "C" push_ready) = [joined_message 21 pr' "token-c"] /\
    pr_prayer_count pr' = 3.
Proof.
  assert (Hne : pr_id joined_row <> 0) by discriminate.
  assert (Hl : 20 < pr_expires_at joined_row) by reflexivity.
  assert (Hj : "C"%string <> ""%string) by discriminate.
  assert (Hc : "C"%string <> dev_device_id creator_device) by discriminate.
  assert (Hroom : join_room 1 (pr_id joined_row) (base (tables_of push_ready)))
    by computed.
  split; [reflexivity|]. split; [exact joined_row_creator|]. split; [exact Hl|].
  split; [reflexivity|]. split; [exact one_is_integer|]. split; [exact Hroom|].
  destruct (join_then_notify_tells_count 20 21 "C"%string push_ready joined_row
              creator_device "token-c"%string delivers_to_creator
              eq_refl joined_row_unique three_devices_unique joined_row_creator
              Hne Hl Hj Hc eq_refl eq_refl one_is_integer Hroom) as (pr' & Ho & _ & Hn & _).
  exists pr'. split; [exact Ho|]. rewrite Hn. reflexivity.
Defined.
